(** * Go-Back-N simulator: a shallow embedding of [GoBackNsim.py]

    The protocol engine of the simulator (classes [Packet], [Channel],
    [Sender], [Receiver] and the methods [simulation_tick] and
    [process_channel_only] of [GbnSimulator]) is transcribed into Rocq
    functions.  The event log ([self.log]) is kept, because it is the only
    trace the program leaves of what it offered to the channel, and a
    frame of the animation ([animate_loop], [draw_visualization]) is kept
    as the list of the calls it makes on the canvas.  The entry fields
    that [start_sim] and [Channel.__init__] read are text, with Python's
    [split], [strip], [isdigit] and [int] on it.  The Tk widgets and the
    wall clock are the environment.

    Python integers are [Z].  The time stamps stored in the channel queue
    are Python floats ([current_time + offset] with offsets 0.0, 0.2, ...):
    the engine is written over a small interface [Clock] of the arithmetic
    it uses on them, whose instance is IEEE binary64, the arithmetic Python
    runs.

    Python converts an [int] that meets a [float], and raises
    [OverflowError] when the [int] has no [float]; it compares an [int]
    with a [float] exactly; and it refuses to print an [int] of more than
    4300 digits.  The engine below has none of these exceptions: it is the
    program on the runs in which they do not occur, which [in_range] and
    [state_in_range] delimit.  Where a theorem says that a tick or an
    offer returns, or what a completed tick leaves, and one of these
    exceptions could interfere, it is stated for these runs;
    [send_to_network_raising] is the method of the channel with its
    exceptions, for what happens outside. *)

From Stdlib Require Import ZArith Floats Lia List Bool String Ascii.
From stdpp Require Import base option list gmap strings pretty.

Local Open Scope Z_scope.

(** ** Arithmetic on time stamps *)

(** The operations the program applies to time stamps: the implicit
    conversion of an [int] that meets a [float], [+], [<=] and the two
    literals [0.0] and [0.2].  [current_time >= arrival_time] compares an
    [int] with a [float]; it is read as [arrival_time <= float(current_time)],
    which is the same comparison as long as the conversion is exact, that
    is for a clock of at most 2^53 in absolute value. *)
Class Clock (T : Type) := {
  of_int : Z -> T;
  tadd : T -> T -> T;
  tleb : T -> T -> bool;
  off0 : T;
  off_step : T
}.


(** Python's arithmetic: binary64 with round-to-nearest-even.  The literal
    [0.2] is the double [0x1.999999999999ap-3].  [float_of_Z] is the
    conversion of an [int] within the range of a double (see
    [fits_float]); beyond it Python raises [OverflowError], and
    [float_of_Z] gives an infinity. *)
Definition float_of_Z (z : Z) : float :=
  SF2Prim (binary_normalize prec emax z 0 false).

#[export] Instance binary64_clock : Clock float := {|
  of_int := float_of_Z;
  tadd := PrimFloat.add;
  tleb := PrimFloat.leb;
  off0 := 0%float;
  off_step := 0x1.999999999999ap-3%float
|}.

(** ** Packets *)

Inductive PacketType := DATA | ACK.

#[export] Instance PacketType_eq_dec : EqDecision PacketType.
Proof. solve_decision. Defined.

(** [class Packet]: [type], [seq_num], [data] ([None] by default). *)
Record Packet := mkPacket {
  type : PacketType;
  seq_num : Z;
  data : option string
}.

(** The DATA packet [Packet('DATA', seq, f"Payload_{seq}")]. *)
Definition data_packet (k : Z) : Packet :=
  mkPacket DATA k (Some ("Payload_" +:+ pretty k)).
Arguments data_packet : simpl never.

(** The two destination strings ["Receiver"] and ["Sender"]. *)
Inductive Destination := ToReceiver | ToSender.

#[export] Instance Destination_eq_dec : EqDecision Destination.
Proof. solve_decision. Defined.

(** The two results of [send_to_network]: ["SENT"] and ["DROP"]. *)
Inductive Status := SENT | DROP.

#[export] Instance Status_eq_dec : EqDecision Status.
Proof. solve_decision. Defined.

(** ** The event log *)

(** The tags of [self.log]. *)
Inductive Tag := T_INFO | T_SEND | T_ACK | T_LOSS | T_TIMEOUT | T_DONE.

(** The messages of [self.log], one constructor per format string, with
    the number the string is formatted with. *)
Inductive Msg :=
| SimulationStarted
| SimulationStopped
| AllPacketsAcknowledged
| TimeoutPacket (b : Z)
| RetransmittingData (k : Z)
| RetransmissionDropped (k : Z)
| SenderData (k : Z)
| SenderDataDropped (k : Z)
| ReceiverExpected (k : Z)
| AckDropped (k : Z)
| ReceiverDuplicate (k : Z)
| ReceiverOutOfOrder (k : Z)
| SuppressDuplicate (a : Z)
| ResendingAck (a : Z)
| SenderReceivedAck (k : Z).

#[export] Instance Msg_eq_dec : EqDecision Msg.
Proof. solve_decision. Defined.

(** A line of the log: the time stamp [self.current_time], the tag and the
    message. *)
Record LogEntry := mkLog {
  log_time : Z;
  log_tag : Tag;
  log_msg : Msg
}.

(** The text of a message, as the format strings of the program print
    it. *)
Definition message_text (m : Msg) : string :=
  match m with
  | SimulationStarted => "--- Simulation Started ---"
  | SimulationStopped => "--- Simulation Stopped ---"
  | AllPacketsAcknowledged =>
      "All Packets Acknowledged! Simulation Complete..."
  | TimeoutPacket b =>
      "Timeout Packet " +:+ pretty b +:+ ". Retransmitting Window."
  | RetransmittingData k => "Retransmitting Data " +:+ pretty k
  | RetransmissionDropped k =>
      "Retransmission Data " +:+ pretty k +:+ " DROPPED by Channel"
  | SenderData k => "Sender Data " +:+ pretty k
  | SenderDataDropped k => "Sender Data " +:+ pretty k +:+ " -> DROPPED"
  | ReceiverExpected k =>
      "Receiver Data " +:+ pretty k +:+ " (Expected). Sending ACK."
  | AckDropped k => "ACK " +:+ pretty k +:+ " Dropped by Channel"
  | ReceiverDuplicate k =>
      "Receiver Data " +:+ pretty k +:+ " (Duplicate). Ignore."
  | ReceiverOutOfOrder k =>
      "Receiver Data " +:+ pretty k +:+ " (Out of Order). Discard."
  | SuppressDuplicate a =>
      "Receiver sent ACK " +:+ pretty a +:+ ". Suppress duplicate."
  | ResendingAck a => "Receiver re-sending ACK " +:+ pretty a
  | SenderReceivedAck k => "Sender received ACK " +:+ pretty k
  end.

(** The line [self.log] inserts: the time stamp [f"[{t:02d}s] "] and the
    message. *)
Definition log_text (e : LogEntry) : string :=
  let t := log_time e in
  let stamp := if decide (0 <= t < 10) then "0" +:+ pretty t else pretty t in
  "[" +:+ stamp +:+ "s] " +:+ message_text (log_msg e).

(** [l.remove(x)]: the first occurrence of [x] goes. *)
Fixpoint remove_first (x : Z) (l : list Z) : list Z :=
  match l with
  | [] => []
  | y :: l' => if decide (x = y) then l' else y :: remove_first x l'
  end.

Section Engine.

Context {T : Type} `{Clock T}.

(** ** The channel *)

(** An element of [packet_queue]: the tuple
    [(arrival_time_float, packet, destination, send_time_float)]. *)
Record Item := mkItem {
  arrival_time : T;
  pkt : Packet;
  dest : Destination;
  send_time : T
}.

(** [class Channel].  The two loss lists are the integers parsed from the
    comma-separated text fields. *)
Record Channel := mkChannel {
  loss_data : list Z;
  loss_ack : list Z;
  delay : Z;
  packet_queue : list Item
}.

(** [Channel.send_to_network(packet, destination, current_time, offset)].
    The caller converts an [int] clock with [of_int], and [send_time_float
    + self.delay] converts the delay: where Python raises [OverflowError]
    on one of the two (after the loss list is consulted, so that a dropped
    offer never raises), the function below queues the packet with an
    infinite arrival time.  It is the method for a delay and a clock within
    the range of a double. *)
Definition send_to_network (ch : Channel) (packet : Packet)
    (destination : Destination) (current_time offset : T) : Channel * Status :=
  let '(drop, ch1) :=
    match type packet with
    | DATA =>
        if decide (seq_num packet ∈ loss_data ch)
        then (true, mkChannel (remove_first (seq_num packet) (loss_data ch))
                              (loss_ack ch) (delay ch) (packet_queue ch))
        else (false, ch)
    | ACK =>
        if decide (seq_num packet ∈ loss_ack ch)
        then (true, mkChannel (loss_data ch)
                              (remove_first (seq_num packet) (loss_ack ch))
                              (delay ch) (packet_queue ch))
        else (false, ch)
    end in
  if drop then (ch1, DROP)
  else
    let send_time_float := tadd current_time offset in
    let arrival_time_float := tadd send_time_float (of_int (delay ch1)) in
    (mkChannel (loss_data ch1) (loss_ack ch1) (delay ch1)
       (packet_queue ch1 ++
          [mkItem arrival_time_float packet destination send_time_float]),
     SENT).

(** [Channel.get_delivered_packets(current_time)]: the pair of [delivered]
    and the channel with [keep_in_queue]. *)
Definition get_delivered_packets (ch : Channel) (current_time : Z)
    : list Item * Channel :=
  let '(delivered, keep_in_queue) :=
    List.partition
      (fun item => tleb (arrival_time item) (of_int current_time))
      (packet_queue ch) in
  (delivered, mkChannel (loss_data ch) (loss_ack ch) (delay ch) keep_in_queue).

(** ** Sender and receiver *)

(** [class Sender].  [timer_start] is [-1] when the timer is off. *)
Record Sender := mkSender {
  window_size : Z;
  total_packets : Z;
  timeout : Z;
  base : Z;
  next_seq : Z;
  buffer : gmap Z Packet;
  timer_start : Z;
  retransmissions : Z;
  duplicate_pkts : Z
}.

(** [Sender.check_timer(current_time)]. *)
Definition check_timer (sd : Sender) (current_time : Z) : bool :=
  if decide (base sd = next_seq sd) then false
  else if decide (timeout sd <= current_time - timer_start sd) then true
  else false.

(** [class Receiver]. *)
Record Receiver := mkReceiver {
  expected_seq : Z;
  delivered_count : Z;
  last_ack_sent : Z
}.

(** ** The simulator *)

(** The fields of [GbnSimulator] the engine reads and writes.  [log] is
    the content of [log_area]. *)
Record GbnSimulator := mkSim {
  running : bool;
  is_finishing : bool;
  current_time : Z;
  sender : Sender;
  receiver : Receiver;
  channel : Channel;
  log : list LogEntry
}.

Definition with_sender (s : GbnSimulator) (sd : Sender) : GbnSimulator :=
  mkSim (running s) (is_finishing s) (current_time s) sd (receiver s)
        (channel s) (log s).

Definition with_receiver (s : GbnSimulator) (rc : Receiver) : GbnSimulator :=
  mkSim (running s) (is_finishing s) (current_time s) (sender s) rc
        (channel s) (log s).

Definition with_channel (s : GbnSimulator) (ch : Channel) : GbnSimulator :=
  mkSim (running s) (is_finishing s) (current_time s) (sender s) (receiver s)
        ch (log s).

(** [self.log(tag, message)]: a line is appended, stamped with
    [self.current_time]. *)
Definition add_log (s : GbnSimulator) (tag : Tag) (m : Msg) : GbnSimulator :=
  mkSim (running s) (is_finishing s) (current_time s) (sender s) (receiver s)
        (channel s) (log s ++ [mkLog (current_time s) tag m]).

(** [self.current_time += 1]. *)
Definition advance_clock (s : GbnSimulator) : GbnSimulator :=
  mkSim (running s) (is_finishing s) (current_time s + 1) (sender s)
        (receiver s) (channel s) (log s).

(** The values read from the entry fields by [start_sim]. *)
Record Config := mkConfig {
  cfg_total : Z;
  cfg_win : Z;
  cfg_timeout : Z;
  cfg_delay : Z;
  cfg_data_drops : list Z;
  cfg_ack_drops : list Z
}.

(** [GbnSimulator.start_sim]: the state the first tick starts from. *)
Definition start_sim (c : Config) : GbnSimulator :=
  add_log
    (mkSim true false 0
       (mkSender (cfg_win c) (cfg_total c) (cfg_timeout c) 0 0 ∅ (-1) 0 0)
       (mkReceiver 0 0 (-1))
       (mkChannel (cfg_data_drops c) (cfg_ack_drops c) (cfg_delay c) [])
       [])
    T_INFO SimulationStarted.

(** [GbnSimulator.stop_sim], the callback of the STOP button and of the
    timer armed when all packets are acknowledged. *)
Definition stop_sim (s : GbnSimulator) : GbnSimulator :=
  add_log
    (mkSim false false (current_time s) (sender s) (receiver s) (channel s)
           (log s))
    T_INFO SimulationStopped.

(** *** Arrivals: the body of the loop of [process_channel_only] *)

(** The branch [dest == "Receiver" and pkt.type == 'DATA']. *)
Definition receive_data (s : GbnSimulator) (item : Item) : GbnSimulator :=
  let p := pkt item in
  let rc := receiver s in
  if decide (seq_num p = expected_seq rc) then
    let s1 := add_log s T_INFO (ReceiverExpected (seq_num p)) in
    let s2 := with_receiver s1
                (mkReceiver (expected_seq rc + 1) (delivered_count rc + 1)
                            (seq_num p)) in
    let ack := mkPacket ACK (seq_num p) None in
    let '(ch, status) :=
      send_to_network (channel s2) ack ToSender (arrival_time item) off0 in
    let s3 := with_channel s2 ch in
    match status with
    | DROP => add_log s3 T_LOSS (AckDropped (seq_num p))
    | SENT => s3
    end
  else if decide (seq_num p < expected_seq rc) then
    add_log s T_INFO (ReceiverDuplicate (seq_num p))
  else
    let s1 := add_log s T_INFO (ReceiverOutOfOrder (seq_num p)) in
    if decide (0 < expected_seq rc) then
      let last_ack := expected_seq rc - 1 in
      if decide (last_ack_sent rc = last_ack) then
        add_log s1 T_INFO (SuppressDuplicate last_ack)
      else
        let s2 := add_log s1 T_INFO (ResendingAck last_ack) in
        let s3 := with_receiver s2
                    (mkReceiver (expected_seq rc) (delivered_count rc)
                                last_ack) in
        let ack := mkPacket ACK last_ack None in
        with_channel s3
          (fst (send_to_network (channel s3) ack ToSender
                  (arrival_time item) off0))
    else s1.

(** The branch [dest == "Sender" and pkt.type == 'ACK']. *)
Definition receive_ack (s : GbnSimulator) (item : Item) : GbnSimulator :=
  let p := pkt item in
  let s1 := add_log s T_ACK (SenderReceivedAck (seq_num p)) in
  let sd := sender s1 in
  if decide (base sd <= seq_num p) then
    let new_base := seq_num p + 1 in
    let new_timer :=
      if decide (new_base < next_seq sd) then current_time s1 else -1 in
    with_sender s1
      (mkSender (window_size sd) (total_packets sd) (timeout sd) new_base
                (next_seq sd) (buffer sd) new_timer (retransmissions sd)
                (duplicate_pkts sd))
  else s1.

(** One iteration of [for item in arrivals]. *)
Definition handle_arrival (s : GbnSimulator) (item : Item) : GbnSimulator :=
  match dest item, type (pkt item) with
  | ToReceiver, DATA => receive_data s item
  | ToSender, ACK => receive_ack s item
  | _, _ => s
  end.

(** [GbnSimulator.process_channel_only]. *)
Definition process_channel_only (s : GbnSimulator) : GbnSimulator :=
  let '(arrivals, ch) := get_delivered_packets (channel s) (current_time s) in
  fold_left handle_arrival arrivals (with_channel s ch).

(** *** The two send loops of [simulation_tick] *)

(** The loop [for seq in range(base, next_seq)] of the timeout branch, over
    the sequence numbers still to visit.  [None] is the [KeyError] of
    [self.sender.buffer[seq]]. *)
Fixpoint retransmit_loop (seqs : list Z) (burst_offset : T)
    (s : GbnSimulator) : option GbnSimulator :=
  match seqs with
  | [] => Some s
  | k :: rest =>
      let sd := sender s in
      let s1 := with_sender s
                  (mkSender (window_size sd) (total_packets sd) (timeout sd)
                            (base sd) (next_seq sd) (buffer sd)
                            (timer_start sd) (retransmissions sd)
                            (duplicate_pkts sd + 1)) in
      match buffer sd !! k with
      | None => None
      | Some p =>
          let '(ch, status) :=
            send_to_network (channel s1) p ToReceiver
                            (of_int (current_time s1)) burst_offset in
          let s2 := with_channel s1 ch in
          let s3 :=
            match status with
            | SENT => add_log s2 T_LOSS (RetransmittingData k)
            | DROP => add_log s2 T_LOSS (RetransmissionDropped k)
            end in
          retransmit_loop rest (tadd burst_offset off_step) s3
      end
  end.

(** The body of [if self.sender.check_timer(self.current_time)]. *)
Definition on_timeout (s : GbnSimulator) : option GbnSimulator :=
  let s1 := add_log s T_TIMEOUT (TimeoutPacket (base (sender s))) in
  let sd := sender s1 in
  let s2 := with_sender s1
              (mkSender (window_size sd) (total_packets sd) (timeout sd)
                        (base sd) (next_seq sd) (buffer sd)
                        (current_time s1) (retransmissions sd + 1)
                        (duplicate_pkts sd)) in
  retransmit_loop (seqZ (base sd) (next_seq sd - base sd)) off0 s2.

(** The condition of the [while] loop that sends new packets. *)
Definition can_send (sd : Sender) : bool :=
  bool_decide (next_seq sd < base sd + window_size sd)
  && bool_decide (next_seq sd < total_packets sd).

(** The body of that loop. *)
Definition send_new (burst_offset : T) (s : GbnSimulator) : GbnSimulator :=
  let sd := sender s in
  let k := next_seq sd in
  let p := data_packet k in
  let new_timer :=
    if decide (base sd = next_seq sd) then current_time s else timer_start sd in
  let s1 := with_sender s
              (mkSender (window_size sd) (total_packets sd) (timeout sd)
                        (base sd) (next_seq sd) (<[k := p]> (buffer sd))
                        new_timer (retransmissions sd) (duplicate_pkts sd)) in
  let '(ch, status) :=
    send_to_network (channel s1) p ToReceiver (of_int (current_time s1))
                    burst_offset in
  let s2 := with_channel s1 ch in
  let s3 :=
    match status with
    | SENT => add_log s2 T_SEND (SenderData k)
    | DROP => add_log s2 T_LOSS (SenderDataDropped k)
    end in
  let sd3 := sender s3 in
  with_sender s3
    (mkSender (window_size sd3) (total_packets sd3) (timeout sd3) (base sd3)
              (next_seq sd3 + 1) (buffer sd3) (timer_start sd3)
              (retransmissions sd3) (duplicate_pkts sd3)).

(** The [while] loop, by recursion on a bound on its iterations. *)
Fixpoint fill_loop (fuel : nat) (burst_offset : T) (s : GbnSimulator)
    : GbnSimulator :=
  match fuel with
  | O => s
  | S fuel' =>
      if can_send (sender s)
      then fill_loop fuel' (tadd burst_offset off_step) (send_new burst_offset s)
      else s
  end.

(** Step 2 of [simulation_tick].  Every iteration increments [next_seq]
    and runs only below [total_packets]: [total_packets - next_seq]
    iterations are enough (see [fill_window_done]). *)
Definition fill_window (s : GbnSimulator) : GbnSimulator :=
  fill_loop (Z.to_nat (total_packets (sender s) - next_seq (sender s))) off0 s.

(** *** One tick *)

(** [GbnSimulator.simulation_tick].  The [root.after] calls that schedule
    the next tick and the delayed [stop_sim] are the environment's part:
    see [step]. *)
Definition simulation_tick (s : GbnSimulator) : option GbnSimulator :=
  if negb (running s) then Some s
  else if decide (base (sender s) = total_packets (sender s)) then
    let s1 :=
      if negb (is_finishing s)
      then add_log
             (mkSim (running s) true (current_time s) (sender s) (receiver s)
                    (channel s) (log s))
             T_DONE AllPacketsAcknowledged
      else s in
    Some (advance_clock (process_channel_only s1))
  else
    s1 ← (if check_timer (sender s) (current_time s)
          then on_timeout s else Some s);
    Some (advance_clock (process_channel_only (fill_window s1))).

End Engine.

Arguments Item : clear implicits.
Arguments Channel : clear implicits.
Arguments GbnSimulator : clear implicits.

(** ** Runs *)

(** [n] ticks in a row. *)
Fixpoint ticks {T} `{Clock T} (n : nat) (s : GbnSimulator T)
    : option (GbnSimulator T) :=
  match n with
  | O => Some s
  | S n' => s' ← ticks n' s; simulation_tick s'
  end.

(** ** Histories of a channel *)

(** The two methods of [Channel], as operations on a channel. *)
Inductive ChanOp {T : Type} :=
| OpSend (p : Packet) (d : Destination) (t o : T)
| OpDeliver (now : Z).
Arguments ChanOp : clear implicits.

(** A sequence of method calls on a channel: the channel it leaves, and
    the packets offered with the status each call returned, in order. *)
Fixpoint run_ops {T} `{Clock T} (ch : Channel T) (ops : list (ChanOp T))
    : Channel T * list (Packet * Status) :=
  match ops with
  | [] => (ch, [])
  | OpSend p d t o :: rest =>
      let '(ch1, st) := send_to_network ch p d t o in
      let '(ch2, tr) := run_ops ch1 rest in
      (ch2, (p, st) :: tr)
  | OpDeliver now :: rest => run_ops (get_delivered_packets ch now).2 rest
  end.

(** The statuses returned to the offers of the packets of type [ty] with
    sequence number [k], in order. *)
Definition statuses_of (ty : PacketType) (k : Z)
    (tr : list (Packet * Status)) : list Status :=
  map snd
    (List.filter
       (fun x => bool_decide (type x.1 = ty) && bool_decide (seq_num x.1 = k))
       tr).

(** The burst offset after [i] rounds of [burst_offset += 0.2], from
    [burst_offset = 0.0]. *)
Fixpoint burst {T} `{Clock T} (i : nat) : T :=
  match i with
  | O => off0
  | S j => tadd (burst j) off_step
  end.

(** The log line of a retransmission and of a first transmission, for the
    status the channel returned. *)
Definition retransmit_line (now : Z) (x : Packet * Status) : LogEntry :=
  match x.2 with
  | SENT => mkLog now T_LOSS (RetransmittingData (seq_num x.1))
  | DROP => mkLog now T_LOSS (RetransmissionDropped (seq_num x.1))
  end.

Definition send_line (now : Z) (x : Packet * Status) : LogEntry :=
  match x.2 with
  | SENT => mkLog now T_SEND (SenderData (seq_num x.1))
  | DROP => mkLog now T_LOSS (SenderDataDropped (seq_num x.1))
  end.

(** The offers of one burst at time [now]: the DATA packets [first],
    [first + 1], ..., [n] of them, the [i]-th with offset [burst i]. *)
Definition burst_offers {T} `{Clock T} (now first : Z) (n : nat)
    : list (ChanOp T) :=
  map (fun i => OpSend (data_packet (first + Z.of_nat i)) ToReceiver
                       (of_int now) (burst i))
      (seq 0 n).

(** The offers of a burst whose first packet has offset [burst j]. *)
Definition offers_from {T} `{Clock T} (now first : Z) (j n : nat)
    : list (ChanOp T) :=
  map (fun i => OpSend (data_packet (first + Z.of_nat i)) ToReceiver
                       (of_int now) (burst (j + i)))
      (seq 0 n).

(** The number of rounds the loop that sends new packets makes from a
    sender state. *)
Definition rounds (sd : Sender) : nat :=
  Z.to_nat (Z.min (base sd + window_size sd) (total_packets sd) - next_seq sd).

(** The loss list the channel consults for a packet of type [ty]. *)
Definition loss_of {T} (ty : PacketType) (ch : Channel T) : list Z :=
  match ty with
  | DATA => loss_data ch
  | ACK => loss_ack ch
  end.

(** [ch'] is what some sequence of method calls makes of [ch]. *)
Definition history {T} `{Clock T} (ch ch' : Channel T) : Prop :=
  exists ops, ch' = (run_ops ch ops).1.

(** ** Reading the log *)

(** The message is one of the four lines the sender logs when it offers
    the DATA packet [k] to the channel. *)
Definition offers_data (k : Z) (m : Msg) : bool :=
  match m with
  | SenderData k' | SenderDataDropped k'
  | RetransmittingData k' | RetransmissionDropped k' => bool_decide (k' = k)
  | _ => false
  end.

(** The message [m] is in the log. *)
Definition logged (m : Msg) (l : list LogEntry) : bool :=
  existsb (fun e => bool_decide (log_msg e = m)) l.

(** ** The offers of a run, as its log records them *)

(** What an offer was: the type and the sequence number of the packet, and
    the status the channel returned. *)
Definition summary (x : Packet * Status) : PacketType * Z * Status :=
  (type x.1, seq_num x.1, x.2).

(** The line "Receiver Data k (Expected). Sending ACK." is followed by the
    line "ACK k Dropped by Channel" when the ACK was dropped, and by no
    line of its own when it was sent (lines 448 to 459). *)
Definition ack_dropped_next (k : Z) (rest : list LogEntry) : bool :=
  match rest with
  | e :: _ => bool_decide (log_msg e = AckDropped k)
  | [] => false
  end.

(** The offers a log records, in order, each with its status: the four
    lines of the sender tell the status of an offer of DATA, and the line
    of an expected packet with the line after it that of the offer of its
    ACK.  The line "Receiver re-sending ACK a" announces an offer whose
    status the program does not look at (line 475): it has no entry here,
    and [resent_acks] lists these lines. *)
Fixpoint offers (l : list LogEntry) : list (PacketType * Z * Status) :=
  match l with
  | [] => []
  | e :: rest =>
      match log_msg e with
      | SenderData k | RetransmittingData k => (DATA, k, SENT) :: offers rest
      | SenderDataDropped k | RetransmissionDropped k =>
          (DATA, k, DROP) :: offers rest
      | ReceiverExpected k =>
          (ACK, k, if ack_dropped_next k rest then DROP else SENT)
          :: offers rest
      | _ => offers rest
      end
  end.

(** The statuses of the offers of the packets of type [ty] with sequence
    number [k], in order. *)
Definition statuses_in (ty : PacketType) (k : Z)
    (l : list (PacketType * Z * Status)) : list Status :=
  map snd (List.filter (fun x => bool_decide (x.1 = (ty, k))) l).

(** The log segment [l] starts with the line of a dropped ACK. *)
Definition starts_with_ack_drop (l : list LogEntry) : Prop :=
  match l with
  | e :: _ => exists k, log_msg e = AckDropped k
  | [] => False
  end.

(** From [s] to [s'] the channel received a sequence of method calls, and
    the log gained the record of the offers among them, with the statuses
    the calls returned. *)
Definition traced {T} `{Clock T} (s s' : GbnSimulator T) : Prop :=
  exists ops l',
    channel s' = (run_ops (channel s) ops).1
    /\ log s' = log s ++ l'
    /\ ~ starts_with_ack_drop l'
    /\ offers l' = map summary (run_ops (channel s) ops).2.

(** ** Configurations used as examples *)

(** Scenario A of the specification: window 1, three packets, delay 1,
    timeout 5, no loss. *)
Definition scenario_A : Config := mkConfig 3 1 5 1 [] [].

(** Scenario C of the specification: three packets, window 3, delay 1,
    timeout 3, ACK 0 lost once. *)
Definition scenario_C : Config := mkConfig 3 3 3 1 [] [0].

(** Two packets, window 1, timeout 2, delay 1; ACK 0 and DATA 1 are each
    to be lost once. *)
Definition stalled_config : Config := mkConfig 2 1 2 1 [1] [0].

(** Two packets, window 2, timeout 3, delay 1; DATA 0 is to be lost
    once. *)
Definition lossy_config : Config := mkConfig 2 2 3 1 [0] [].

(** One packet and a delay of 10^400 seconds, which has no [float]. *)
Definition overflow_config : Config := mkConfig 1 1 1 (10 ^ 400) [] [].


(** The state [n] ticks after [start_sim c] (the start state itself should
    a tick raise [KeyError]). *)
Definition state_after {T} `{Clock T} (n : nat) (c : Config) : GbnSimulator T :=
  default (start_sim c) (ticks n (start_sim c)).

(** What the environment can do to a running simulator: fire the next
    tick, or call [stop_sim] (the STOP button, or the timer armed by the
    tick that saw all packets acknowledged). *)
Inductive step {T} `{Clock T} : GbnSimulator T -> GbnSimulator T -> Prop :=
| step_tick s s' : simulation_tick s = Some s' -> step s s'
| step_stop s : step s (stop_sim s).

(** The states of a run started from the configuration [c]. *)
Inductive reachable {T} `{Clock T} (c : Config) : GbnSimulator T -> Prop :=
| reach_start : reachable c (start_sim c)
| reach_step s s' : reachable c s -> step s s' -> reachable c s'.

(** A validated configuration (section 6 of the specification): positive
    sizes and timeout, a non-negative delay, loss lists within
    [[0, totalPackets)]. *)
Definition valid_config (c : Config) : Prop :=
  0 < cfg_total c /\ 0 < cfg_win c /\ 0 < cfg_timeout c /\ 0 <= cfg_delay c
  /\ Forall (fun k => 0 <= k < cfg_total c) (cfg_data_drops c)
  /\ Forall (fun k => 0 <= k < cfg_total c) (cfg_ack_drops c).

(** ** The invariant of the engine *)

(** What is in flight: DATA towards the receiver for a sequence number
    already originated, ACK towards the sender for a sequence number
    already delivered. *)
Definition item_ok {T} (ns es : Z) (it : Item T) : Prop :=
  match dest it, type (pkt it) with
  | ToReceiver, DATA => 0 <= seq_num (pkt it) < ns
  | ToSender, ACK => 0 <= seq_num (pkt it) < es
  | _, _ => False
  end.

Record Inv {T} (c : Config) (s : GbnSimulator T) : Prop := mkInv {
  inv_win : window_size (sender s) = cfg_win c;
  inv_total : total_packets (sender s) = cfg_total c;
  inv_base : 0 <= base (sender s) <= next_seq (sender s);
  inv_next : next_seq (sender s) <= total_packets (sender s);
  inv_window : next_seq (sender s) - base (sender s) <= window_size (sender s);
  inv_buffer : forall k,
    buffer (sender s) !! k =
      if decide (0 <= k < next_seq (sender s))
      then Some (data_packet k) else None;
  inv_expected :
    base (sender s) <= expected_seq (receiver s) <= next_seq (sender s);
  inv_delivered : delivered_count (receiver s) = expected_seq (receiver s);
  inv_last_ack : last_ack_sent (receiver s) = expected_seq (receiver s) - 1;
  inv_queue :
    Forall (item_ok (next_seq (sender s)) (expected_seq (receiver s)))
           (packet_queue (channel s));
  inv_time : 0 <= current_time s;
  inv_timer :
    (base (sender s) = next_seq (sender s) /\ timer_start (sender s) = -1)
    \/ (base (sender s) < next_seq (sender s)
        /\ 0 <= timer_start (sender s) <= current_time s)
}.

(** ** Two kinds of runs *)

(** A run that has settled: all packets acknowledged, the completion
    already logged, nothing in flight. *)
Definition settled {T} (s : GbnSimulator T) : Prop :=
  running s = true /\ is_finishing s = true
  /\ base (sender s) = total_packets (sender s)
  /\ packet_queue (channel s) = [].

(** The states of the run of [stalled_config] after its first tick: the
    sender waits for the acknowledgement of packet 0 with a window of one,
    only copies of DATA 0 are in flight, DATA 1 was never offered and is
    still on the loss list. *)
Record Stalled {T} (s : GbnSimulator T) : Prop := mkStalled {
  st_running : running s = true;
  st_win : window_size (sender s) = 1;
  st_total : total_packets (sender s) = 2;
  st_base : base (sender s) = 0;
  st_next : next_seq (sender s) = 1;
  st_buffer : buffer (sender s) !! 0 = Some (data_packet 0);
  st_loss : loss_data (channel s) = [1];
  st_queue :
    Forall (fun it => dest it = ToReceiver /\ pkt it = data_packet 0)
           (packet_queue (channel s));
  st_receiver :
    (expected_seq (receiver s) = 0 /\ loss_ack (channel s) = [0])
    \/ expected_seq (receiver s) = 1;
  st_log : Forall (fun e => offers_data 1 (log_msg e) = false) (log s)
}.

(** ** The log as a ledger *)

(** The sequence numbers the receiver accepted (lines "Receiver Data k
    (Expected)"), in the order of the log. *)
Definition deliveries (l : list LogEntry) : list Z :=
  omap (fun e => match log_msg e with
                 | ReceiverExpected k => Some k
                 | _ => None
                 end) l.

(** The sequence numbers the sender originated (lines "Sender Data k",
    sent or dropped), in the order of the log. *)
Definition originations (l : list LogEntry) : list Z :=
  omap (fun e => match log_msg e with
                 | SenderData k | SenderDataDropped k => Some k
                 | _ => None
                 end) l.

(** The sequence numbers retransmitted (lines "Retransmitting Data k" and
    "Retransmission Data k DROPPED"), in the order of the log. *)
Definition retransmitted (l : list LogEntry) : list Z :=
  omap (fun e => match log_msg e with
                 | RetransmittingData k | RetransmissionDropped k => Some k
                 | _ => None
                 end) l.

(** The times of the timeout lines, in the order of the log. *)
Definition timeout_times (l : list LogEntry) : list Z :=
  omap (fun e => match log_msg e with
                 | TimeoutPacket _ => Some (log_time e)
                 | _ => None
                 end) l.

(** The ACKs the receiver sent again (lines "Receiver re-sending ACK a"),
    in the order of the log. *)
Definition resent_acks (l : list LogEntry) : list Z :=
  omap (fun e => match log_msg e with
                 | ResendingAck a => Some a
                 | _ => None
                 end) l.

(** What the log and the counters of a run say about each other. *)
Record Ledger {T} (s : GbnSimulator T) : Prop := mkLedger {
  led_expected : 0 <= expected_seq (receiver s);
  led_next : 0 <= next_seq (sender s);
  led_deliveries :
    deliveries (log s) = seqZ 0 (expected_seq (receiver s));
  led_originations :
    originations (log s) = seqZ 0 (next_seq (sender s));
  led_last_ack :
    last_ack_sent (receiver s) = expected_seq (receiver s) - 1;
  led_resent : resent_acks (log s) = [];
  led_timeouts :
    Z.of_nat (length (timeout_times (log s))) = retransmissions (sender s);
  led_retransmitted :
    Z.of_nat (length (retransmitted (log s))) = duplicate_pkts (sender s)
}.

(** ** Runs of any configuration *)

(** The states of a run whose configuration has a negative window size or
    a negative number of packets: nothing is ever sent. *)
Record Idle {T} (c : Config) (s : GbnSimulator T) : Prop := mkIdle {
  idle_win : window_size (sender s) = cfg_win c;
  idle_total : total_packets (sender s) = cfg_total c;
  idle_sizes : cfg_win c < 0 \/ cfg_total c < 0;
  idle_base : base (sender s) = 0;
  idle_next : next_seq (sender s) = 0;
  idle_buffer : buffer (sender s) = ∅;
  idle_timer : timer_start (sender s) = -1;
  idle_retransmissions : retransmissions (sender s) = 0;
  idle_receiver : receiver s = mkReceiver 0 0 (-1);
  idle_queue : packet_queue (channel s) = [];
  idle_time : 0 <= current_time s
}.

(** What one step may change and in which direction. *)
Record Advances {T} (s s' : GbnSimulator T) : Prop := mkAdvances {
  adv_base : base (sender s) <= base (sender s');
  adv_next : next_seq (sender s) <= next_seq (sender s');
  adv_expected : expected_seq (receiver s) <= expected_seq (receiver s');
  adv_delivered : delivered_count (receiver s) <= delivered_count (receiver s');
  adv_retransmissions :
    retransmissions (sender s) <= retransmissions (sender s');
  adv_duplicates : duplicate_pkts (sender s) <= duplicate_pkts (sender s');
  adv_time : current_time s <= current_time s';
  adv_window : window_size (sender s') = window_size (sender s);
  adv_total : total_packets (sender s') = total_packets (sender s);
  adv_timeout : timeout (sender s') = timeout (sender s);
  adv_delay : delay (channel s') = delay (channel s);
  adv_log : log s `prefix_of` log s';
  adv_loss_data : loss_data (channel s') `sublist_of` loss_data (channel s);
  adv_loss_ack : loss_ack (channel s') `sublist_of` loss_ack (channel s)
}.

(** The states of a run that cannot get past packet [k]: the sender has
    not originated anything after [k], the acknowledgement of [k] is still
    to be lost if [k] is still to be delivered, and no acknowledgement of
    [k] or above is in flight. *)
Record Blocked {T} (k : Z) (s : GbnSimulator T) : Prop := mkBlocked {
  blk_base : base (sender s) <= k;
  blk_next : next_seq (sender s) <= k + 1;
  blk_loss : expected_seq (receiver s) <= k -> k ∈ loss_ack (channel s);
  blk_queue :
    Forall (fun it => type (pkt it) = ACK -> seq_num (pkt it) < k)
           (packet_queue (channel s));
  blk_finishing : is_finishing s = false
}.

(** Every queued item arrives [delay] after it was sent. *)
Definition transit_ok {T} `{Clock T} (ch : Channel T) : Prop :=
  Forall (fun it => arrival_time it = tadd (send_time it) (of_int (delay ch)))
         (packet_queue ch).

(** Consecutive elements of [ts] are at least [d] apart. *)
Fixpoint spaced (d : Z) (ts : list Z) : Prop :=
  match ts with
  | t :: rest =>
      match rest with
      | t' :: _ => t + d <= t' /\ spaced d rest
      | [] => True
      end
  | [] => True
  end.

(** The timeouts logged so far are [timeout] apart, and the latest of them
    is no later than the clock and than the running timer. *)
Record Paced {T} (c : Config) (s : GbnSimulator T) : Prop := mkPaced {
  pc_timeout : timeout (sender s) = cfg_timeout c;
  pc_spaced : spaced (cfg_timeout c) (timeout_times (log s));
  pc_last : forall t,
    last (timeout_times (log s)) = Some t ->
    t <= current_time s
    /\ (base (sender s) <> next_seq (sender s) -> t <= timer_start (sender s))
}.

(** ** The animation frame *)

(** [draw_visualization] only calls methods of the canvas: a frame is the
    list of these calls, in order, with their positional arguments and
    their keyword options.  Its arithmetic can raise: an [int] that meets a
    [float] is converted, which fails beyond the range of a double, and the
    division fails on 0.  A frame that raises has made the calls that come
    before the exception. *)

(** A Python number: an [int] or a [float]. *)
Inductive Num := NInt (z : Z) | NFloat (f : float).

(** An argument of a canvas method: a number, a string or a tuple. *)
#[local] Unset Elimination Schemes.
Inductive Arg :=
| ANum (n : Num)
| AStr (s : string)
| ATuple (l : list Arg).
#[local] Set Elimination Schemes.

(** A call [self.canvas.method(args, options)]. *)
Record CanvasCall := mkCall {
  method : string;
  args : list Arg;
  options : list (string * Arg)
}.

Inductive Exception := ZeroDivisionError | OverflowError | ValueError.

(** What a piece of the drawing code does: the calls it makes, then the
    value it computes or the exception that ends it. *)
Record Draw (A : Type) := mkDraw {
  calls : list CanvasCall;
  outcome : Exception + A
}.
Arguments mkDraw {A} calls outcome.
Arguments calls {A} d.
Arguments outcome {A} d.

#[export] Instance Draw_ret : MRet Draw := fun A a => mkDraw [] (inr a).

#[export] Instance Draw_bind : MBind Draw := fun A B f m =>
  match outcome m with
  | inl e => mkDraw (calls m) (inl e)
  | inr a => mkDraw (calls m ++ calls (f a)) (outcome (f a))
  end.

Definition raise {A} (e : Exception) : Draw A := mkDraw [] (inl e).

Definition call (m : string) (a : list Arg) (o : list (string * Arg))
    : Draw unit :=
  mkDraw [mkCall m a o] (inr tt).

(** A [for] loop whose body draws. *)
Fixpoint for_each {A} (body : A -> Draw unit) (l : list A) : Draw unit :=
  match l with
  | [] => mret tt
  | a :: rest => body a;; for_each body rest
  end.

(** The least positive integer that has no [float]: it rounds to 2^1024. *)
Definition float_limit : Z := 2 ^ 1024 - 2 ^ 970.

(** An integer in the range of a double. *)
Definition fits_float (z : Z) : Prop := Z.abs z < float_limit.

#[export] Instance fits_float_dec z : Decision (fits_float z).
Proof. unfold fits_float. apply _. Defined.

(** The conversion of an [int] operand of a [float] operation. *)
Definition float_of_int (z : Z) : Draw float :=
  if decide (fits_float z) then mret (float_of_Z z)
  else raise OverflowError.

Definition to_float (n : Num) : Draw float :=
  match n with
  | NInt z => float_of_int z
  | NFloat f => mret f
  end.

(** [a + b], [a - b] and [a * b]: on two [int]s the operation of [int],
    otherwise that of [float] after conversion. *)
Definition num_add (a b : Num) : Draw Num :=
  match a, b with
  | NInt x, NInt y => mret (NInt (x + y))
  | _, _ => x ← to_float a; y ← to_float b; mret (NFloat (x + y))
  end.

Definition num_sub (a b : Num) : Draw Num :=
  match a, b with
  | NInt x, NInt y => mret (NInt (x - y))
  | _, _ => x ← to_float a; y ← to_float b; mret (NFloat (x - y))
  end.

Definition num_mul (a b : Num) : Draw Num :=
  match a, b with
  | NInt x, NInt y => mret (NInt (x * y))
  | _, _ => x ← to_float a; y ← to_float b; mret (NFloat (x * y))
  end.

(** [a < k] and [k < a] for the integer literals [k] of the code, 0 and 1,
    which are floats exactly. *)
Definition num_ltb (a b : Num) : bool :=
  match a, b with
  | NInt x, NInt y => bool_decide (x < y)
  | NInt x, NFloat g => PrimFloat.ltb (float_of_Z x) g
  | NFloat f, NInt y => PrimFloat.ltb f (float_of_Z y)
  | NFloat f, NFloat g => PrimFloat.ltb f g
  end.

Definition aint (z : Z) : Arg := ANum (NInt z).

(** [font=("Arial", size)] and [font=("Arial", size, "bold")]. *)
Definition font (size : Z) (bold : bool) : string * Arg :=
  ("font",
   ATuple ([AStr "Arial"; aint size] ++ if bold then [AStr "bold"] else [])).

(** [x = start_x + i * (box_width + gap)]. *)
Definition box_x (i : Z) : Z := 20 + i * (30 + 5).

(** [box_width/2], a [float]. *)
Definition half_box : Num := NFloat 15%float.

(** The colour of box [i] of the sender row. *)
Definition sender_color (sd : Sender) (i : Z) : string :=
  if decide (i < base sd) then "#90ee90"
  else if decide (base sd <= i /\ i < next_seq sd) then "#ffffe0"
  else "lightgray".

(** The colour of box [i] of the receiver row. *)
Definition receiver_color (rc : Receiver) (i : Z) : string :=
  if decide (i < expected_seq rc) then "#90ee90"
  else if decide (i = expected_seq rc) then "#add8e6"
  else "lightgray".

(** [end_seq] of the window border. *)
Definition window_end_seq (sd : Sender) : Z :=
  let end_seq := base sd + window_size sd in
  if decide (total_packets sd < end_seq) then total_packets sd else end_seq.

(** The body of the first loop [for i in range(total)]. *)
Definition draw_sender_box (sd : Sender) (i : Z) : Draw unit :=
  let x := box_x i in
  call "create_rectangle" [aint x; aint 50; aint (x + 30); aint (50 + 30)]
       [("fill", AStr (sender_color sd i)); ("outline", AStr "black")];;
  cx ← num_add (NInt x) half_box;
  cy ← num_add (NInt 50) half_box;
  call "create_text" [ANum cx; ANum cy] [("text", AStr (pretty i))].

(** The window border, or the completion notice. *)
Definition draw_window (is_finishing : bool) (sd : Sender) : Draw unit :=
  if decide (base sd < total_packets sd) then
    let win_start_x := box_x (base sd) in
    let win_end_x := box_x (window_end_seq sd) - 5 in
    call "create_rectangle"
         [aint (win_start_x - 3); aint (50 - 3); aint (win_end_x + 3);
          aint (50 + 30 + 3)]
         [("outline", AStr "red"); ("width", aint 2)];;
    call "create_text" [aint win_start_x; aint (50 - 15)]
         [("text", AStr ("Window Base=" +:+ pretty (base sd)));
          ("anchor", AStr "w"); ("fill", AStr "red"); font 8 false]
  else if is_finishing || bool_decide (base sd = total_packets sd) then
    call "create_text" [aint 20; aint (50 - 15)]
         [("text", AStr "TRANSMISSION COMPLETE"); ("anchor", AStr "w");
          ("fill", AStr "green"); font 10 true]
  else mret tt.

(** Part 1 of [draw_visualization]: the row of the sender. *)
Definition draw_sender_row (s : GbnSimulator float) : Draw unit :=
  let sd := sender s in
  call "create_text" [aint 20; aint (50 - 30)]
       [("text", AStr "SENDER"); font 11 true; ("anchor", AStr "w");
        ("fill", AStr "black")];;
  call "create_line" [aint 10; aint (50 + 40); aint 1000; aint (50 + 40)]
       [("dash", ATuple [aint 4; aint 4]); ("fill", AStr "gray")];;
  for_each (draw_sender_box sd) (seqZ 0 (total_packets sd));;
  draw_window (is_finishing s) sd.

(** How far a packet has travelled, from 0 to 1.  The division converts
    [delay], and raises when it is 0. *)
Definition packet_progress (current_time : Z) (fraction send_time : float)
    (delay : Z) : Draw Num :=
  t ← float_of_int current_time;
  let now := (t + fraction)%float in
  let time_passed := (now - send_time)%float in
  d ← float_of_int delay;
  progress ← (if decide (delay = 0) then raise ZeroDivisionError
              else mret (NFloat (time_passed / d)));
  let progress := if num_ltb progress (NInt 0) then NInt 0 else progress in
  let progress := if num_ltb (NInt 1) progress then NInt 1 else progress in
  mret progress.

(** The body of the loop over [packet_queue]. *)
Definition draw_packet (current_time : Z) (fraction : float) (delay : Z)
    (item : Item float) : Draw unit :=
  progress ← packet_progress current_time fraction (send_time item) delay;
  let start_y_vis := 50 + 30 + 10 in
  let end_y_vis := 300 - 10 in
  let travel_distance := end_y_vis - start_y_vis in
  let pkt_x := box_x (seq_num (pkt item)) in
  match type (pkt item) with
  | DATA =>
      travelled ← num_mul (NInt travel_distance) progress;
      current_y ← num_add (NInt start_y_vis) travelled;
      bottom ← num_add current_y (NInt 20);
      call "create_rectangle"
           [aint pkt_x; ANum current_y; aint (pkt_x + 30); ANum bottom]
           [("fill", AStr "orange"); ("outline", AStr "black")];;
      middle ← num_add current_y (NInt 10);
      call "create_text" [aint (pkt_x + 15); ANum middle]
           [("text", AStr ("D" +:+ pretty (seq_num (pkt item))));
            font 8 true]
  | ACK =>
      travelled ← num_mul (NInt travel_distance) progress;
      current_y ← num_sub (NInt end_y_vis) travelled;
      bottom ← num_add current_y (NInt 20);
      call "create_oval"
           [aint (pkt_x + 5); ANum current_y; aint (pkt_x + 25); ANum bottom]
           [("fill", AStr "#90ee90"); ("outline", AStr "black")];;
      middle ← num_add current_y (NInt 10);
      call "create_text" [aint (pkt_x + 15); ANum middle]
           [("text", AStr ("A" +:+ pretty (seq_num (pkt item))));
            font 8 true]
  end.

(** Part 2: the packets in flight. *)
Definition draw_in_flight (s : GbnSimulator float) (fraction : float)
    : Draw unit :=
  for_each (draw_packet (current_time s) fraction (delay (channel s)))
           (packet_queue (channel s)).

(** The body of the last loop [for i in range(total)]. *)
Definition draw_receiver_box (rc : Receiver) (i : Z) : Draw unit :=
  let x := box_x i in
  call "create_rectangle" [aint x; aint 300; aint (x + 30); aint (300 + 30)]
       [("fill", AStr (receiver_color rc i)); ("outline", AStr "black")];;
  cx ← num_add (NInt x) half_box;
  cy ← num_add (NInt 300) half_box;
  call "create_text" [ANum cx; ANum cy] [("text", AStr (pretty i))];;
  if decide (i = expected_seq rc) then
    call "create_rectangle"
         [aint (x - 2); aint (300 - 2); aint (x + 30 + 2); aint (300 + 30 + 2)]
         [("outline", AStr "blue"); ("width", aint 2)];;
    call "create_text" [aint x; aint (300 + 30 + 12)]
         [("text", AStr "Wait"); ("anchor", AStr "w"); ("fill", AStr "blue");
          font 8 false]
  else mret tt.

(** Part 3: the row of the receiver. *)
Definition draw_receiver_row (s : GbnSimulator float) : Draw unit :=
  call "create_text" [aint 20; aint (300 - 30)]
       [("text", AStr "RECEIVER"); font 11 true; ("anchor", AStr "w");
        ("fill", AStr "black")];;
  call "create_line" [aint 10; aint (300 - 20); aint 1000; aint (300 - 20)]
       [("dash", ATuple [aint 4; aint 4]); ("fill", AStr "gray")];;
  for_each (draw_receiver_box (receiver s))
           (seqZ 0 (total_packets (sender s))).

(** [GbnSimulator.draw_visualization(fraction)]. *)
Definition draw_visualization (s : GbnSimulator float) (fraction : float)
    : Draw unit :=
  call "delete" [AStr "all"] [];;
  draw_sender_row s;;
  draw_in_flight s fraction;;
  draw_receiver_row s.

(** [GbnSimulator.animate_loop], [elapsed] seconds of wall-clock time after
    the last tick began.  Its value tells whether [root.after] has armed
    the next frame. *)
Definition animate_loop (s : GbnSimulator float) (elapsed : float)
    : Draw bool :=
  if negb (running s) then mret false
  else
    let elapsed := if PrimFloat.ltb 1 elapsed then 1%float else elapsed in
    draw_visualization s elapsed;;
    mret true.

(** A configuration with propagation delay 0: two packets, window 2,
    timeout 3, no loss. *)
Definition zero_delay_config : Config := mkConfig 2 2 3 0 [] [].

(** ** The entry fields *)

(** The text of an entry field is a [string]: here a sequence of
    characters with code points below 256, which is where Rocq's
    characters and Python's agree.  What follows is what Python's [str]
    methods and [int] do on such text. *)

(** [c.isspace()]: the characters [str.strip()] removes. *)
Definition isspace (c : ascii) : bool :=
  let n := N_of_ascii c in
  ((9 <=? n) && (n <=? 13) || (28 <=? n) && (n <=? 31) || (n =? 32)
   || (n =? 133) || (n =? 160))%N.

(** The white space [int] accepts around a number: the same without the
    four separators 28 to 31. *)
Definition int_space (c : ascii) : bool :=
  let n := N_of_ascii c in
  ((9 <=? n) && (n <=? 13) || (n =? 32) || (n =? 133) || (n =? 160))%N.

(** The value [int] gives to a character: the decimal digits have one. *)
Definition decimal (c : ascii) : option Z :=
  let n := N_of_ascii c in
  if ((48 <=? n) && (n <=? 57))%N then Some (Z.of_N n - 48) else None.

(** [c.isdigit()]: the decimal digits and the superscripts two, three and
    one (178, 179 and 185). *)
Definition isdigit_char (c : ascii) : bool :=
  let n := N_of_ascii c in
  ((48 <=? n) && (n <=? 57) || (n =? 178) || (n =? 179) || (n =? 185))%N.

Fixpoint all_chars (f : ascii -> bool) (s : string) : bool :=
  match s with
  | "" => true
  | String c rest => f c && all_chars f rest
  end.

(** [s.isdigit()]: some character, and digits only. *)
Definition isdigit (s : string) : bool :=
  match s with
  | "" => false
  | _ => all_chars isdigit_char s
  end.

(** [s.lstrip()], [s.rstrip()] and [s.strip()]. *)
Fixpoint lstrip (s : string) : string :=
  match s with
  | "" => ""
  | String c rest => if isspace c then lstrip rest else s
  end.

Fixpoint rstrip (s : string) : string :=
  match s with
  | "" => ""
  | String c rest =>
      match rstrip rest with
      | "" => if isspace c then "" else String c ""
      | kept => String c kept
      end
  end.

Definition strip (s : string) : string := rstrip (lstrip s).

(** [s.split(sep)] for a separator of one character: the first field and
    the fields after it. *)
Fixpoint split_at (sep : ascii) (s : string) : string * list string :=
  match s with
  | "" => ("", [])
  | String c rest =>
      let '(field, fields) := split_at sep rest in
      if decide (c = sep) then ("", field :: fields)
      else (String c field, fields)
  end.

Definition split (sep : ascii) (s : string) : list string :=
  let '(field, fields) := split_at sep s in field :: fields.

(** [int(s)], in base 10; [None] is [ValueError].  White space, a sign,
    then digits, with single underscores between digits, then white
    space; and no more than 4300 digits. *)
Fixpoint skip_space (s : string) : string :=
  match s with
  | "" => ""
  | String c rest => if int_space c then skip_space rest else s
  end.

(** The digits read from [s], after [count] digits of value [value]: the
    value and the number of the digits, and what follows them. *)
Fixpoint digits (s : string) (value count : Z) : Z * Z * string :=
  match s with
  | "" => (value, count, "")
  | String c rest =>
      match decimal c with
      | Some d => digits rest (10 * value + d) (count + 1)
      | None =>
          if decide (c = "_"%char) then
            match rest with
            | String c' rest' =>
                match decimal c' with
                | Some d => digits rest' (10 * value + d) (count + 1)
                | None => (value, count, s)
                end
            | "" => (value, count, s)
            end
          else (value, count, s)
      end
  end.

(** The default limit of [int] on the number of digits (Python 3.11). *)
Definition int_max_str_digits : Z := 4300.

Definition py_int (s : string) : option Z :=
  let s1 := skip_space s in
  let '(sign, s2) :=
    match s1 with
    | String c rest =>
        if decide (c = "+"%char) then (1, rest)
        else if decide (c = "-"%char) then (-1, rest)
        else (1, s1)
    | "" => (1, s1)
    end in
  match s2 with
  | "" => None
  | String c _ =>
      if decimal c is Some _ then
        let '(value, count, s3) := digits s2 0 0 in
        if decide (skip_space s3 = "" /\ count <= int_max_str_digits)
        then Some (sign * value) else None
      else None
  end.

(** The comprehension of [Channel.__init__]:
    [[int(x) for x in text.split(',') if x.strip().isdigit()]]. *)
Definition parse_loss (text : string) : option (list Z) :=
  mapM py_int
    (List.filter (fun x => isdigit (strip x)) (split "," text)).

(** ** The START button *)

(** The six entry fields, as [start_sim] reads them. *)
Record Fields := mkFields {
  e_packets : string;
  e_window : string;
  e_timeout : string;
  e_loss_data : string;
  e_loss_ack : string;
  e_delay : string
}.

(** The object [GbnSimulator] with the fields [start_sim] writes:
    [sender], [receiver] and [channel] are [None] until a run starts, and
    [log_area] holds the lines of the log with their tags. *)
Record Gui {T : Type} := mkGui {
  gui_running : bool;
  gui_is_finishing : bool;
  gui_current_time : Z;
  gui_parts : option (Sender * Receiver * Channel T);
  log_area : list (Tag * string)
}.
Arguments Gui : clear implicits.
Arguments mkGui {T} _ _ _ _ _.

(** The object [__init__] builds. *)
Definition initial_gui {T} : Gui T := mkGui false false 0 None [].

(** A simulator of the engine, as this object. *)
Definition gui_of {T} (s : GbnSimulator T) : Gui T :=
  mkGui (running s) (is_finishing s) (current_time s)
        (Some (sender s, receiver s, channel s))
        (map (fun e => (log_tag e, log_text e)) (log s)).

(** [GbnSimulator.start_sim] on this object: the object it leaves, and the
    [ValueError] of [Channel.__init__], which is raised outside the [try]
    block. *)
Definition start_sim_gui {T} (g : Gui T) (f : Fields)
    : Gui T * option Exception :=
  if gui_running g then (g, None)
  else
    let g1 := mkGui (gui_running g) false 0 (gui_parts g) [] in
    match py_int (e_packets f), py_int (e_window f), py_int (e_timeout f),
          py_int (e_delay f) with
    | Some total, Some win, Some timeout, Some delay =>
        match parse_loss (e_loss_data f) with
        | None => (g1, Some ValueError)
        | Some data_drops =>
            match parse_loss (e_loss_ack f) with
            | None => (g1, Some ValueError)
            | Some ack_drops =>
                (gui_of (start_sim
                           (mkConfig total win timeout delay data_drops
                                     ack_drops)),
                 None)
            end
        end
    | _, _, _, _ =>
        (mkGui (gui_running g) false 0 (gui_parts g)
               [(T_LOSS, "[00s] Error: Please enter valid integers.")],
         None)
    end.

(** An integer of at most 4300 digits. *)
Definition typable (z : Z) : Prop := Z.abs z < 10 ^ 4300.

(** The fields that spell a configuration: the numbers in decimal, the
    loss lists with a comma and a space between two numbers. *)
Definition fields_of (c : Config) : Fields :=
  mkFields (pretty (cfg_total c)) (pretty (cfg_win c))
           (pretty (cfg_timeout c))
           (String.concat ", " (map pretty (cfg_data_drops c)))
           (String.concat ", " (map pretty (cfg_ack_drops c)))
           (pretty (cfg_delay c)).

(** The characters that pass the filter [x.strip().isdigit()] and that
    [int] refuses: the white space [int] does not skip, and the digits
    without a decimal value. *)
Definition int_refuses (c : ascii) : bool :=
  isspace c && negb (int_space c)
  || isdigit_char c && negb (bool_decide (is_Some (decimal c))).

(** ** The runs the engine stands for *)

(** [Channel.send_to_network] with the exceptions of its arithmetic.
    [current_time] is the clock, an [int], or an arrival time, a [float];
    [current_time + offset] and [send_time_float + self.delay] convert
    their [int] operand, after the loss list was consulted.  The method
    calls nothing on the canvas. *)
Definition send_to_network_raising (ch : Channel float) (packet : Packet)
    (destination : Destination) (current_time : Num) (offset : float)
    : Draw (Channel float * Status) :=
  let '(drop, ch1) :=
    match type packet with
    | DATA =>
        if decide (seq_num packet ∈ loss_data ch)
        then (true, mkChannel (remove_first (seq_num packet) (loss_data ch))
                              (loss_ack ch) (delay ch) (packet_queue ch))
        else (false, ch)
    | ACK =>
        if decide (seq_num packet ∈ loss_ack ch)
        then (true, mkChannel (loss_data ch)
                              (remove_first (seq_num packet) (loss_ack ch))
                              (delay ch) (packet_queue ch))
        else (false, ch)
    end in
  if drop then mret (ch1, DROP)
  else
    send_time_float ← num_add current_time (NFloat offset) ≫= to_float;
    arrival_time_float ←
      num_add (NFloat send_time_float) (NInt (delay ch1)) ≫= to_float;
    mret (mkChannel (loss_data ch1) (loss_ack ch1) (delay ch1)
            (packet_queue ch1 ++
               [mkItem arrival_time_float packet destination send_time_float]),
          SENT).

(** The time stamp the engine passes to [send_to_network] for a
    [current_time] of the program. *)
Definition time_stamp (current_time : Num) : float :=
  match current_time with
  | NInt z => float_of_Z z
  | NFloat f => f
  end.

(** The delay of the channel and the [current_time] of an offer can be
    added as floats. *)
Definition convertible (ch : Channel float) (current_time : Num) : Prop :=
  fits_float (delay ch)
  /\ match current_time with
     | NInt z => fits_float z
     | NFloat _ => True
     end.

(** A run of the configuration [c] up to the tick of time [now] in which
    Python raises none of its arithmetic exceptions: the delay has a
    [float], so that [send_time_float + self.delay] is defined; the clock
    has a [float] that is the clock itself, so that [current_time + offset]
    is defined and [current_time >= arrival_time] is the comparison of
    floats; and every number a tick prints has fewer than 4300 digits:
    the clock, the sequence numbers, which are below the number of
    packets, and the counters, which are at most the product of the two.
    (2^53 ticks of one second are 285 million years.) *)
Definition in_range (c : Config) (now : Z) : Prop :=
  fits_float (cfg_delay c) /\ cfg_total c <= 2 ^ 53 /\ now <= 2 ^ 53.

(** The same for one state, whatever run it is in: the delay, the clock,
    and the sequence numbers from [next_seq] to [total_packets], which
    are those the loop that sends new packets can print. *)
Definition state_in_range {T} (s : GbnSimulator T) : Prop :=
  fits_float (delay (channel s))
  /\ 0 <= current_time s <= 2 ^ 53
  /\ typable (next_seq (sender s))
  /\ typable (total_packets (sender s)).



(** * Properties of the engine *)

Section Preservation.

Context {T : Type} `{Clock T}.
Implicit Types (s : GbnSimulator T) (ch : Channel T) (it : Item T).

(** *** The channel *)

Lemma send_to_network_cases ch p d t o :
  (send_to_network ch p d t o =
     (mkChannel (loss_data ch) (loss_ack ch) (delay ch)
        (packet_queue ch ++
           [mkItem (tadd (tadd t o) (of_int (delay ch))) p d (tadd t o)]),
      SENT))
  \/ (exists ld la,
        send_to_network ch p d t o =
          (mkChannel ld la (delay ch) (packet_queue ch), DROP)).
Proof.
  unfold send_to_network.
  destruct (type p); case_decide; simpl; eauto.
Qed.

Lemma send_to_network_queue_ok ns es ch p d t o :
  Forall (item_ok ns es) (packet_queue ch) ->
  item_ok ns es (mkItem (tadd (tadd t o) (of_int (delay ch))) p d (tadd t o)) ->
  Forall (item_ok ns es) (packet_queue (send_to_network ch p d t o).1).
Proof.
  intros Hq Hi.
  destruct (send_to_network_cases ch p d t o) as [-> | (ld & la & ->)]; simpl.
  - apply Forall_app; split; [exact Hq | by constructor].
  - exact Hq.
Qed.

Lemma item_ok_mono ns es ns' es' it :
  ns <= ns' -> es <= es' -> item_ok ns es it -> item_ok ns' es' it.
Proof.
  unfold item_ok. destruct (dest it), (type (pkt it)); lia.
Qed.

Lemma partition_fst_filter {A} (f : A -> bool) (l : list A) :
  (List.partition f l).1 = List.filter f l.
Proof.
  induction l as [|a l IH]; simpl; [done|].
  destruct (List.partition f l) as [g d]; simpl in *.
  destruct (f a); simpl; by rewrite IH.
Qed.

Lemma partition_snd_filter {A} (f : A -> bool) (l : list A) :
  (List.partition f l).2 = List.filter (fun x => negb (f x)) l.
Proof.
  induction l as [|a l IH]; simpl; [done|].
  destruct (List.partition f l) as [g d]; simpl in *.
  destruct (f a); simpl; by rewrite IH.
Qed.

Lemma Forall_list_filter {A} (P : A -> Prop) (f : A -> bool) (l : list A) :
  Forall P l -> Forall P (List.filter f l).
Proof.
  induction 1 as [|a l Ha Hl IH]; simpl; [constructor|].
  destruct (f a); [by constructor | done].
Qed.

Lemma get_delivered_packets_spec ch now :
  get_delivered_packets ch now =
    (List.filter (fun it => tleb (arrival_time it) (of_int now))
                 (packet_queue ch),
     mkChannel (loss_data ch) (loss_ack ch) (delay ch)
       (List.filter (fun it => negb (tleb (arrival_time it) (of_int now)))
                    (packet_queue ch))).
Proof.
  unfold get_delivered_packets.
  rewrite <- partition_fst_filter, <- partition_snd_filter.
  by destruct (List.partition _ _).
Qed.

(** *** Arrivals *)

Lemma receive_data_inv c s it :
  Inv c s ->
  dest it = ToReceiver -> type (pkt it) = DATA ->
  item_ok (next_seq (sender s)) (expected_seq (receiver s)) it ->
  Inv c (receive_data s it).
Proof.
  intros [] Hd Ht Hok. unfold item_ok in Hok. rewrite Hd, Ht in Hok.
  unfold receive_data.
  case_decide as Heq.
  - (* in order *)
    match goal with
    | |- context [send_to_network ?ch ?p ?d ?t ?o] =>
        pose proof (send_to_network_queue_ok (next_seq (sender s))
                      (expected_seq (receiver s) + 1) ch p d t o) as Hq;
        destruct (send_to_network ch p d t o) as [ch' [|]] eqn:Hsend
    end;
    simpl in Hq;
    (constructor; simpl; try done; try lia;
     [apply Hq;
      [eapply Forall_impl; [eassumption|];
       intros x Hx; eapply item_ok_mono; [| |exact Hx]; lia
      |unfold item_ok; simpl; lia]]).
  - case_decide as Hlt.
    + constructor; simpl; done.
    + case_decide as Hpos; [|constructor; simpl; done].
      case_decide as Hlast; [constructor; simpl; done|].
      lia.
Qed.

Lemma receive_ack_inv c s it :
  Inv c s ->
  dest it = ToSender -> type (pkt it) = ACK ->
  item_ok (next_seq (sender s)) (expected_seq (receiver s)) it ->
  Inv c (receive_ack s it).
Proof.
  intros [] Hd Ht Hok. unfold item_ok in Hok. rewrite Hd, Ht in Hok.
  unfold receive_ack; simpl.
  case_decide as Hge; [|constructor; simpl; done].
  constructor; simpl; try done; try lia.
  case_decide; lia.
Qed.

Lemma handle_arrival_inv c s it :
  Inv c s ->
  item_ok (next_seq (sender s)) (expected_seq (receiver s)) it ->
  Inv c (handle_arrival s it).
Proof.
  intros HI Hok. unfold handle_arrival.
  destruct (dest it) eqn:Hd, (type (pkt it)) eqn:Ht;
    auto using receive_data_inv, receive_ack_inv.
Qed.

(** The receiver's counters never go back and the sender originates
    nothing while arrivals are handled. *)
Lemma handle_arrival_mono s it :
  next_seq (sender (handle_arrival s it)) = next_seq (sender s)
  /\ expected_seq (receiver s) <= expected_seq (receiver (handle_arrival s it)).
Proof.
  unfold handle_arrival, receive_data, receive_ack.
  destruct (dest it), (type (pkt it)); simpl; try (split; [done | lia]).
  - repeat case_decide; simpl;
      try destruct (send_to_network _ _ _ _ _) as [? [|]];
      simpl; split; try done; lia.
  - case_decide; simpl; split; try done; lia.
Qed.

Lemma fold_handle_arrival_inv c arrivals s :
  Inv c s ->
  Forall (item_ok (next_seq (sender s)) (expected_seq (receiver s))) arrivals ->
  Inv c (fold_left handle_arrival arrivals s).
Proof.
  revert s. induction arrivals as [|it l IH]; intros s HI Hall; simpl; [done|].
  inversion Hall as [|? ? Hit Hl]; subst.
  apply IH; [by apply handle_arrival_inv|].
  destruct (handle_arrival_mono s it) as [-> Hle].
  eapply Forall_impl; [exact Hl|].
  intros x Hx. eapply item_ok_mono; [| |exact Hx]; lia.
Qed.

Lemma process_channel_only_inv c s :
  Inv c s -> Inv c (process_channel_only s).
Proof.
  intros HI. unfold process_channel_only.
  rewrite get_delivered_packets_spec.
  apply fold_handle_arrival_inv.
  - destruct HI. constructor; simpl; try done.
    by apply Forall_list_filter.
  - simpl. apply Forall_list_filter. by destruct HI.
Qed.

(** *** The send loops *)

(** With every sequence number to visit in the buffer, the retransmission
    loop raises no [KeyError] and keeps the invariant. *)
Lemma retransmit_loop_inv c seqs off s :
  Inv c s ->
  Forall (fun k => 0 <= k < next_seq (sender s)) seqs ->
  exists s', retransmit_loop seqs off s = Some s' /\ Inv c s'
             /\ next_seq (sender s') = next_seq (sender s).
Proof.
  revert off s. induction seqs as [|k rest IH]; intros off s HI Hall; simpl.
  - eauto.
  - inversion Hall as [|? ? Hk Hrest]; subst.
    pose proof (inv_buffer c s HI k) as Hb.
    rewrite decide_True in Hb by done. rewrite Hb.
    match goal with
    | |- context [send_to_network ?ch ?p ?d ?t ?o] =>
        pose proof (send_to_network_queue_ok (next_seq (sender s))
                      (expected_seq (receiver s)) ch p d t o) as Hq;
        destruct (send_to_network ch p d t o) as [ch' st] eqn:Hsend
    end.
    simpl in Hq.
    match goal with
    | |- exists s', retransmit_loop rest ?o ?s1 = _ /\ _ =>
        destruct (IH o s1) as (s' & Hrun & HI' & Hns)
    end.
    + destruct HI. destruct st; constructor; simpl; try done;
        apply Hq; try done; unfold item_ok; simpl; lia.
    + destruct st; simpl; exact Hrest.
    + exists s'. split; [exact Hrun|]. split; [exact HI'|].
      rewrite Hns. by destruct st.
Qed.

Lemma on_timeout_inv c s :
  Inv c s -> base (sender s) <> next_seq (sender s) ->
  exists s', on_timeout s = Some s' /\ Inv c s'.
Proof.
  intros HI Hne. unfold on_timeout.
  match goal with
  | |- exists s', retransmit_loop ?l ?o ?s1 = _ /\ _ =>
      destruct (retransmit_loop_inv c l o s1) as (s' & Hrun & HI' & _)
  end.
  - destruct HI. constructor; simpl; try done. lia.
  - simpl. apply Forall_forall. intros k Hk.
    apply elem_of_seqZ in Hk. destruct HI. lia.
  - eauto.
Qed.

Lemma can_send_true sd :
  can_send sd = true <->
  next_seq sd < base sd + window_size sd /\ next_seq sd < total_packets sd.
Proof.
  unfold can_send. rewrite andb_true_iff, !bool_decide_eq_true. done.
Qed.

Lemma send_new_inv c off s :
  Inv c s -> can_send (sender s) = true -> Inv c (send_new off s).
Proof.
  intros HI Hcan. apply can_send_true in Hcan. destruct Hcan as [Hw Ht].
  unfold send_new.
  match goal with
  | |- context [send_to_network ?ch ?p ?d ?t ?o] =>
      pose proof (send_to_network_queue_ok (next_seq (sender s) + 1)
                    (expected_seq (receiver s)) ch p d t o) as Hq;
      destruct (send_to_network ch p d t o) as [ch' st] eqn:Hsend
  end.
  simpl in Hq.
  assert (Hq' : Forall (item_ok (next_seq (sender s) + 1)
                          (expected_seq (receiver s))) (packet_queue ch')).
  { apply Hq; [|unfold item_ok; simpl; destruct HI; lia].
    eapply Forall_impl; [apply (inv_queue c s HI)|].
    intros x Hx. eapply item_ok_mono; [| |exact Hx]; lia. }
  destruct HI.
  destruct st; constructor; simpl; try done; try lia;
    try (case_decide; lia);
    (intros k; destruct (decide (next_seq (sender s) = k)) as [<-|Hne];
     [rewrite lookup_insert_eq, decide_True by lia; done
     |rewrite lookup_insert_ne by done; rewrite inv_buffer0;
      repeat case_decide; try done; lia]).
Qed.

Lemma fill_loop_inv c fuel off s :
  Inv c s -> Inv c (fill_loop fuel off s).
Proof.
  revert off s. induction fuel as [|fuel IH]; intros off s HI; simpl; [done|].
  destruct (can_send (sender s)) eqn:Hcan; [|done].
  apply IH. by apply send_new_inv.
Qed.

Lemma fill_window_inv c s : Inv c s -> Inv c (fill_window s).
Proof. apply fill_loop_inv. Qed.

(** *** Ticks and runs *)

Lemma advance_clock_inv c s : Inv c s -> Inv c (advance_clock s).
Proof. intros []. constructor; simpl; try done; lia. Qed.

Lemma add_log_inv c s tag m : Inv c s -> Inv c (add_log s tag m).
Proof. intros []. constructor; simpl; done. Qed.

(** A tick from a state of the invariant raises no [KeyError] and ends in
    a state of the invariant. *)
Lemma simulation_tick_inv c s :
  Inv c s -> exists s', simulation_tick s = Some s' /\ Inv c s'.
Proof.
  intros HI. unfold simulation_tick.
  destruct (running s); simpl; [|eauto].
  case_decide as Hdone.
  - eexists; split; [done|].
    apply advance_clock_inv, process_channel_only_inv.
    destruct (is_finishing s); simpl; [done|].
    destruct HI. constructor; simpl; done.
  - destruct (check_timer (sender s) (current_time s)) eqn:Hct.
    + destruct (on_timeout_inv c s HI) as (s1 & -> & HI1).
      { unfold check_timer in Hct. by case_decide. }
      simpl. eexists; split; [done|].
      by apply advance_clock_inv, process_channel_only_inv, fill_window_inv.
    + simpl. eexists; split; [done|].
      by apply advance_clock_inv, process_channel_only_inv, fill_window_inv.
Qed.

Lemma stop_sim_inv c s : Inv c s -> Inv c (stop_sim s).
Proof. intros []. constructor; simpl; done. Qed.

Lemma start_sim_inv c : valid_config c -> Inv c (start_sim (T:=T) c).
Proof.
  intros (Ht & Hw & _). constructor; simpl; try done; try lia.
  intros k. rewrite lookup_empty. case_decide; [lia | done].
Qed.

Lemma step_inv c s s' : Inv c s -> step s s' -> Inv c s'.
Proof.
  intros HI Hstep. destruct Hstep as [s0 s1 Htick | s0].
  - destruct (simulation_tick_inv c s0 HI) as (s2 & Heq & HI2). congruence.
  - by apply stop_sim_inv.
Qed.

Lemma reachable_inv c s : valid_config c -> reachable c s -> Inv c s.
Proof.
  intros Hc. induction 1 as [|s s' _ IH Hstep];
    [by apply start_sim_inv | by eapply step_inv].
Qed.

End Preservation.

(** ** The receiver's counters *)

Section ReceiverCounters.

Context {T : Type} `{Clock T}.
Implicit Types (s : GbnSimulator T) (it : Item T).

Lemma retransmit_loop_receiver seqs off s s' :
  retransmit_loop seqs off s = Some s' -> receiver s' = receiver s.
Proof.
  revert off s. induction seqs as [|k rest IH]; intros off s; simpl.
  - by intros [= <-].
  - destruct (buffer (sender s) !! k) as [p|]; [|done].
    destruct (send_to_network _ _ _ _ _) as [ch [|]]; intros Hrun;
      apply IH in Hrun; exact Hrun.
Qed.

Lemma on_timeout_receiver s s' :
  on_timeout s = Some s' -> receiver s' = receiver s.
Proof. unfold on_timeout. intros Hrun. by apply retransmit_loop_receiver in Hrun. Qed.

Lemma send_new_receiver off s : receiver (send_new off s) = receiver s.
Proof.
  unfold send_new. by destruct (send_to_network _ _ _ _ _) as [ch [|]].
Qed.

Lemma fill_loop_receiver fuel off s :
  receiver (fill_loop fuel off s) = receiver s.
Proof.
  revert off s. induction fuel as [|fuel IH]; intros off s; simpl; [done|].
  destruct (can_send (sender s)); [|done].
  by rewrite IH, send_new_receiver.
Qed.

(** What one arrival does to [expected_seq] and [delivered_count]: both
    move by one for a DATA packet in order, neither moves otherwise. *)
Lemma handle_arrival_counters s it :
  let rc := receiver s in
  let rc' := receiver (handle_arrival s it) in
  if decide (dest it = ToReceiver /\ type (pkt it) = DATA
             /\ seq_num (pkt it) = expected_seq rc)
  then expected_seq rc' = expected_seq rc + 1
       /\ delivered_count rc' = delivered_count rc + 1
  else expected_seq rc' = expected_seq rc
       /\ delivered_count rc' = delivered_count rc.
Proof.
  unfold handle_arrival, receive_data, receive_ack. simpl.
  destruct (dest it), (type (pkt it)); simpl;
    repeat case_decide; simpl;
    try destruct (send_to_network _ _ _ _ _) as [? [|]]; simpl;
    try done; try tauto; try (exfalso; naive_solver).
Qed.

Lemma fold_handle_arrival_counters arrivals s :
  delivered_count (receiver s) = expected_seq (receiver s) ->
  delivered_count (receiver (fold_left handle_arrival arrivals s))
  = expected_seq (receiver (fold_left handle_arrival arrivals s)).
Proof.
  revert s. induction arrivals as [|it l IH]; intros s Heq; simpl; [done|].
  apply IH. pose proof (handle_arrival_counters s it) as Hc. simpl in Hc.
  case_decide; lia.
Qed.

Lemma process_channel_only_counters s :
  delivered_count (receiver s) = expected_seq (receiver s) ->
  delivered_count (receiver (process_channel_only s))
  = expected_seq (receiver (process_channel_only s)).
Proof.
  intros Heq. unfold process_channel_only.
  rewrite get_delivered_packets_spec.
  by apply fold_handle_arrival_counters.
Qed.

Lemma simulation_tick_counters s s' :
  simulation_tick s = Some s' ->
  delivered_count (receiver s) = expected_seq (receiver s) ->
  delivered_count (receiver s') = expected_seq (receiver s').
Proof.
  unfold simulation_tick. intros Htick Heq.
  destruct (running s); simpl in Htick; [|by injection Htick as <-].
  case_decide.
  - injection Htick as <-. simpl.
    apply process_channel_only_counters.
    by destruct (is_finishing s).
  - destruct (check_timer _ _).
    + destruct (on_timeout s) as [s1|] eqn:Hto; simpl in Htick; [|done].
      injection Htick as <-. simpl.
      apply process_channel_only_counters.
      unfold fill_window. rewrite fill_loop_receiver.
      by rewrite (on_timeout_receiver _ _ Hto).
    + simpl in Htick. injection Htick as <-. simpl.
      apply process_channel_only_counters.
      unfold fill_window. by rewrite fill_loop_receiver.
Qed.

Lemma reachable_counters c s :
  reachable c s -> delivered_count (receiver s) = expected_seq (receiver s).
Proof.
  induction 1 as [|s s' _ IH Hstep]; [done|].
  destruct Hstep as [s0 s1 Htick | s0]; [|done].
  by eapply simulation_tick_counters.
Qed.

(** A run of [n] ticks ends in a state of the run. *)
Lemma ticks_reachable c n s :
  ticks n (start_sim c) = Some s -> reachable c s.
Proof.
  revert s. induction n as [|n IH]; intros s; simpl.
  - intros [= <-]. constructor.
  - destruct (ticks n (start_sim c)) as [s0|]; simpl; [|done].
    intros Htick. eapply reach_step; [by apply IH | by constructor].
Qed.

End ReceiverCounters.

(** ** The two bursts in closed form *)

Section Bursts.

Context {T : Type} `{Clock T}.
Implicit Types (s : GbnSimulator T) (ch : Channel T).

Lemma offers_from_0 now first n :
  offers_from now first 0 n = burst_offers now first n.
Proof. reflexivity. Qed.

Lemma offers_from_S now first j n :
  offers_from now first j (S n) =
    OpSend (data_packet first) ToReceiver (of_int now) (burst j)
    :: offers_from now (first + 1) (S j) n.
Proof.
  unfold offers_from. simpl. f_equal.
  - by rewrite Z.add_0_r, Nat.add_0_r.
  - rewrite <- seq_shift, map_map. apply map_ext. intros i.
    replace (first + Z.of_nat (S i)) with (first + 1 + Z.of_nat i) by lia.
    by replace (j + S i)%nat with (S (j + i)) by lia.
Qed.

Lemma run_ops_app ch ops1 ops2 :
  run_ops ch (ops1 ++ ops2) =
    ((run_ops (run_ops ch ops1).1 ops2).1,
     (run_ops ch ops1).2 ++ (run_ops (run_ops ch ops1).1 ops2).2).
Proof.
  revert ch. induction ops1 as [|[p d t o|now] ops1 IH]; intros ch; simpl.
  - by destruct (run_ops ch ops2).
  - destruct (send_to_network ch p d t o) as [ch1 st].
    rewrite IH. by destruct (run_ops ch1 ops1).
  - apply IH.
Qed.

Lemma length_run_ops_sends ch ops :
  Forall (fun op => match op with OpSend _ _ _ _ => True | _ => False end) ops ->
  length (run_ops ch ops).2 = length ops.
Proof.
  revert ch. induction ops as [|[p d t o|now] ops IH]; intros ch Hall; simpl.
  - done.
  - inversion Hall; subst.
    destruct (send_to_network ch p d t o) as [ch1 st].
    specialize (IH ch1). destruct (run_ops ch1 ops); simpl in *. f_equal. auto.
  - inversion Hall; subst. done.
Qed.

(** The packets of a history are the packets offered, in order. *)
Lemma run_ops_offers_packets ch now first j n :
  map fst (run_ops ch (offers_from now first j n)).2
  = map data_packet (seqZ first (Z.of_nat n)).
Proof.
  revert ch first j. induction n as [|n IH]; intros ch first j.
  - done.
  - replace (Z.of_nat (S n)) with (Z.succ (Z.of_nat n)) by lia.
    rewrite seqZ_cons by lia. rewrite Z.pred_succ.
    rewrite offers_from_S. simpl.
    destruct (send_to_network _ _ _ _ _) as [ch1 st].
    specialize (IH ch1 (first + 1) (S j)).
    destruct (run_ops ch1 _) as [ch2 tr]; simpl in *.
    rewrite IH. by replace (Z.succ first) with (first + 1) by lia.
Qed.

(** The retransmission loop over [n] buffered packets from [first], begun
    with offset [burst j]: it offers exactly [offers_from], logs one line
    per offer and counts one duplicate per offer. *)
Lemma retransmit_loop_spec n : forall first j s,
  (forall i, (i < n)%nat ->
     buffer (sender s) !! (first + Z.of_nat i)
     = Some (data_packet (first + Z.of_nat i))) ->
  let h := run_ops (channel s)
             (offers_from (current_time s) first j n) in
  exists s',
    retransmit_loop (seqZ first (Z.of_nat n)) (burst j) s = Some s'
    /\ channel s' = h.1
    /\ log s' = log s ++ map (retransmit_line (current_time s)) h.2
    /\ sender s' =
         mkSender (window_size (sender s)) (total_packets (sender s))
           (timeout (sender s)) (base (sender s)) (next_seq (sender s))
           (buffer (sender s)) (timer_start (sender s))
           (retransmissions (sender s))
           (duplicate_pkts (sender s) + Z.of_nat n)
    /\ receiver s' = receiver s
    /\ running s' = running s
    /\ is_finishing s' = is_finishing s
    /\ current_time s' = current_time s.
Proof.
  induction n as [|n IH]; intros first j s Hbuf.
  - simpl. exists s. rewrite app_nil_r, Z.add_0_r. by destruct s as [? ? ? []].
  - replace (Z.of_nat (S n)) with (Z.succ (Z.of_nat n)) by lia.
    rewrite seqZ_cons by lia. rewrite Z.pred_succ.
    rewrite offers_from_S. simpl.
    pose proof (Hbuf 0%nat ltac:(lia)) as Hb0.
    rewrite Z.add_0_r in Hb0. rewrite Hb0.
    destruct (send_to_network _ _ _ _ _) as [ch1 st] eqn:Hsend.
    match goal with
    | |- exists s', retransmit_loop _ _ ?s3 = _ /\ _ =>
        destruct (IH (Z.succ first) (S j) s3) as (s' & Hrun & Hch & Hlog & Hsd & Hrest)
    end.
    { intros i Hi. destruct st; simpl;
        replace (Z.succ first + Z.of_nat i) with (first + Z.of_nat (S i)) by lia;
        apply Hbuf; lia. }
    exists s'. split; [exact Hrun|].
    replace (first + 1) with (Z.succ first) by lia.
    destruct st; simpl in *;
      destruct (run_ops ch1 _) as [ch2 tr]; simpl in *;
      (split; [exact Hch|]);
      (split; [rewrite Hlog, <- app_assoc; done|]);
      (split; [rewrite Hsd; f_equal; lia | exact Hrest]).
Qed.

(** One round of the loop that sends new packets, field by field. *)
Lemma send_new_eq off s :
  let sd := sender s in
  let r := send_to_network (channel s) (data_packet (next_seq sd)) ToReceiver
             (of_int (current_time s)) off in
  send_new off s =
    mkSim (running s) (is_finishing s) (current_time s)
      (mkSender (window_size sd) (total_packets sd) (timeout sd) (base sd)
         (next_seq sd + 1)
         (<[next_seq sd := data_packet (next_seq sd)]> (buffer sd))
         (if decide (base sd = next_seq sd) then current_time s
          else timer_start sd)
         (retransmissions sd) (duplicate_pkts sd))
      (receiver s) r.1
      (log s ++ [send_line (current_time s) (data_packet (next_seq sd), r.2)]).
Proof.
  unfold send_new, data_packet. simpl.
  by destruct (send_to_network _ _ _ _ _) as [ch [|]].
Qed.

Lemma can_send_rounds sd :
  can_send sd = true <-> (0 < rounds sd)%nat.
Proof. rewrite can_send_true. unfold rounds. lia. Qed.

(** The loop that sends new packets, begun with offset [burst j] and with
    fuel for all its rounds: it offers exactly [offers_from], logs one
    line per offer, buffers each packet, and starts the timer when a round
    finds [base == next_seq]. *)
Lemma fill_loop_spec m : forall fuel j s,
  m = rounds (sender s) -> (m <= fuel)%nat ->
  let sd := sender s in
  let h := run_ops (channel s)
             (offers_from (current_time s) (next_seq sd) j m) in
  let s' := fill_loop fuel (burst j) s in
  channel s' = h.1
  /\ log s' = log s ++ map (send_line (current_time s)) h.2
  /\ next_seq (sender s') = next_seq sd + Z.of_nat m
  /\ (forall k,
        buffer (sender s') !! k =
          if decide (next_seq sd <= k < next_seq sd + Z.of_nat m)
          then Some (data_packet k) else buffer sd !! k)
  /\ timer_start (sender s') =
       (if decide (next_seq sd <= base sd < next_seq sd + Z.of_nat m)
        then current_time s else timer_start sd)
  /\ (window_size (sender s') = window_size sd
      /\ total_packets (sender s') = total_packets sd
      /\ timeout (sender s') = timeout sd
      /\ base (sender s') = base sd
      /\ retransmissions (sender s') = retransmissions sd
      /\ duplicate_pkts (sender s') = duplicate_pkts sd)
  /\ (receiver s' = receiver s
      /\ running s' = running s
      /\ is_finishing s' = is_finishing s
      /\ current_time s' = current_time s)
  /\ can_send (sender s') = false.
Proof.
  induction m as [|m IH]; intros fuel j s Hm Hfuel.
  - assert (Hno : can_send (sender s) = false).
    { destruct (can_send (sender s)) eqn:Hc; [|done].
      apply can_send_rounds in Hc. lia. }
    assert (Hstop : fill_loop fuel (burst j) s = s).
    { destruct fuel; simpl; [done | by rewrite Hno]. }
    simpl. rewrite Hstop, app_nil_r, Z.add_0_r.
    repeat split; try done.
    + intros k. by rewrite decide_False by lia.
    + by rewrite decide_False by lia.
  - destruct fuel as [|fuel]; [lia|].
    assert (Hyes : can_send (sender s) = true).
    { apply can_send_rounds. lia. }
    cbn [fill_loop]. rewrite Hyes.
    change (tadd (burst j) off_step) with (burst (S j)).
    specialize (IH fuel (S j) (send_new (burst j) s)).
    rewrite offers_from_S.
    rewrite send_new_eq in IH |- *.
    cbn [sender channel log receiver running is_finishing current_time
         next_seq base window_size total_packets timeout buffer timer_start
         retransmissions duplicate_pkts] in IH.
    destruct IH as (Hch & Hlog & Hns & Hbuf & Htm & Hsd & Hfr & Hcan).
    { unfold rounds in *. simpl. lia. }
    { lia. }
    cbn [run_ops].
    destruct (send_to_network _ _ _ _ _) as [ch1 st] eqn:Hsend.
    cbn [fst snd] in *.
    destruct (run_ops ch1 _) as [ch2 tr] eqn:Hrun.
    cbn [fst snd map] in *.
    split; [exact Hch|].
    split; [rewrite Hlog, <- app_assoc; done|].
    split; [lia|].
    split.
    { intros k. rewrite Hbuf.
      destruct (decide (next_seq (sender s) = k)) as [<-|Hne].
      - rewrite decide_False by lia. rewrite lookup_insert_eq.
        by rewrite decide_True by lia.
      - rewrite lookup_insert_ne by done.
        repeat case_decide; try done; lia. }
    split.
    { rewrite Htm. repeat case_decide; try done; lia. }
    done.
Qed.

(** The fuel of [fill_window] is enough: its loop ends because its
    condition fails. *)
Lemma fill_window_done s : can_send (sender (fill_window s)) = false.
Proof.
  unfold fill_window.
  pose proof (fill_loop_spec (rounds (sender s))
                (Z.to_nat (total_packets (sender s) - next_seq (sender s)))
                0 s eq_refl) as Hspec.
  apply Hspec. unfold rounds. lia.
Qed.

End Bursts.

(** The timeout branch in closed form, from a state of the invariant. *)
Lemma on_timeout_spec {T} `{Clock T} (c : Config) (s : GbnSimulator T) :
  Inv c s ->
  let sd := sender s in
  let now := current_time s in
  let n := Z.to_nat (next_seq sd - base sd) in
  let h := run_ops (channel s) (burst_offers now (base sd) n) in
  exists s1,
    on_timeout s = Some s1
    /\ channel s1 = h.1
    /\ log s1 = log s ++ mkLog now T_TIMEOUT (TimeoutPacket (base sd))
                         :: map (retransmit_line now) h.2
    /\ sender s1 =
         mkSender (window_size sd) (total_packets sd) (timeout sd) (base sd)
           (next_seq sd) (buffer sd) now (retransmissions sd + 1)
           (duplicate_pkts sd + (next_seq sd - base sd))
    /\ receiver s1 = receiver s
    /\ running s1 = running s
    /\ is_finishing s1 = is_finishing s
    /\ current_time s1 = current_time s.
Proof.
  intros HI. simpl. unfold on_timeout.
  set (s2 := with_sender _ _).
  assert (Hn : Z.of_nat (Z.to_nat (next_seq (sender s) - base (sender s)))
               = next_seq (sender s) - base (sender s))
    by (destruct HI; lia).
  destruct (retransmit_loop_spec
              (Z.to_nat (next_seq (sender s) - base (sender s)))
              (base (sender s)) 0%nat s2)
    as (s1 & Hrun & Hch & Hlog & Hsd & Hrc & Hr & Hf & Ht).
  { intros i Hi. subst s2. simpl.
    rewrite (inv_buffer c s HI). rewrite decide_True; [done|].
    destruct HI. lia. }
  exists s1. rewrite Hn in Hrun, Hsd.
  split; [exact Hrun|].
  split; [exact Hch|].
  split; [rewrite Hlog; subst s2; simpl; by rewrite <- app_assoc|].
  split; [exact Hsd|]. done.
Qed.

(** ** One-shot loss *)

Section OneShotLoss.

Context {T : Type} `{Clock T}.
Implicit Types (s : GbnSimulator T) (ch : Channel T).

Lemma count_occ_remove_first_eq k l :
  k ∈ l ->
  count_occ Z.eq_dec (remove_first k l) k = pred (count_occ Z.eq_dec l k).
Proof.
  induction l as [|y l IH]; intros Hin; simpl.
  - by apply elem_of_nil in Hin.
  - case_decide as Hky.
    + subst y. by destruct (Z.eq_dec k k).
    + apply elem_of_cons in Hin. destruct Hin as [->|Hin]; [done|].
      simpl. destruct (Z.eq_dec y k) as [->|_]; [done|]. by apply IH.
Qed.

Lemma count_occ_remove_first_ne k k' l :
  k' <> k ->
  count_occ Z.eq_dec (remove_first k' l) k = count_occ Z.eq_dec l k.
Proof.
  intros Hne. induction l as [|y l IH]; simpl; [done|].
  case_decide as Hky.
  - subst y. by destruct (Z.eq_dec k' k).
  - simpl. destruct (Z.eq_dec y k); by rewrite IH.
Qed.

Lemma count_occ_elem_of k (l : list Z) :
  k ∈ l <-> (0 < count_occ Z.eq_dec l k)%nat.
Proof. rewrite list_elem_of_In. apply count_occ_In. Qed.

(** What an offer returns and what it does to the loss lists. *)
Lemma send_to_network_loss ch p d t o :
  let r := send_to_network ch p d t o in
  (if decide (seq_num p ∈ loss_of (type p) ch)
   then r.2 = DROP
        /\ loss_of (type p) r.1 = remove_first (seq_num p) (loss_of (type p) ch)
        /\ packet_queue r.1 = packet_queue ch
   else r.2 = SENT
        /\ loss_of (type p) r.1 = loss_of (type p) ch
        /\ packet_queue r.1 =
             packet_queue ch ++
               [mkItem (tadd (tadd t o) (of_int (delay ch))) p d (tadd t o)])
  /\ (forall ty, ty <> type p -> loss_of ty r.1 = loss_of ty ch)
  /\ delay r.1 = delay ch.
Proof.
  unfold send_to_network, loss_of.
  destruct (type p); repeat case_decide; simpl;
    repeat split; try done; intros []; done.
Qed.

(** The occurrences of [k] in the loss list of [ty] after an offer: one
    fewer when the offer is for [(ty, k)] and [k] is listed, as many
    otherwise. *)
Lemma send_to_network_count ch p d t o ty k :
  count_occ Z.eq_dec (loss_of ty (send_to_network ch p d t o).1) k =
    if decide (type p = ty /\ seq_num p = k /\ k ∈ loss_of ty ch)
    then pred (count_occ Z.eq_dec (loss_of ty ch) k)
    else count_occ Z.eq_dec (loss_of ty ch) k.
Proof.
  destruct (send_to_network_loss ch p d t o) as (Hsame & Hother & _).
  destruct (decide (ty = type p)) as [->|Hty].
  - destruct (decide (seq_num p ∈ loss_of (type p) ch)) as [Hin|Hnin].
    + destruct Hsame as (_ & -> & _).
      destruct (decide (seq_num p = k)) as [<-|Hk].
      * rewrite decide_True by done. by apply count_occ_remove_first_eq.
      * rewrite decide_False by tauto. by apply count_occ_remove_first_ne.
    + destruct Hsame as (_ & -> & _).
      rewrite decide_False; [done|]. intros (_ & <- & ?). done.
  - rewrite Hother by done. rewrite decide_False; [done|].
    intros (<- & _). done.
Qed.

Lemma get_delivered_packets_loss ch now ty :
  loss_of ty (get_delivered_packets ch now).2 = loss_of ty ch.
Proof. rewrite get_delivered_packets_spec. by destruct ty. Qed.

(** Once [k] is off the loss list of [ty], every offer for [(ty, k)] is
    sent. *)
Lemma run_ops_unlisted ch ty k ops :
  k ∉ loss_of ty ch ->
  exists n, statuses_of ty k (run_ops ch ops).2 = replicate n SENT.
Proof.
  revert ch. induction ops as [|[p d t o|now] ops IH]; intros ch Hnin; simpl.
  - by exists 0%nat.
  - destruct (send_to_network ch p d t o) as [ch1 st] eqn:Hsend.
    assert (Hnin1 : k ∉ loss_of ty ch1).
    { rewrite count_occ_elem_of in Hnin |- *.
      pose proof (send_to_network_count ch p d t o ty k) as Hc.
      rewrite Hsend in Hc. simpl in Hc. case_decide; lia. }
    destruct (IH ch1 Hnin1) as [n Hn].
    destruct (run_ops ch1 ops) as [ch2 tr]. simpl in *.
    unfold statuses_of in *. simpl.
    destruct (bool_decide (type p = ty) && bool_decide (seq_num p = k)) eqn:Hm;
      [|by exists n].
    apply andb_true_iff in Hm. destruct Hm as [Hty Hk].
    apply bool_decide_eq_true in Hty, Hk. subst ty k.
    destruct (send_to_network_loss ch p d t o) as (Hsame & _).
    rewrite decide_False in Hsame by done. rewrite Hsend in Hsame.
    destruct Hsame as (Hst & _). simpl in Hst. subst st.
    exists (S n). simpl. by rewrite Hn.
  - apply IH. by rewrite get_delivered_packets_loss.
Qed.

(** With [k] listed once for [ty], the first offer for [(ty, k)] is
    dropped and all the later ones are sent. *)
Lemma run_ops_listed_once ch ty k ops :
  count_occ Z.eq_dec (loss_of ty ch) k = 1%nat ->
  statuses_of ty k (run_ops ch ops).2 = []
  \/ exists n, statuses_of ty k (run_ops ch ops).2 = DROP :: replicate n SENT.
Proof.
  revert ch. induction ops as [|[p d t o|now] ops IH]; intros ch Hone; simpl.
  - by left.
  - destruct (send_to_network ch p d t o) as [ch1 st] eqn:Hsend.
    pose proof (send_to_network_count ch p d t o ty k) as Hc.
    rewrite Hsend in Hc. simpl in Hc.
    assert (Hin : k ∈ loss_of ty ch) by (apply count_occ_elem_of; lia).
    destruct (decide (type p = ty /\ seq_num p = k)) as [[Hty Hk]|Hother].
    + rewrite decide_True in Hc by done.
      assert (Hnin1 : k ∉ loss_of ty ch1).
      { rewrite count_occ_elem_of. lia. }
      destruct (run_ops_unlisted ch1 ty k ops Hnin1) as [n Hn].
      destruct (send_to_network_loss ch p d t o) as (Hsame & _).
      subst ty k. rewrite decide_True in Hsame by done.
      rewrite Hsend in Hsame. destruct Hsame as (Hst & _).
      simpl in Hst. subst st.
      destruct (run_ops ch1 ops) as [ch2 tr]. simpl in *.
      right. exists n. unfold statuses_of in *. simpl.
      rewrite !bool_decide_eq_true_2 by done. simpl. by rewrite Hn.
    + rewrite decide_False in Hc by tauto.
      specialize (IH ch1 ltac:(lia)).
      destruct (run_ops ch1 ops) as [ch2 tr]. simpl in *.
      unfold statuses_of in *. simpl.
      destruct (bool_decide (type p = ty) && bool_decide (seq_num p = k)) eqn:Hm;
        [|exact IH].
      apply andb_true_iff in Hm. destruct Hm as [Hty Hk].
      apply bool_decide_eq_true in Hty, Hk. tauto.
  - apply IH. by rewrite get_delivered_packets_loss.
Qed.

(** The statuses of the offers of [(ty, k)] and what is left of the
    occurrences of [k] on the loss list, for any sequence of calls. *)
Lemma run_ops_loss_count ch ty k ops :
  let c := count_occ Z.eq_dec (loss_of ty ch) k in
  let sts := statuses_of ty k (run_ops ch ops).2 in
  sts = replicate (c `min` length sts) DROP
        ++ replicate (length sts - c) SENT
  /\ count_occ Z.eq_dec (loss_of ty (run_ops ch ops).1) k
     = (c - length sts)%nat.
Proof.
  revert ch. induction ops as [|[p d t o|now] ops IH]; intros ch; simpl.
  - rewrite Nat.min_0_r. split; [done | lia].
  - destruct (send_to_network ch p d t o) as [ch1 st] eqn:Hsend.
    pose proof (send_to_network_count ch p d t o ty k) as Hc.
    pose proof (send_to_network_loss ch p d t o) as (Hsame & _).
    rewrite Hsend in Hc, Hsame. simpl in Hc, Hsame.
    specialize (IH ch1). simpl in IH.
    destruct (run_ops ch1 ops) as [ch2 tr]. simpl in *.
    destruct IH as (IHs & IHc).
    unfold statuses_of in *. simpl.
    destruct (bool_decide (type p = ty) && bool_decide (seq_num p = k)) eqn:Hm.
    + apply andb_true_iff in Hm. destruct Hm as [Hty Hk].
      apply bool_decide_eq_true in Hty, Hk. subst ty k.
      destruct (decide (seq_num p ∈ loss_of (type p) ch)) as [Hin|Hnin].
      * rewrite decide_True in Hc by done.
        destruct Hsame as (-> & _).
        pose proof Hin as Hpos. apply count_occ_elem_of in Hpos.
        simpl. rewrite Hc in IHs, IHc.
        destruct (count_occ Z.eq_dec (loss_of (type p) ch) (seq_num p))
          as [|c]; [lia|].
        simpl in *. split; [by rewrite IHs at 1 | lia].
      * rewrite decide_False in Hc by tauto.
        destruct Hsame as (-> & _).
        assert (Hz : count_occ Z.eq_dec (loss_of (type p) ch) (seq_num p)
                     = 0%nat).
        { rewrite count_occ_elem_of in Hnin. lia. }
        rewrite Hc, Hz in IHs, IHc. rewrite Hz. simpl in *.
        rewrite Nat.sub_0_r in IHs. split; [by rewrite IHs at 1 | lia].
    + rewrite decide_False in Hc.
      * rewrite Hc in IHs, IHc. done.
      * intros (Hty & Hk & _). subst.
        by rewrite !bool_decide_eq_true_2 in Hm.
  - specialize (IH (get_delivered_packets ch now).2). simpl in IH.
    by rewrite get_delivered_packets_loss in IH.
Qed.

End OneShotLoss.

(** ** The simulator touches the channel through its two methods only *)

Section Histories.

Context {T : Type} `{Clock T}.
Implicit Types (s : GbnSimulator T) (ch : Channel T).

Lemma history_refl ch : history ch ch.
Proof. by exists []. Qed.

Lemma history_trans ch1 ch2 ch3 :
  history ch1 ch2 -> history ch2 ch3 -> history ch1 ch3.
Proof.
  intros [ops1 ->] [ops2 ->]. exists (ops1 ++ ops2). by rewrite run_ops_app.
Qed.

Lemma history_send ch p d t o : history ch (send_to_network ch p d t o).1.
Proof.
  exists [OpSend p d t o]. simpl. by destruct (send_to_network ch p d t o).
Qed.

Lemma history_deliver ch now : history ch (get_delivered_packets ch now).2.
Proof. by exists [OpDeliver now]. Qed.

Lemma retransmit_loop_history seqs off s s' :
  retransmit_loop seqs off s = Some s' -> history (channel s) (channel s').
Proof.
  revert off s. induction seqs as [|k rest IH]; intros off s; simpl.
  - intros [= <-]. apply history_refl.
  - destruct (buffer (sender s) !! k) as [p|]; [|done].
    pose proof (history_send (channel s) p ToReceiver
                  (of_int (current_time s)) off) as Hsend.
    destruct (send_to_network _ _ _ _ _) as [ch [|]]; intros Hrun;
      apply IH in Hrun; exact (history_trans _ _ _ Hsend Hrun).
Qed.

Lemma fill_loop_history fuel off s :
  history (channel s) (channel (fill_loop fuel off s)).
Proof.
  revert off s. induction fuel as [|fuel IH]; intros off s; simpl.
  - apply history_refl.
  - destruct (can_send (sender s)); [|apply history_refl].
    eapply history_trans; [|apply IH].
    rewrite send_new_eq. apply history_send.
Qed.

Lemma handle_arrival_history s it :
  history (channel s) (channel (handle_arrival s it)).
Proof.
  unfold handle_arrival, receive_data, receive_ack.
  destruct (dest it), (type (pkt it)); simpl; try apply history_refl.
  - repeat case_decide; simpl; try apply history_refl.
    + pose proof (history_send (channel s)
                    (mkPacket ACK (seq_num (pkt it)) None) ToSender
                    (arrival_time it) off0) as Hsend.
      by destruct (send_to_network _ _ _ _ _) as [ch [|]].
    + apply history_send.
  - case_decide; apply history_refl.
Qed.

Lemma process_channel_only_history s :
  history (channel s) (channel (process_channel_only s)).
Proof.
  unfold process_channel_only.
  pose proof (history_deliver (channel s) (current_time s)) as Hd.
  destruct (get_delivered_packets _ _) as [arrivals ch]. simpl in Hd.
  eapply history_trans; [exact Hd|].
  change ch with (channel (with_channel s ch)) at 1.
  generalize (with_channel s ch). clear.
  induction arrivals as [|it l IH]; intros s; simpl; [apply history_refl|].
  eapply history_trans; [apply handle_arrival_history | apply IH].
Qed.

Lemma simulation_tick_history s s' :
  simulation_tick s = Some s' -> history (channel s) (channel s').
Proof.
  unfold simulation_tick.
  destruct (running s); simpl; [|intros [= <-]; apply history_refl].
  case_decide.
  - intros [= <-]. simpl.
    pose proof (process_channel_only_history
                  (if negb (is_finishing s)
                   then add_log
                          (mkSim true true (current_time s) (sender s)
                             (receiver s) (channel s) (log s))
                          T_DONE AllPacketsAcknowledged
                   else s)) as Hp.
    by destruct (is_finishing s).
  - destruct (check_timer _ _).
    + destruct (on_timeout s) as [s1|] eqn:Hto; simpl; [|done].
      intros [= <-]. simpl.
      apply retransmit_loop_history in Hto. simpl in Hto.
      eapply history_trans; [exact Hto|].
      eapply history_trans; [|apply process_channel_only_history].
      apply fill_loop_history.
    + simpl. intros [= <-]. simpl.
      eapply history_trans; [|apply process_channel_only_history].
      apply fill_loop_history.
Qed.

(** The channel of every state of a run is a history of the channel the
    run started with. *)
Lemma reachable_history c s :
  reachable c s -> history (channel (start_sim (T:=T) c)) (channel s).
Proof.
  induction 1 as [|s s' _ IH Hstep]; [apply history_refl|].
  destruct Hstep as [s0 s1 Htick | s0]; [|exact IH].
  eapply history_trans; [exact IH | by apply simulation_tick_history].
Qed.

End Histories.

(** ** The log records the offers of a run *)

Section Offers.

Context {T : Type} `{Clock T}.
Implicit Types (s : GbnSimulator T) (ch : Channel T) (it : Item T).

Lemma ack_dropped_next_app k (l l' : list LogEntry) :
  ~ starts_with_ack_drop l' ->
  ack_dropped_next k (l ++ l') = ack_dropped_next k l.
Proof.
  intros Hl'. destruct l as [|e l]; simpl; [|done].
  destruct l' as [|e' l']; simpl; [done|].
  apply bool_decide_eq_false_2. intros He'. apply Hl'. simpl. by eexists.
Qed.

Lemma offers_app (l l' : list LogEntry) :
  ~ starts_with_ack_drop l' -> offers (l ++ l') = offers l ++ offers l'.
Proof.
  intros Hl'. induction l as [|e l IH]; [done|].
  rewrite <- app_comm_cons. cbn [offers].
  destruct (log_msg e); rewrite IH, ?ack_dropped_next_app by done; done.
Qed.

Lemma starts_with_ack_drop_app (l l' : list LogEntry) :
  ~ starts_with_ack_drop l -> ~ starts_with_ack_drop l' ->
  ~ starts_with_ack_drop (l ++ l').
Proof. by destruct l. Qed.

Lemma traced_refl s : traced s s.
Proof.
  exists [], []. simpl. rewrite app_nil_r. repeat split. by intros [].
Qed.

Lemma traced_trans s1 s2 s3 : traced s1 s2 -> traced s2 s3 -> traced s1 s3.
Proof.
  intros (ops1 & l1 & Hch1 & Hlog1 & Hs1 & Hof1)
         (ops2 & l2 & Hch2 & Hlog2 & Hs2 & Hof2).
  exists (ops1 ++ ops2), (l1 ++ l2).
  rewrite run_ops_app. simpl. rewrite <- Hch1.
  split; [done|].
  split; [by rewrite Hlog2, Hlog1, <- app_assoc|].
  split; [by apply starts_with_ack_drop_app|].
  by rewrite offers_app, map_app, Hof1, Hof2.
Qed.

(** A step that touches neither the channel nor the lines of the offers. *)
Lemma traced_quiet s s' (l' : list LogEntry) :
  channel s' = channel s -> log s' = log s ++ l' ->
  ~ starts_with_ack_drop l' -> offers l' = [] -> traced s s'.
Proof. intros Hch Hlog Hs Hof. by exists [], l'. Qed.

(** The lines of a burst of DATA packets are the record of its offers. *)
Lemma offers_retransmit_lines now (tr : list (Packet * Status)) (ks : list Z) :
  map fst tr = map data_packet ks ->
  offers (map (retransmit_line now) tr) = map summary tr.
Proof.
  revert ks. induction tr as [|[p st] tr IH]; intros ks Hks; simpl; [done|].
  destruct ks as [|k ks]; [done|]. simpl in Hks.
  injection Hks as -> Hks. rewrite <- (IH ks Hks).
  by destruct st.
Qed.

Lemma offers_send_lines now (tr : list (Packet * Status)) (ks : list Z) :
  map fst tr = map data_packet ks ->
  offers (map (send_line now) tr) = map summary tr.
Proof.
  revert ks. induction tr as [|[p st] tr IH]; intros ks Hks; simpl; [done|].
  destruct ks as [|k ks]; [done|]. simpl in Hks.
  injection Hks as -> Hks. rewrite <- (IH ks Hks).
  by destruct st.
Qed.

Lemma send_lines_start now (tr : list (Packet * Status)) :
  ~ starts_with_ack_drop (map (send_line now) tr).
Proof.
  destruct tr as [|[p [|]] tr]; simpl; [by intros [] | |]; by intros [k Hk].
Qed.

Lemma traced_on_timeout c s s1 :
  Inv c s -> on_timeout s = Some s1 -> traced s s1.
Proof.
  intros HI Hto.
  destruct (on_timeout_spec c s HI) as (s1' & Hto' & Hch & Hlog & _).
  rewrite Hto in Hto'. injection Hto' as <-.
  eexists _, _. split; [exact Hch|]. split; [exact Hlog|].
  split; [by intros [k Hk]|].
  simpl. eapply offers_retransmit_lines.
  rewrite <- offers_from_0. apply run_ops_offers_packets.
Qed.

Lemma traced_fill_window s : traced s (fill_window s).
Proof.
  pose proof (fill_loop_spec (rounds (sender s))
                (Z.to_nat (total_packets (sender s) - next_seq (sender s)))
                0 s eq_refl) as Hspec.
  destruct Hspec as (Hch & Hlog & _); [unfold rounds; lia|].
  eexists _, _. split; [exact Hch|]. split; [exact Hlog|].
  split; [apply send_lines_start|].
  eapply offers_send_lines. apply run_ops_offers_packets.
Qed.

(** An arrival, for a receiver that has acknowledged all it accepted: the
    branch that sends an ACK again is not taken. *)
Lemma traced_handle_arrival s it :
  last_ack_sent (receiver s) = expected_seq (receiver s) - 1 ->
  traced s (handle_arrival s it)
  /\ last_ack_sent (receiver (handle_arrival s it))
     = expected_seq (receiver (handle_arrival s it)) - 1.
Proof.
  intros Hlast. unfold handle_arrival, receive_data, receive_ack.
  destruct (dest it), (type (pkt it)); simpl;
    try (split; [apply traced_refl | done]).
  - destruct (decide (seq_num (pkt it) = expected_seq (receiver s))) as [He|He].
    + destruct (send_to_network _ _ _ _ _) as [ch st] eqn:Hsend.
      split.
      * exists [OpSend (mkPacket ACK (seq_num (pkt it)) None) ToSender
                       (arrival_time it) off0].
        simpl in Hsend |- *. rewrite Hsend.
        destruct st; simpl.
        -- eexists. split; [done|]. split; [done|].
           split; [by intros [k Hk]|]. done.
        -- eexists [_; _]. split; [done|].
           split; [by rewrite <- app_assoc|].
           split; [by intros [k Hk]|].
           simpl. by rewrite bool_decide_eq_true_2.
      * destruct st; simpl; lia.
    + destruct (decide (seq_num (pkt it) < expected_seq (receiver s))).
      * split; [|done].
        eapply traced_quiet; [done | done | by intros [k Hk] | done].
      * destruct (decide (0 < expected_seq (receiver s))).
        -- rewrite decide_True by done. split; [|done].
           eapply (traced_quiet _ _ [_; _]);
             [done | simpl; by rewrite <- app_assoc | by intros [k Hk] | done].
        -- split; [|done].
           eapply traced_quiet; [done | done | by intros [k Hk] | done].
  - case_decide; (split; [|done]);
      (eapply traced_quiet; [done | done | by intros [k Hk] | done]).
Qed.

Lemma traced_fold_handle_arrival arrivals : forall s,
  last_ack_sent (receiver s) = expected_seq (receiver s) - 1 ->
  traced s (fold_left handle_arrival arrivals s).
Proof.
  induction arrivals as [|it l IH]; intros s Hlast; simpl;
    [apply traced_refl|].
  destruct (traced_handle_arrival s it Hlast) as [Ht Hlast'].
  eapply traced_trans; [exact Ht | by apply IH].
Qed.

Lemma traced_process_channel_only s :
  last_ack_sent (receiver s) = expected_seq (receiver s) - 1 ->
  traced s (process_channel_only s).
Proof.
  intros Hlast. unfold process_channel_only.
  destruct (get_delivered_packets (channel s) (current_time s))
    as [arrivals ch] eqn:Hd.
  eapply traced_trans; [|by apply traced_fold_handle_arrival].
  exists [OpDeliver (current_time s)], []. simpl.
  rewrite Hd, app_nil_r. repeat split. by intros [].
Qed.

Lemma traced_simulation_tick c s s' :
  Inv c s -> simulation_tick s = Some s' -> traced s s'.
Proof.
  intros HI. pose proof (inv_last_ack c s HI) as Hlast.
  unfold simulation_tick.
  destruct (running s); simpl; [|intros [= <-]; apply traced_refl].
  case_decide.
  - intros [= <-].
    eapply traced_trans;
      [|eapply traced_trans;
          [apply traced_process_channel_only
          |eapply traced_quiet with (l' := []);
             [done | by rewrite app_nil_r | by intros [] | done]]].
    + destruct (is_finishing s); simpl; [apply traced_refl|].
      eapply traced_quiet; [done | done | by intros [k Hk] | done].
    + by destruct (is_finishing s).
  - assert (Hrest : forall s1, traced s s1 -> receiver s1 = receiver s ->
              traced s (advance_clock (process_channel_only (fill_window s1)))).
    { intros s1 Ht Hrc.
      eapply traced_trans; [exact Ht|].
      eapply traced_trans; [apply traced_fill_window|].
      eapply traced_trans;
        [apply traced_process_channel_only
        |eapply traced_quiet with (l' := []);
           [done | by rewrite app_nil_r | by intros [] | done]].
      unfold fill_window. by rewrite fill_loop_receiver, Hrc. }
    destruct (check_timer _ _).
    + destruct (on_timeout s) as [s1|] eqn:Hto; simpl; [|done].
      intros [= <-]. apply Hrest.
      * by eapply traced_on_timeout.
      * by eapply on_timeout_receiver.
    + simpl. intros [= <-]. apply Hrest; [apply traced_refl | done].
Qed.

(** The log of every state of a run records the offers the channel
    received since the run started, with the statuses it returned. *)
Lemma reachable_traced c s :
  valid_config c -> reachable c s -> traced (start_sim c) s.
Proof.
  intros Hc. induction 1 as [|s s' Hr IH Hstep]; [apply traced_refl|].
  eapply traced_trans; [exact IH|].
  destruct Hstep as [s0 s1 Htick | s0].
  - eapply traced_simulation_tick; [by apply reachable_inv | done].
  - eapply traced_quiet; [done | done | by intros [k Hk] | done].
Qed.

Lemma statuses_in_summary ty k (tr : list (Packet * Status)) :
  statuses_in ty k (map summary tr) = statuses_of ty k tr.
Proof.
  unfold statuses_in, statuses_of.
  induction tr as [|[p st] tr IH]; simpl; [done|].
  destruct (decide (type p = ty)) as [Hty|Hty],
           (decide (seq_num p = k)) as [Hk|Hk].
  - rewrite !bool_decide_eq_true_2 by (done || by subst). simpl. by f_equal.
  - rewrite (bool_decide_eq_false_2 (_ = (ty, k))) by (intros [= ? ?]; done).
    rewrite (bool_decide_eq_false_2 (seq_num p = k)) by done.
    by rewrite andb_false_r.
  - rewrite (bool_decide_eq_false_2 (_ = (ty, k))) by (intros [= ? ?]; done).
    by rewrite (bool_decide_eq_false_2 (type p = ty)) by done.
  - rewrite (bool_decide_eq_false_2 (_ = (ty, k))) by (intros [= ? ?]; done).
    by rewrite (bool_decide_eq_false_2 (type p = ty)) by done.
Qed.

End Offers.

(** ** The burst offsets in binary64 *)








(** ** Runs that have settled *)

Section Settled.

Context {T : Type} `{Clock T}.
Implicit Types (s : GbnSimulator T).

Lemma simulation_tick_settled s :
  settled s -> simulation_tick s = Some (advance_clock s).
Proof.
  intros (Hr & Hf & Hb & Hq). unfold simulation_tick.
  rewrite Hr, Hf. simpl. rewrite decide_True by done.
  unfold process_channel_only, get_delivered_packets. rewrite Hq. simpl.
  destruct s as [r f t sd rc [ld la dl q] lg]. simpl in *. by subst.
Qed.

(** From a settled state on, ticks only move the clock. *)
Lemma ticks_settled c n0 s0 :
  ticks n0 (start_sim c) = Some s0 -> settled s0 ->
  forall m, exists s,
    ticks (m + n0) (start_sim c) = Some s
    /\ settled s /\ sender s = sender s0 /\ receiver s = receiver s0
    /\ channel s = channel s0 /\ log s = log s0.
Proof.
  intros Hrun Hset. induction m as [|m (s & Hm & Hs & Hsd & Hrc & Hch & Hlg)].
  - by exists s0.
  - exists (advance_clock s). simpl. rewrite Hm. simpl.
    split; [by apply simulation_tick_settled|].
    destruct Hs as (? & ? & ? & ?). by repeat split.
Qed.

End Settled.

(** ** A run that never completes *)

Section Stall.

Context {T : Type} `{Clock T}.
Implicit Types (s : GbnSimulator T) (it : Item T).

Lemma Forall_snoc {A} (P : A -> Prop) (l : list A) (x : A) :
  Forall P l -> P x -> Forall P (l ++ [x]).
Proof. intros Hl Hx. apply Forall_app; split; [done | by constructor]. Qed.

Lemma stalled_handle_arrival s it :
  Stalled s -> dest it = ToReceiver -> pkt it = data_packet 0 ->
  Stalled (handle_arrival s it).
Proof.
  intros [Hrun Hw Ht Hb Hn Hbuf Hl Hq Hr Hlog] Hd Hp.
  unfold handle_arrival, receive_data. rewrite Hd, Hp. simpl.
  destruct Hr as [[He Hla] | He]; rewrite He.
  - rewrite decide_True by done.
    unfold send_to_network. simpl. rewrite Hla.
    rewrite decide_True by (by apply list_elem_of_singleton). simpl.
    constructor; simpl; try done; auto.
    by repeat apply Forall_snoc.
  - rewrite decide_False by done. rewrite decide_True by done.
    constructor; simpl; try done; auto.
    by apply Forall_snoc.
Qed.

Lemma stalled_process_channel_only s :
  Stalled s -> Stalled (process_channel_only s).
Proof.
  intros HS. unfold process_channel_only.
  rewrite get_delivered_packets_spec.
  assert (Hin : Forall (fun it => dest it = ToReceiver /\ pkt it = data_packet 0)
                  (List.filter
                     (fun it => tleb (arrival_time it) (of_int (current_time s)))
                     (packet_queue (channel s)))).
  { apply Forall_list_filter. by destruct HS. }
  assert (HS' : Stalled
                  (with_channel s
                     (mkChannel (loss_data (channel s)) (loss_ack (channel s))
                        (delay (channel s))
                        (List.filter
                           (fun it => negb (tleb (arrival_time it)
                                              (of_int (current_time s))))
                           (packet_queue (channel s)))))).
  { destruct HS. constructor; simpl; try done. by apply Forall_list_filter. }
  revert HS' Hin. generalize (with_channel s
                     (mkChannel (loss_data (channel s)) (loss_ack (channel s))
                        (delay (channel s))
                        (List.filter
                           (fun it => negb (tleb (arrival_time it)
                                              (of_int (current_time s))))
                           (packet_queue (channel s))))).
  generalize (List.filter
                (fun it => tleb (arrival_time it) (of_int (current_time s)))
                (packet_queue (channel s))).
  clear. intros arrivals.
  induction arrivals as [|it l IH]; intros s HS Hall; simpl; [done|].
  inversion Hall as [|? ? [Hd Hp] Hl]; subst.
  apply IH; [by apply stalled_handle_arrival | done].
Qed.

Lemma stalled_on_timeout s :
  Stalled s -> exists s', on_timeout s = Some s' /\ Stalled s'.
Proof.
  intros [Hrun Hw Ht Hb Hn Hbuf Hl Hq Hr Hlog].
  unfold on_timeout. simpl. rewrite Hb, Hn. simpl.
  change (Z.of_nat 0 + 0) with 0. rewrite Hbuf.
  unfold send_to_network. simpl. rewrite Hl.
  rewrite decide_False by (by rewrite list_elem_of_singleton). simpl.
  eexists; split; [done|].
  constructor; simpl; try done.
  - by apply Forall_snoc.
  - by repeat apply Forall_snoc.
Qed.

Lemma stalled_fill_window s : Stalled s -> fill_window s = s.
Proof.
  intros [Hrun Hw Ht Hb Hn Hbuf Hl Hq Hr Hlog].
  unfold fill_window. rewrite Ht, Hn. simpl.
  unfold can_send. rewrite Hb, Hn, Hw. done.
Qed.

Lemma stalled_advance_clock s : Stalled s -> Stalled (advance_clock s).
Proof. intros []. by constructor. Qed.

Lemma stalled_simulation_tick s :
  Stalled s -> exists s', simulation_tick s = Some s' /\ Stalled s'.
Proof.
  intros HS. unfold simulation_tick.
  destruct (running s); simpl; [|eauto].
  rewrite decide_False by (destruct HS; lia).
  destruct (check_timer _ _).
  - destruct (stalled_on_timeout s HS) as (s1 & -> & HS1). simpl.
    eexists; split; [done|].
    rewrite (stalled_fill_window s1 HS1).
    by apply stalled_advance_clock, stalled_process_channel_only.
  - simpl. eexists; split; [done|].
    rewrite (stalled_fill_window s HS).
    by apply stalled_advance_clock, stalled_process_channel_only.
Qed.

Lemma stalled_first_tick :
  exists s, ticks 1 (start_sim (T:=T) stalled_config) = Some s /\ Stalled s.
Proof.
  eexists; split; [reflexivity|].
  apply stalled_advance_clock, stalled_process_channel_only.
  constructor; simpl; try done.
  - repeat constructor.
  - by left.
  - repeat constructor.
Qed.

(** Every tick of that run ends in such a state. *)
Lemma stalled_run n :
  exists s, ticks (S n) (start_sim (T:=T) stalled_config) = Some s /\ Stalled s.
Proof.
  induction n as [|n (s & Hn & HS)]; [apply stalled_first_tick|].
  destruct (stalled_simulation_tick s HS) as (s' & Htick & HS').
  exists s'. split; [|done].
  change (ticks (S (S n)) (start_sim stalled_config))
    with (ticks (S n) (start_sim (T:=T) stalled_config) ≫= simulation_tick).
  by rewrite Hn.
Qed.

End Stall.

(** ** The log and the counters *)

Section LedgerKept.

Context {T : Type} `{Clock T}.
Implicit Types (s : GbnSimulator T) (ch : Channel T) (it : Item T).

Lemma seqZ_snoc (n : Z) : 0 <= n -> seqZ 0 (n + 1) = seqZ 0 n ++ [n].
Proof. intros Hn. by rewrite seqZ_app by lia. Qed.

Ltac ledger_fields :=
  unfold deliveries, originations, retransmitted, timeout_times,
         resent_acks in *;
  simpl; rewrite ?omap_app; simpl;
  rewrite ?app_nil_r, ?length_app; simpl.

Lemma ledger_add_log s tag m :
  Ledger s ->
  match m with
  | ReceiverExpected _ | SenderData _ | SenderDataDropped _
  | RetransmittingData _ | RetransmissionDropped _ | TimeoutPacket _
  | ResendingAck _ => False
  | _ => True
  end ->
  Ledger (add_log s tag m).
Proof.
  intros [] Hm. destruct m; try done; constructor; ledger_fields; done.
Qed.

Lemma ledger_handle_arrival s it : Ledger s -> Ledger (handle_arrival s it).
Proof.
  intros HL. unfold handle_arrival, receive_data, receive_ack.
  destruct (dest it), (type (pkt it)); simpl; try done.
  - destruct (decide (seq_num (pkt it) = expected_seq (receiver s)))
      as [Heq|Hne].
    + destruct (send_to_network _ _ _ _ _) as [ch [|]]; destruct HL;
        constructor; ledger_fields; try done; try lia;
        rewrite Heq, led_deliveries0; by rewrite seqZ_snoc.
    + case_decide; [by apply ledger_add_log|].
      case_decide; [|by apply ledger_add_log].
      rewrite decide_True by (by destruct HL).
      destruct HL. constructor; ledger_fields; done.
  - case_decide; destruct HL; constructor; ledger_fields; done.
Qed.

Lemma ledger_process_channel_only s :
  Ledger s -> Ledger (process_channel_only s).
Proof.
  intros HL. unfold process_channel_only. rewrite get_delivered_packets_spec.
  assert (HL' : Ledger
                  (with_channel s
                     (mkChannel (loss_data (channel s)) (loss_ack (channel s))
                        (delay (channel s))
                        (List.filter
                           (fun it => negb (tleb (arrival_time it)
                                              (of_int (current_time s))))
                           (packet_queue (channel s))))))
    by (destruct HL; constructor; done).
  revert HL'.
  generalize (with_channel s
                (mkChannel (loss_data (channel s)) (loss_ack (channel s))
                   (delay (channel s))
                   (List.filter
                      (fun it => negb (tleb (arrival_time it)
                                         (of_int (current_time s))))
                      (packet_queue (channel s))))).
  generalize (List.filter
                (fun it => tleb (arrival_time it) (of_int (current_time s)))
                (packet_queue (channel s))).
  clear. intros arrivals.
  induction arrivals as [|it l IH]; intros s HL; simpl; [done|].
  by apply IH, ledger_handle_arrival.
Qed.

Lemma ledger_retransmit_loop seqs off s s' :
  retransmit_loop seqs off s = Some s' -> Ledger s -> Ledger s'.
Proof.
  revert off s. induction seqs as [|k rest IH]; intros off s; simpl.
  - by intros [= <-].
  - destruct (buffer (sender s) !! k) as [p|]; [|done].
    destruct (send_to_network _ _ _ _ _) as [ch st].
    intros Hrun HL. apply IH in Hrun; [done|].
    destruct HL. destruct st; constructor; ledger_fields; try done; lia.
Qed.

Lemma ledger_on_timeout s s' : on_timeout s = Some s' -> Ledger s -> Ledger s'.
Proof.
  unfold on_timeout. intros Hrun HL.
  apply ledger_retransmit_loop in Hrun; [done|].
  destruct HL. constructor; ledger_fields; try done; lia.
Qed.

Lemma ledger_send_new off s : Ledger s -> Ledger (send_new off s).
Proof.
  intros HL. rewrite send_new_eq. destruct HL.
  destruct (send_to_network _ _ _ _ _) as [ch [|]];
    constructor; ledger_fields; try done; try lia;
    rewrite led_originations0; by rewrite seqZ_snoc.
Qed.

Lemma ledger_fill_loop fuel off s : Ledger s -> Ledger (fill_loop fuel off s).
Proof.
  revert off s. induction fuel as [|fuel IH]; intros off s HL; simpl; [done|].
  destruct (can_send (sender s)); [|done].
  by apply IH, ledger_send_new.
Qed.

Lemma ledger_advance_clock s : Ledger s -> Ledger (advance_clock s).
Proof. intros []. by constructor. Qed.

Lemma ledger_simulation_tick s s' :
  simulation_tick s = Some s' -> Ledger s -> Ledger s'.
Proof.
  unfold simulation_tick. intros Htick HL.
  destruct (running s); simpl in Htick; [|by injection Htick as <-].
  case_decide.
  - injection Htick as <-.
    apply ledger_advance_clock, ledger_process_channel_only.
    destruct (is_finishing s); simpl; [done|].
    destruct HL. constructor; ledger_fields; done.
  - destruct (check_timer _ _).
    + destruct (on_timeout s) as [s1|] eqn:Hto; simpl in Htick; [|done].
      injection Htick as <-.
      apply ledger_advance_clock, ledger_process_channel_only,
            ledger_fill_loop.
      by eapply ledger_on_timeout.
    + simpl in Htick. injection Htick as <-.
      by apply ledger_advance_clock, ledger_process_channel_only,
               ledger_fill_loop.
Qed.

Lemma reachable_ledger c s : reachable c s -> Ledger s.
Proof.
  induction 1 as [|s s' _ IH Hstep].
  - by constructor.
  - destruct Hstep as [s0 s1 Htick | s0].
    + by eapply ledger_simulation_tick.
    + destruct IH. constructor; ledger_fields; done.
Qed.

End LedgerKept.

(** ** The log as text *)

Example log_text_example :
  log_text (mkLog 3 T_LOSS (RetransmittingData 2))
  = "[03s] Retransmitting Data 2".
Proof. vm_compute. reflexivity. Qed.

(** The log of scenario C after six ticks, as the log window shows it. *)
Example scenario_C_log_text :
  (fun s => map log_text (log s))
    <$> ticks 6 (start_sim (T:=float) scenario_C)
  = Some
      ["[00s] --- Simulation Started ---";
       "[00s] Sender Data 0";
       "[00s] Sender Data 1";
       "[00s] Sender Data 2";
       "[01s] Receiver Data 0 (Expected). Sending ACK.";
       "[01s] ACK 0 Dropped by Channel";
       "[02s] Receiver Data 1 (Expected). Sending ACK.";
       "[02s] Receiver Data 2 (Expected). Sending ACK.";
       "[03s] Timeout Packet 0. Retransmitting Window.";
       "[03s] Retransmitting Data 0";
       "[03s] Retransmitting Data 1";
       "[03s] Retransmitting Data 2";
       "[03s] Sender received ACK 1";
       "[03s] Sender received ACK 2";
       "[04s] All Packets Acknowledged! Simulation Complete...";
       "[04s] Receiver Data 0 (Duplicate). Ignore.";
       "[05s] Receiver Data 1 (Duplicate). Ignore.";
       "[05s] Receiver Data 2 (Duplicate). Ignore."].
Proof. vm_compute. reflexivity. Qed.

(** * The claims *)

Lemma state_after_reachable {T} `{Clock T} (n : nat) (c : Config) :
  reachable c (state_after (T:=T) n c).
Proof.
  unfold state_after.
  destruct (ticks n (start_sim c)) as [s|] eqn:Hrun; simpl.
  - by eapply ticks_reachable.
  - constructor.
Qed.

Lemma valid_scenario_A : valid_config scenario_A.
Proof. unfold valid_config. simpl. repeat split; try lia; constructor. Qed.

Lemma valid_scenario_C : valid_config scenario_C.
Proof.
  unfold valid_config. simpl.
  repeat split; try lia; repeat (constructor; try lia).
Qed.

Lemma valid_stalled_config : valid_config stalled_config.
Proof.
  unfold valid_config. simpl.
  repeat split; try lia; repeat (constructor; try lia).
Qed.

(** C1.  An ACK with sequence number [k] handled by the sender at time
    [current_time s].  If [k >= base], then [base] becomes [k + 1],
    whatever lies between the old base and [k]; after that [timer_start]
    is the current time when [base < next_seq], and [-1] (timer off)
    otherwise; nothing else of the sender changes.  If [k < base] the
    sender is left as it was.  Handling the same ACK a second time changes
    the sender no further.  Receiver and channel are not touched; the log
    gains the line of the ACK. *)
Theorem C1_cumulative_ack {T} `{Clock T} (s : GbnSimulator T) (a st : T)
    (k : Z) (d : option string) :
  let it := mkItem a (mkPacket ACK k d) ToSender st in
  let s' := handle_arrival s it in
  let sd := sender s in
  let sd' := sender s' in
  (base sd <= k ->
     base sd' = k + 1
     /\ (base sd' < next_seq sd' -> timer_start sd' = current_time s)
     /\ (~ base sd' < next_seq sd' -> timer_start sd' = -1)
     /\ next_seq sd' = next_seq sd
     /\ buffer sd' = buffer sd
     /\ window_size sd' = window_size sd
     /\ total_packets sd' = total_packets sd
     /\ timeout sd' = timeout sd
     /\ retransmissions sd' = retransmissions sd
     /\ duplicate_pkts sd' = duplicate_pkts sd)
  /\ (k < base sd -> sd' = sd)
  /\ sender (handle_arrival s' it) = sd'
  /\ receiver s' = receiver s
  /\ channel s' = channel s
  /\ current_time s' = current_time s
  /\ log s' = log s ++ [mkLog (current_time s) T_ACK (SenderReceivedAck k)].
Proof.
  unfold handle_arrival, receive_ack. simpl.
  destruct (decide (base (sender s) <= k)) as [Hge|Hlt]; simpl.
  - rewrite (decide_False (P := k + 1 <= k)) by lia. simpl.
    repeat split; try done; try lia; intros; case_decide; lia.
  - rewrite decide_False by done. simpl.
    repeat split; try done; lia.
Qed.

(** C3.  In every state of a run started from a validated configuration,
    [0 <= base <= next_seq <= total_packets] and
    [next_seq - base <= window_size], for the window size and the number
    of packets of the configuration. *)
Theorem C3_window_invariant {T} `{Clock T} (c : Config) (s : GbnSimulator T) :
  valid_config c -> reachable c s ->
  0 <= base (sender s)
  /\ base (sender s) <= next_seq (sender s)
  /\ next_seq (sender s) <= total_packets (sender s)
  /\ next_seq (sender s) - base (sender s) <= window_size (sender s)
  /\ window_size (sender s) = cfg_win c
  /\ total_packets (sender s) = cfg_total c.
Proof.
  intros Hc Hr. destruct (reachable_inv c s Hc Hr). repeat split; try done; lia.
Qed.

(** The invariant of C3 in the run of scenario C, four ticks in. *)
Lemma C3_window_invariant_witness :
  let s := state_after (T:=float) 4 scenario_C in
  0 <= base (sender s)
  /\ base (sender s) <= next_seq (sender s)
  /\ next_seq (sender s) <= total_packets (sender s)
  /\ next_seq (sender s) - base (sender s) <= window_size (sender s)
  /\ window_size (sender s) = cfg_win scenario_C
  /\ total_packets (sender s) = cfg_total scenario_C.
Proof.
  apply (C3_window_invariant scenario_C (state_after 4 scenario_C)).
  - exact valid_scenario_C.
  - apply state_after_reachable.
Defined.

(** C5, amended.  In every state of a run started from a validated
    configuration, as long as no tick has raised (the run is [in_range]:
    the delay has a [float], the number of packets and the clock are at
    most 2^53), the keys of the sender's buffer are exactly the sequence
    numbers in [[0, next_seq)]: every packet ever originated stays
    buffered, so the keys include [[base, next_seq)], each with its DATA
    packet; and the timer is on ([timer_start] is not [-1]) if and only if
    [base <> next_seq].  (A tick that dies of [OverflowError] in
    [send_to_network] leaves the key [next_seq] in the buffer and the timer
    on with [base = next_seq].) *)
Theorem C5_buffer_and_timer {T} `{Clock T} (c : Config) (s : GbnSimulator T) :
  valid_config c -> reachable c s -> in_range c (current_time s) ->
  (forall k, is_Some (buffer (sender s) !! k) <-> 0 <= k < next_seq (sender s))
  /\ (forall k, base (sender s) <= k < next_seq (sender s) ->
        buffer (sender s) !! k = Some (data_packet k))
  /\ (timer_start (sender s) <> -1 <-> base (sender s) <> next_seq (sender s)).
Proof.
  intros Hc Hr _. destruct (reachable_inv c s Hc Hr).
  split; [|split].
  - intros k. rewrite inv_buffer0. case_decide.
    + split; [done | by eexists].
    + split; [by intros [? ?] | done].
  - intros k Hk. rewrite inv_buffer0. by rewrite decide_True by lia.
  - lia.
Qed.

(** The amended C5 in the run of scenario A, three ticks in. *)
Lemma C5_buffer_and_timer_witness :
  let s := state_after (T:=float) 3 scenario_A in
  (forall k, is_Some (buffer (sender s) !! k) <-> 0 <= k < next_seq (sender s))
  /\ (forall k, base (sender s) <= k < next_seq (sender s) ->
        buffer (sender s) !! k = Some (data_packet k))
  /\ (timer_start (sender s) <> -1 <-> base (sender s) <> next_seq (sender s)).
Proof.
  apply (C5_buffer_and_timer scenario_A (state_after 3 scenario_A)).
  - exact valid_scenario_A.
  - apply state_after_reachable.
  - repeat split; vm_compute; congruence.
Defined.

(** C5 as stated fails.  Scenario A is a validated configuration; three
    ticks into its run ACK 0 has been received, [base = next_seq = 1], so
    that [[base, next_seq)] is empty, and the buffer still holds packet
    0. *)
Lemma C5_counterexample :
  valid_config scenario_A
  /\ exists s,
       ticks 3 (start_sim (T:=float) scenario_A) = Some s
       /\ base (sender s) = 1 /\ next_seq (sender s) = 1
       /\ buffer (sender s) !! 0 = Some (data_packet 0)
       /\ ~ (forall k, is_Some (buffer (sender s) !! k)
                       <-> base (sender s) <= k < next_seq (sender s)).
Proof.
  split; [exact valid_scenario_A|].
  eexists. split; [vm_compute; reflexivity|].
  split; [reflexivity|]. split; [reflexivity|]. split; [reflexivity|].
  intros Hall. specialize (Hall 0). simpl in Hall.
  assert (Hsome : is_Some (Some (data_packet 0))) by (by eexists).
  apply Hall in Hsome. lia.
Qed.

(** C7.  A DATA packet with [seq_num > expected_seq] handled by the
    receiver: it is discarded ([expected_seq] and [delivered_count] keep
    their values, the sender is not touched).  Then, with
    [expected_seq > 0] and [last_ack = expected_seq - 1]: if
    [last_ack_sent = last_ack] nothing is sent and the receiver is
    unchanged; otherwise, the two log lines being printed (their numbers
    have at most 4300 digits), [last_ack_sent] becomes [last_ack] and an
    ACK for [last_ack] is offered to the channel at the packet's arrival
    time, with offset 0.0; for a delay that has a [float] the offer
    returns, and the ACK is queued with that send time unless [last_ack]
    is on the ACK loss list.  With [expected_seq = 0] (no
    [expected_seq > 0]) nothing is sent. *)
Theorem C7_out_of_order_data {T} `{Clock T} (s : GbnSimulator T) (a st : T)
    (k : Z) (d : option string) :
  expected_seq (receiver s) < k ->
  let it := mkItem a (mkPacket DATA k d) ToReceiver st in
  let s' := handle_arrival s it in
  let rc := receiver s in
  let last_ack := expected_seq rc - 1 in
  let ack := mkPacket ACK last_ack None in
  expected_seq (receiver s') = expected_seq rc
  /\ delivered_count (receiver s') = delivered_count rc
  /\ sender s' = sender s
  /\ (0 < expected_seq rc -> last_ack_sent rc = last_ack ->
        receiver s' = rc /\ channel s' = channel s)
  /\ (0 < expected_seq rc -> last_ack_sent rc <> last_ack ->
        typable k -> typable (current_time s) ->
        last_ack_sent (receiver s') = last_ack
        /\ (fits_float (delay (channel s)) ->
              channel s' = (send_to_network (channel s) ack ToSender a off0).1
              /\ (last_ack ∉ loss_ack (channel s) ->
                    packet_queue (channel s') =
                      packet_queue (channel s) ++
                        [mkItem (tadd (tadd a off0) (of_int (delay (channel s))))
                                ack ToSender (tadd a off0)])))
  /\ (expected_seq rc <= 0 -> receiver s' = rc /\ channel s' = channel s).
Proof.
  intros Hgt. unfold handle_arrival, receive_data. simpl.
  rewrite decide_False by lia.
  rewrite (decide_False (P := k < expected_seq (receiver s))) by lia.
  destruct (decide (0 < expected_seq (receiver s))) as [Hpos|Hzero].
  - destruct (decide (last_ack_sent (receiver s)
                      = expected_seq (receiver s) - 1)) as [Hsame|Hdiff];
      simpl.
    + repeat split; try done; lia.
    + repeat split; try done; try lia.
      intros Hnin.
      pose proof (send_to_network_loss (channel s)
                    (mkPacket ACK (expected_seq (receiver s) - 1) None)
                    ToSender a off0) as (Hl & _).
      simpl in Hl. rewrite decide_False in Hl by done.
      by destruct Hl as (_ & _ & ->).
  - simpl. repeat split; try done; lia.
Qed.

(** C7 on a receiver that has accepted packet 0 and not acknowledged it
    ([expected_seq = 1], [last_ack_sent = -1]), with nothing on the loss
    lists and a delay of 1, and a DATA packet 2 arriving at time 1.5: ACK 0
    is sent again and queued for time 2.5. *)
Lemma C7_out_of_order_data_witness :
  let s := mkSim (T:=float) true false 2
             (mkSender 3 3 3 0 3 ∅ 0 0 0) (mkReceiver 1 1 (-1))
             (mkChannel [] [] 1 []) [] in
  let it := mkItem 1.5%float (data_packet 2) ToReceiver 0.5%float in
  let s' := handle_arrival s it in
  expected_seq (receiver s') = 1
  /\ last_ack_sent (receiver s') = 0
  /\ packet_queue (channel s')
     = [mkItem 2.5%float (mkPacket ACK 0 None) ToSender 1.5%float].
Proof.
  destruct (C7_out_of_order_data
              (mkSim (T:=float) true false 2
                 (mkSender 3 3 3 0 3 ∅ 0 0 0) (mkReceiver 1 1 (-1))
                 (mkChannel [] [] 1 []) [])
              1.5%float 0.5%float 2 (data (data_packet 2)))
    as (He & _ & _ & _ & Hresend & _).
  - vm_compute. reflexivity.
  - destruct Hresend as (Hlast & Hsend).
    + vm_compute. reflexivity.
    + vm_compute. discriminate.
    + vm_compute. reflexivity.
    + vm_compute. reflexivity.
    + destruct Hsend as (_ & Hqueue); [vm_compute; reflexivity|].
      split; [exact He|]. split; [exact Hlast|].
      etransitivity; [apply Hqueue, not_elem_of_nil|].
      vm_compute. reflexivity.
Defined.

(** C8.  A DATA packet with [seq_num < expected_seq] handled by the
    receiver: the receiver ([expected_seq], [delivered_count],
    [last_ack_sent]) is unchanged, the channel is unchanged (no ACK is
    offered, none queued), the sender is unchanged; only the log gains the
    line of the duplicate. *)
Theorem C8_duplicate_data_ignored {T} `{Clock T} (s : GbnSimulator T)
    (a st : T) (k : Z) (d : option string) :
  k < expected_seq (receiver s) ->
  let it := mkItem a (mkPacket DATA k d) ToReceiver st in
  let s' := handle_arrival s it in
  receiver s' = receiver s
  /\ channel s' = channel s
  /\ sender s' = sender s
  /\ current_time s' = current_time s
  /\ log s' = log s ++ [mkLog (current_time s) T_INFO (ReceiverDuplicate k)].
Proof.
  intros Hlt. unfold handle_arrival, receive_data. simpl.
  rewrite decide_False by lia. by rewrite decide_True by done.
Qed.

(** C8 on scenario C after four ticks ([expected_seq = 3]) and the
    retransmitted DATA packet 0. *)
Lemma C8_duplicate_data_ignored_witness :
  let s := state_after (T:=float) 4 scenario_C in
  let it := mkItem 4%float (data_packet 0) ToReceiver 3%float in
  let s' := handle_arrival s it in
  receiver s' = receiver s
  /\ channel s' = channel s
  /\ sender s' = sender s
  /\ current_time s' = current_time s
  /\ log s' = log s ++ [mkLog (current_time s) T_INFO (ReceiverDuplicate 0)].
Proof.
  apply (C8_duplicate_data_ignored (state_after 4 scenario_C) 4%float 3%float
           0 (data (data_packet 0))).
  vm_compute. reflexivity.
Defined.

(** C10.  In every state of every run [delivered_count = expected_seq].
    Both are 0 in the start state; an arrival that is a DATA packet for
    the receiver with [seq_num = expected_seq] adds one to each, every
    other arrival leaves both as they are; so do the timeout
    retransmission, the sending of new packets, the clock and
    [stop_sim]. *)
Theorem C10_delivered_equals_expected {T} `{Clock T} (c : Config)
    (s : GbnSimulator T) :
  reachable c s ->
  delivered_count (receiver s) = expected_seq (receiver s)
  /\ expected_seq (receiver (start_sim (T:=T) c)) = 0
  /\ delivered_count (receiver (start_sim (T:=T) c)) = 0
  /\ (forall (x : GbnSimulator T) (it : Item T),
        let rc := receiver x in
        let rc' := receiver (handle_arrival x it) in
        if decide (dest it = ToReceiver /\ type (pkt it) = DATA
                   /\ seq_num (pkt it) = expected_seq rc)
        then expected_seq rc' = expected_seq rc + 1
             /\ delivered_count rc' = delivered_count rc + 1
        else expected_seq rc' = expected_seq rc
             /\ delivered_count rc' = delivered_count rc)
  /\ (forall x x' : GbnSimulator T,
        on_timeout x = Some x' -> receiver x' = receiver x)
  /\ (forall x : GbnSimulator T,
        receiver (fill_window x) = receiver x
        /\ receiver (advance_clock x) = receiver x
        /\ receiver (stop_sim x) = receiver x).
Proof.
  intros Hr.
  split; [by eapply reachable_counters|].
  split; [done|]. split; [done|].
  split; [apply handle_arrival_counters|].
  split; [apply on_timeout_receiver|].
  intros x. split; [apply fill_loop_receiver | done].
Qed.

(** C10 in the run of scenario C, three ticks in (three packets
    delivered). *)
Lemma C10_delivered_equals_expected_witness :
  delivered_count (receiver (state_after (T:=float) 3 scenario_C)) = 3
  /\ expected_seq (receiver (state_after (T:=float) 3 scenario_C)) = 3.
Proof.
  pose proof (C10_delivered_equals_expected scenario_C
                (state_after (T:=float) 3 scenario_C)
                (state_after_reachable 3 scenario_C)) as (Heq & _).
  split; [rewrite Heq|]; vm_compute; reflexivity.
Defined.




(** C6, amended.  In a run from a validated configuration that is
    [in_range] (the delay has a [float], the number of packets and the
    clock are at most 2^53: no offer raises [OverflowError]), whenever the
    simulator is running and the sender can send ([next_seq < base +
    window_size] and [next_seq < total_packets]), the tick runs the loop
    that sends new packets (after the timeout branch, if the timer
    expired), and the loop has work to do.  From any state [x] in that
    range ([state_in_range]) that loop makes [rounds] rounds, as many as
    take [next_seq] to the smaller of [base + window_size] and
    [total_packets]: the packets offered to the channel are the DATA
    packets [next_seq], [next_seq + 1], ... in this order, each once, the
    [i]-th with burst offset [burst i]; each is stored in the buffer under
    its sequence number; the log gains one line per packet; [next_seq]
    grows by the number of rounds; [timer_start] becomes the current time
    exactly when some round finds [base = next_seq], and keeps its value
    otherwise; nothing else changes; and the loop stops because its
    condition fails. *)
Theorem C6_fill_window {T} `{Clock T} (c : Config) (s : GbnSimulator T) :
  valid_config c -> reachable c s -> in_range c (current_time s) ->
  running s = true ->
  can_send (sender s) = true ->
  (exists s1,
     (if check_timer (sender s) (current_time s)
      then on_timeout s = Some s1 else s1 = s)
     /\ simulation_tick s
        = Some (advance_clock (process_channel_only (fill_window s1)))
     /\ can_send (sender s1) = true
     /\ (0 < rounds (sender s1))%nat)
  /\ (forall x : GbnSimulator T,
        state_in_range x ->
        let sd := sender x in
        let now := current_time x in
        let m := rounds sd in
        let h := run_ops (channel x) (burst_offers now (next_seq sd) m) in
        let x' := fill_window x in
        Z.of_nat m
        = Z.max 0 (Z.min (base sd + window_size sd) (total_packets sd)
                   - next_seq sd)
        /\ map fst h.2 = map data_packet (seqZ (next_seq sd) (Z.of_nat m))
        /\ channel x' = h.1
        /\ log x' = log x ++ map (send_line now) h.2
        /\ next_seq (sender x') = next_seq sd + Z.of_nat m
        /\ (forall k,
              buffer (sender x') !! k =
                if decide (next_seq sd <= k < next_seq sd + Z.of_nat m)
                then Some (data_packet k) else buffer sd !! k)
        /\ timer_start (sender x') =
             (if decide (next_seq sd <= base sd < next_seq sd + Z.of_nat m)
              then now else timer_start sd)
        /\ (window_size (sender x') = window_size sd
            /\ total_packets (sender x') = total_packets sd
            /\ timeout (sender x') = timeout sd
            /\ base (sender x') = base sd
            /\ retransmissions (sender x') = retransmissions sd
            /\ duplicate_pkts (sender x') = duplicate_pkts sd)
        /\ (receiver x' = receiver x
            /\ running x' = running x
            /\ is_finishing x' = is_finishing x
            /\ current_time x' = current_time x)
        /\ can_send (sender x') = false).
Proof.
  intros Hc Hr _ Hrun Hcan. split.
  - pose proof (reachable_inv c s Hc Hr) as HI.
    pose proof Hcan as Hcan'. apply can_send_true in Hcan'.
    assert (Hnd : base (sender s) <> total_packets (sender s))
      by (destruct HI; lia).
    unfold simulation_tick. rewrite Hrun. simpl.
    rewrite decide_False by done.
    destruct (check_timer (sender s) (current_time s)).
    + destruct (on_timeout_spec c s HI)
        as (s1 & Hto & _ & _ & Hsd & _).
      exists s1. rewrite Hto. simpl.
      assert (Hcan1 : can_send (sender s1) = true).
      { apply can_send_true. rewrite Hsd. simpl. done. }
      repeat split; try done. by apply can_send_rounds.
    + exists s. simpl. repeat split; try done. by apply can_send_rounds.
  - intros x _. simpl.
    split; [unfold rounds; lia|].
    split.
    { rewrite <- offers_from_0. apply run_ops_offers_packets. }
    rewrite <- offers_from_0.
    apply (fill_loop_spec (rounds (sender x))
             (Z.to_nat (total_packets (sender x) - next_seq (sender x)))
             0 x eq_refl).
    unfold rounds. lia.
Qed.

(** C6 at the first tick of scenario C: the three packets are sent with
    offsets 0.0, 0.2 and 0.4 and the timer is started. *)
Lemma C6_fill_window_witness :
  exists s1,
    simulation_tick (start_sim (T:=float) scenario_C)
    = Some (advance_clock (process_channel_only (fill_window s1)))
    /\ next_seq (sender (fill_window s1)) = 3
    /\ timer_start (sender (fill_window s1)) = 0
    /\ map send_time (packet_queue (channel (fill_window s1)))
       = [0%float; 0x1.999999999999ap-3%float; 0x1.999999999999ap-2%float].
Proof.
  destruct (C6_fill_window scenario_C (start_sim (T:=float) scenario_C)
              valid_scenario_C (reach_start scenario_C))
    as ((s1 & Hs1 & Htick & _) & _).
  - repeat split; vm_compute; congruence.
  - reflexivity.
  - reflexivity.
  - exists s1. split; [exact Htick|].
    vm_compute in Hs1. subst s1. vm_compute. repeat split; reflexivity.
Defined.

(** C6 as stated fails.  [overflow_config] is a validated configuration
    whose delay, 10^400, has no [float].  At its first tick the sender can
    send and the timer is off.  The first round of the loop stores DATA 0
    in the buffer, starts the timer and offers the packet, and
    [send_time_float + self.delay] raises [OverflowError]: [next_seq] is
    not incremented, and the tick ends there. *)
Lemma C6_counterexample :
  let s := start_sim (T:=float) overflow_config in
  valid_config overflow_config
  /\ running s = true
  /\ can_send (sender s) = true
  /\ check_timer (sender s) (current_time s) = false
  /\ send_to_network_raising (channel s) (data_packet (next_seq (sender s)))
       ToReceiver (NInt (current_time s)) off0
     = raise OverflowError.
Proof.
  cbv zeta. split.
  { unfold valid_config. simpl. repeat split; try lia; constructor. }
  repeat split; vm_compute; reflexivity.
Qed.

Lemma valid_lossy_config : valid_config lossy_config.
Proof.
  unfold valid_config. simpl.
  repeat split; try lia; repeat (constructor; try lia).
Qed.

(** C4, amended.  In a run from a validated configuration that is
    [in_range] (the delay has a [float], the number of packets and the
    clock are at most 2^53: no offer raises [OverflowError]), let [k] occur
    exactly once in the configured loss list of the packets of type [ty]
    (DATA or ACK).  The offers of the run are those its log records
    ([offers]); no offer goes unrecorded, because the receiver never sends
    an ACK again.  Among the offers of a packet of type [ty] with sequence
    number [k] made so far, the first one, if there is one, was answered by
    DROP, whether it was a first transmission or a retransmission, and
    every later one by SENT: at most one offer was dropped, not exactly
    one.  [k] is still on the loss list exactly when no such offer was made
    yet.  The offers recorded are, in order and with their statuses, the
    calls of [send_to_network] the channel received since the run started
    with the loss lists of the configuration; and a call answered by SENT
    has queued its packet. *)
Theorem C4_loss_is_one_shot {T} `{Clock T} (c : Config) (s : GbnSimulator T)
    (ty : PacketType) (k : Z) :
  valid_config c -> reachable c s -> in_range c (current_time s) ->
  count_occ Z.eq_dec
    (match ty with DATA => cfg_data_drops c | ACK => cfg_ack_drops c end) k
  = 1%nat ->
  let sts := statuses_in ty k (offers (log s)) in
  let ch0 := channel (start_sim (T:=T) c) in
  (sts = [] \/ exists n, sts = DROP :: replicate n SENT)
  /\ (count_occ Status_eq_dec sts DROP <= 1)%nat
  /\ (k ∈ loss_of ty (channel s) <-> sts = [])
  /\ resent_acks (log s) = []
  /\ (exists ops,
        channel s = (run_ops ch0 ops).1
        /\ offers (log s) = map summary (run_ops ch0 ops).2)
  /\ loss_data ch0 = cfg_data_drops c
  /\ loss_ack ch0 = cfg_ack_drops c
  /\ (forall (ch' : Channel T) p d t o,
        fits_float (delay ch') ->
        (send_to_network ch' p d t o).2 = SENT ->
        packet_queue (send_to_network ch' p d t o).1 =
          packet_queue ch' ++
            [mkItem (tadd (tadd t o) (of_int (delay ch'))) p d (tadd t o)]).
Proof.
  intros Hc Hr _ Hone. cbv zeta.
  assert (Hone' : count_occ Z.eq_dec
                    (loss_of ty (channel (start_sim (T:=T) c))) k = 1%nat)
    by (by destruct ty).
  destruct (reachable_traced c s Hc Hr) as (ops & l' & Hch & Hlog & _ & Hof).
  assert (Hoffers : offers (log s)
                    = map summary (run_ops (channel (start_sim c)) ops).2).
  { rewrite Hlog. simpl. exact Hof. }
  rewrite Hoffers, statuses_in_summary.
  pose proof (run_ops_listed_once _ ty k ops Hone') as Hsts.
  pose proof (run_ops_loss_count (channel (start_sim c)) ty k ops)
    as (_ & Hcount).
  rewrite Hone' in Hcount. rewrite <- Hch in Hcount.
  split; [exact Hsts|].
  split.
  { destruct Hsts as [-> | [n ->]]; simpl; [lia|].
    destruct (Status_eq_dec DROP DROP); [|done].
    assert (Hz : forall n, count_occ Status_eq_dec (replicate n SENT) DROP = 0%nat).
    { clear. induction n as [|n IH]; simpl; [done|].
      by destruct (Status_eq_dec SENT DROP). }
    rewrite Hz. lia. }
  split.
  { rewrite count_occ_elem_of, Hcount.
    destruct (statuses_of ty k _) as [|st sts]; simpl; split; try done; lia. }
  split; [by destruct (reachable_ledger c s Hr)|].
  split; [by exists ops|].
  split; [done|]. split; [done|].
  intros ch' p d t o _ Hsent.
  destruct (send_to_network_cases ch' p d t o) as [Heq | (ld & la & Heq)];
    rewrite Heq in Hsent |- *; [done | discriminate].
Qed.

(** C4 in the run of [lossy_config], whose DATA loss list is [[0]], four
    ticks in: DATA 0 was dropped at time 0 and sent again at time 3. *)
Lemma C4_loss_is_one_shot_witness :
  let s := state_after (T:=float) 4 lossy_config in
  statuses_in DATA 0 (offers (log s)) = [DROP; SENT]
  /\ (count_occ Status_eq_dec (statuses_in DATA 0 (offers (log s))) DROP
      <= 1)%nat
  /\ 0 ∉ loss_data (channel s).
Proof.
  destruct (C4_loss_is_one_shot lossy_config
              (state_after (T:=float) 4 lossy_config) DATA 0
              valid_lossy_config (state_after_reachable 4 lossy_config))
    as (_ & Hle & Hin & _).
  - repeat split; vm_compute; congruence.
  - reflexivity.
  - split; [vm_compute; reflexivity|]. split; [exact Hle|].
    intros Hk. apply Hin in Hk. vm_compute in Hk. discriminate.
Defined.

Lemma no_offer_logged k (l : list LogEntry) :
  Forall (fun e => offers_data k (log_msg e) = false) l ->
  existsb (offers_data k) (map log_msg l) = false.
Proof.
  induction 1 as [|e l He _ IH]; simpl; [done|]. by rewrite He, IH.
Qed.

(** C4 as stated fails.  [stalled_config] is a validated configuration in
    which 1 occurs exactly once in the DATA loss list.  Its run never
    ends and never offers DATA 1 to the channel: ACK 0 is dropped, the
    receiver ignores every retransmitted DATA 0 without acknowledging it,
    and the window of one never moves.  After every number of ticks (up
    to 2^53, the range of the engine) 1 is still on the loss list and the
    log has no line of an offer of DATA 1: no offer of DATA 1 was dropped,
    not exactly one. *)
Lemma C4_counterexample :
  valid_config stalled_config
  /\ count_occ Z.eq_dec (cfg_data_drops stalled_config) 1 = 1%nat
  /\ forall n, in_range stalled_config (Z.of_nat n) -> exists s,
       ticks n (start_sim (T:=float) stalled_config) = Some s
       /\ running s = true
       /\ loss_data (channel s) = [1]
       /\ next_seq (sender s) <= 1
       /\ existsb (offers_data 1) (map log_msg (log s)) = false.
Proof.
  split; [exact valid_stalled_config|]. split; [reflexivity|].
  intros [|n] _.
  - eexists. split; [reflexivity|]. by vm_compute.
  - destruct (stalled_run (T:=float) n) as (s & Hrun & HS).
    exists s. split; [exact Hrun|].
    destruct HS. repeat split; try done; try lia.
    by apply no_offer_logged.
Qed.

(** The run of scenario C in binary64 arithmetic has settled after six
    ticks. *)
Lemma scenario_C_settled :
  exists s6,
    ticks 6 (start_sim (T:=float) scenario_C) = Some s6
    /\ settled s6
    /\ base (sender s6) = 3
    /\ retransmissions (sender s6) = 1
    /\ expected_seq (receiver s6) = 3
    /\ delivered_count (receiver s6) = 3
    /\ logged (SenderReceivedAck 0) (log s6) = false
    /\ logged (ResendingAck 0) (log s6) = false.
Proof.
  eexists. split; [vm_compute; reflexivity|].
  vm_compute. repeat split; reflexivity.
Qed.

(** C9, amended.  The run of scenario C (three packets, window 3, delay 1,
    timeout 3, ACK 0 lost once), in Python's binary64 arithmetic.  Its log
    after six ticks is the list below: DATA 0 is delivered at time 1 and
    its ACK 0 is dropped by the channel; DATA 1 and 2 are delivered at
    time 2; at time 3 the timeout fires and DATA 0, 1, 2 are
    retransmitted, and in the same tick the sender receives ACK 1 and
    ACK 2 of the first transmissions, which take [base] from 0 past 1 to 2
    and then to 3; the retransmitted DATA 0, 1, 2 are ignored as
    duplicates at times 4 and 5 and no ACK is sent for them.  At the end
    of the ticks [base] is 0, 0, 0, 0, 3, 3, 3: it is never 1, no ACK 0
    ever reaches the sender, and from the fourth tick on, for ever,
    [base = 3] with three packets delivered and one timeout. *)
Theorem C9_scenario_C :
  let run := fun n => ticks n (start_sim (T:=float) scenario_C) in
  (exists s, run 6%nat = Some s
     /\ map (fun e => (log_time e, log_msg e)) (log s) =
        [(0, SimulationStarted);
         (0, SenderData 0); (0, SenderData 1); (0, SenderData 2);
         (1, ReceiverExpected 0); (1, AckDropped 0);
         (2, ReceiverExpected 1); (2, ReceiverExpected 2);
         (3, TimeoutPacket 0);
         (3, RetransmittingData 0); (3, RetransmittingData 1);
         (3, RetransmittingData 2);
         (3, SenderReceivedAck 1); (3, SenderReceivedAck 2);
         (4, AllPacketsAcknowledged);
         (4, ReceiverDuplicate 0);
         (5, ReceiverDuplicate 1); (5, ReceiverDuplicate 2)])
  /\ map (fun n => (fun s => base (sender s)) <$> run n) (seq 0 7)
     = [Some 0; Some 0; Some 0; Some 0; Some 3; Some 3; Some 3]
  /\ (forall n, (4 <= n)%nat ->
        exists s, run n = Some s
          /\ base (sender s) = 3
          /\ expected_seq (receiver s) = 3
          /\ delivered_count (receiver s) = 3
          /\ retransmissions (sender s) = 1
          /\ logged (SenderReceivedAck 0) (log s) = false).
Proof.
  cbv beta zeta. split.
  { eexists. split; [vm_compute; reflexivity|]. vm_compute. reflexivity. }
  split; [vm_compute; reflexivity|].
  intros n Hn.
  destruct scenario_C_settled
    as (s6 & H6 & Hset & Hb & Hre & He & Hd & Hl & _).
  destruct (decide (n < 6)%nat) as [Hlt|Hge].
  - assert (Hcases : n = 4%nat \/ n = 5%nat) by lia.
    destruct Hcases as [-> | ->];
      (eexists; split; [vm_compute; reflexivity|];
       vm_compute; repeat split; reflexivity).
  - destruct (ticks_settled scenario_C 6 s6 H6 Hset (n - 6))
      as (s & Hrun & _ & Hsd & Hrc & _ & Hlg).
    replace (n - 6 + 6)%nat with n in Hrun by lia.
    exists s. split; [exact Hrun|].
    rewrite Hsd, Hrc, Hlg. clear H6 Hrun. repeat split; assumption.
Qed.

(** C9 as stated fails.  In the run of scenario C no tick ends with
    [base = 1], the sender never receives an ACK 0, and the receiver never
    sends ACK 0 again: [base] does not advance to 1 after a retransmitted
    DATA 0 is acknowledged, it goes from 0 to 3 within the tick of time 3
    on the ACKs of packets 1 and 2. *)
Lemma C9_counterexample :
  valid_config scenario_C
  /\ forall n, exists s,
       ticks n (start_sim (T:=float) scenario_C) = Some s
       /\ base (sender s) <> 1
       /\ logged (SenderReceivedAck 0) (log s) = false
       /\ logged (ResendingAck 0) (log s) = false.
Proof.
  split; [exact valid_scenario_C|].
  intros n.
  destruct scenario_C_settled
    as (s6 & H6 & Hset & Hb & _ & _ & _ & Hl & Hl').
  destruct (decide (n < 6)%nat) as [Hlt|Hge].
  - assert (Hcases : n = 0%nat \/ n = 1%nat \/ n = 2%nat \/ n = 3%nat
                     \/ n = 4%nat \/ n = 5%nat) by lia.
    destruct Hcases as [-> | [-> | [-> | [-> | [-> | ->]]]]];
      (eexists; split; [vm_compute; reflexivity|];
       vm_compute; repeat split; discriminate || reflexivity).
  - destruct (ticks_settled scenario_C 6 s6 H6 Hset (n - 6))
      as (s & Hrun & _ & Hsd & _ & _ & Hlg).
    replace (n - 6 + 6)%nat with n in Hrun by lia.
    exists s. split; [exact Hrun|].
    rewrite Hsd, Hlg, Hb. clear H6 Hrun.
    split; [discriminate|]. split; assumption.
Qed.

(** * Further properties of the code *)

(** ** Runs of any configuration *)

Section AnyConfiguration.

Context {T : Type} `{Clock T}.
Implicit Types (s : GbnSimulator T) (ch : Channel T) (it : Item T).

Lemma process_channel_only_empty s :
  packet_queue (channel s) = [] -> process_channel_only s = s.
Proof.
  intros Hq. unfold process_channel_only, get_delivered_packets.
  rewrite Hq. simpl.
  destruct s as [r f t sd rc [ld la dl q] lg]. simpl in *. by subst.
Qed.

Lemma start_sim_inv_sizes c :
  0 <= cfg_total c -> 0 <= cfg_win c -> Inv c (start_sim (T:=T) c).
Proof.
  intros Ht Hw. constructor; simpl; try done; try lia.
  intros k. rewrite lookup_empty. case_decide; [lia | done].
Qed.

Lemma start_sim_idle c :
  cfg_win c < 0 \/ cfg_total c < 0 -> Idle c (start_sim (T:=T) c).
Proof. intros Hs. by constructor. Qed.

Lemma idle_fill_window c s : Idle c s -> fill_window s = s.
Proof.
  intros HI. unfold fill_window.
  assert (Hno : can_send (sender s) = false).
  { destruct (can_send (sender s)) eqn:Hc; [|done].
    apply can_send_true in Hc. destruct HI. lia. }
  destruct (Z.to_nat _); simpl; [done | by rewrite Hno].
Qed.

Lemma idle_simulation_tick c s :
  Idle c s -> exists s', simulation_tick s = Some s' /\ Idle c s'.
Proof.
  intros HI. unfold simulation_tick.
  destruct (running s); simpl; [|eauto].
  case_decide as Hdone.
  - eexists; split; [done|].
    rewrite process_channel_only_empty
      by (destruct (is_finishing s); simpl; by destruct HI).
    destruct HI. destruct (is_finishing s); constructor; simpl; try done; lia.
  - assert (Hct : check_timer (sender s) (current_time s) = false).
    { unfold check_timer. rewrite decide_True; [done|]. destruct HI. lia. }
    rewrite Hct. simpl. eexists; split; [done|].
    rewrite (idle_fill_window c s HI).
    rewrite process_channel_only_empty by (by destruct HI).
    destruct HI. constructor; simpl; try done; lia.
Qed.

(** Every state of every run is in one of the two invariants. *)
Lemma reachable_sane c s : reachable c s -> Inv c s \/ Idle c s.
Proof.
  induction 1 as [|s s' _ IH Hstep].
  - destruct (decide (0 <= cfg_total c /\ 0 <= cfg_win c)) as [[Ht Hw]|Hneg].
    + left. by apply start_sim_inv_sizes.
    + right. apply start_sim_idle. lia.
  - destruct IH as [HI|HI].
    + left. by eapply step_inv.
    + right. destruct Hstep as [s0 s1 Htick | s0].
      * destruct (idle_simulation_tick c s0 HI) as (s2 & Heq & HI2). congruence.
      * destruct HI. by constructor.
Qed.

End AnyConfiguration.

(** ** What a step may change *)

Section Steps.

Context {T : Type} `{Clock T}.
Implicit Types (s : GbnSimulator T) (ch : Channel T) (it : Item T).

Lemma advances_refl s : Advances s s.
Proof. constructor; done. Qed.

Lemma advances_trans s1 s2 s3 :
  Advances s1 s2 -> Advances s2 s3 -> Advances s1 s3.
Proof.
  intros [] []. constructor; try lia; try congruence; by etrans.
Qed.

Lemma remove_first_sublist k (l : list Z) : remove_first k l `sublist_of` l.
Proof.
  induction l as [|y l IH]; simpl; [done|].
  case_decide; [by apply sublist_cons | by apply sublist_skip].
Qed.

(** An offer changes no delay and adds to no loss list. *)
Lemma send_to_network_shrinks ch p d t o :
  loss_data (send_to_network ch p d t o).1 `sublist_of` loss_data ch
  /\ loss_ack (send_to_network ch p d t o).1 `sublist_of` loss_ack ch
  /\ delay (send_to_network ch p d t o).1 = delay ch.
Proof.
  unfold send_to_network.
  destruct (type p); case_decide; simpl;
    repeat split; try done; apply remove_first_sublist.
Qed.

Lemma advances_add_log s tag m : Advances s (add_log s tag m).
Proof. constructor; simpl; try done. by apply prefix_app_r. Qed.

Lemma advances_handle_arrival s it : Advances s (handle_arrival s it).
Proof.
  unfold handle_arrival, receive_data, receive_ack.
  destruct (dest it), (type (pkt it)); simpl; try apply advances_refl.
  - repeat case_decide; simpl.
    + pose proof (send_to_network_shrinks (channel s)
                    (mkPacket ACK (seq_num (pkt it)) None) ToSender
                    (arrival_time it) off0) as (Hd & Ha & Hdl).
      destruct (send_to_network _ _ _ _ _) as [ch [|]]; simpl in *;
        constructor; simpl; try done; try lia;
        rewrite <- ?app_assoc; by apply prefix_app_r.
    + apply advances_add_log.
    + constructor; simpl; try done. rewrite <- app_assoc. by apply prefix_app_r.
    + pose proof (send_to_network_shrinks (channel s)
                    (mkPacket ACK (expected_seq (receiver s) - 1) None)
                    ToSender (arrival_time it) off0) as (Hd & Ha & Hdl).
      constructor; simpl; try done.
      rewrite <- app_assoc. by apply prefix_app_r.
    + apply advances_add_log.
  - case_decide; simpl.
    + constructor; simpl; try done; try lia. by apply prefix_app_r.
    + apply advances_add_log.
Qed.

Lemma advances_process_channel_only s : Advances s (process_channel_only s).
Proof.
  unfold process_channel_only. rewrite get_delivered_packets_spec.
  eapply advances_trans with
    (s2 := with_channel s
      (mkChannel (loss_data (channel s)) (loss_ack (channel s))
         (delay (channel s))
         (List.filter
            (fun it => negb (tleb (arrival_time it) (of_int (current_time s))))
            (packet_queue (channel s))))).
  - constructor; simpl; done.
  - generalize (with_channel s
      (mkChannel (loss_data (channel s)) (loss_ack (channel s))
         (delay (channel s))
         (List.filter
            (fun it => negb (tleb (arrival_time it) (of_int (current_time s))))
            (packet_queue (channel s))))).
    generalize (List.filter
                  (fun it => tleb (arrival_time it) (of_int (current_time s)))
                  (packet_queue (channel s))).
    clear. intros arrivals.
    induction arrivals as [|it l IH]; intros s; simpl; [apply advances_refl|].
    eapply advances_trans; [apply advances_handle_arrival | apply IH].
Qed.

Lemma advances_retransmit_loop seqs off s s' :
  retransmit_loop seqs off s = Some s' -> Advances s s'.
Proof.
  revert off s. induction seqs as [|k rest IH]; intros off s; simpl.
  - intros [= <-]. apply advances_refl.
  - destruct (buffer (sender s) !! k) as [p|]; [|done].
    pose proof (send_to_network_shrinks (channel s) p ToReceiver
                  (of_int (current_time s)) off) as (Hd & Ha & Hdl).
    destruct (send_to_network _ _ _ _ _) as [ch st]; simpl in *.
    intros Hrun. apply IH in Hrun.
    eapply advances_trans; [|exact Hrun].
    destruct st; constructor; simpl; try done; try lia; by apply prefix_app_r.
Qed.

Lemma advances_on_timeout s s' : on_timeout s = Some s' -> Advances s s'.
Proof.
  unfold on_timeout. intros Hrun. apply advances_retransmit_loop in Hrun.
  eapply advances_trans; [|exact Hrun].
  constructor; simpl; try done; try lia. by apply prefix_app_r.
Qed.

Lemma advances_send_new off s : Advances s (send_new off s).
Proof.
  rewrite send_new_eq.
  pose proof (send_to_network_shrinks (channel s)
                (data_packet (next_seq (sender s))) ToReceiver
                (of_int (current_time s)) off) as (Hd & Ha & Hdl).
  constructor; simpl; try done; try lia. by apply prefix_app_r.
Qed.

Lemma advances_fill_loop fuel off s : Advances s (fill_loop fuel off s).
Proof.
  revert off s. induction fuel as [|fuel IH]; intros off s; simpl.
  - apply advances_refl.
  - destruct (can_send (sender s)); [|apply advances_refl].
    eapply advances_trans; [apply advances_send_new | apply IH].
Qed.

Lemma advances_advance_clock s : Advances s (advance_clock s).
Proof. constructor; simpl; try done; lia. Qed.

Lemma advances_simulation_tick s s' :
  simulation_tick s = Some s' -> Advances s s'.
Proof.
  unfold simulation_tick.
  destruct (running s); simpl; [|intros [= <-]; apply advances_refl].
  case_decide.
  - intros [= <-].
    eapply advances_trans; [|apply advances_advance_clock].
    eapply advances_trans; [|apply advances_process_channel_only].
    destruct (is_finishing s); simpl; [apply advances_refl|].
    constructor; simpl; try done. by apply prefix_app_r.
  - destruct (check_timer _ _).
    + destruct (on_timeout s) as [s1|] eqn:Hto; simpl; [|done].
      intros [= <-].
      eapply advances_trans; [by apply advances_on_timeout|].
      eapply advances_trans; [apply advances_fill_loop|].
      eapply advances_trans;
        [apply advances_process_channel_only | apply advances_advance_clock].
    + simpl. intros [= <-].
      eapply advances_trans; [apply advances_fill_loop|].
      eapply advances_trans;
        [apply advances_process_channel_only | apply advances_advance_clock].
Qed.

Lemma advances_step s s' : step s s' -> Advances s s'.
Proof.
  intros [s0 s1 Htick | s0]; [by apply advances_simulation_tick|].
  constructor; simpl; try done. by apply prefix_app_r.
Qed.

End Steps.

(** ** More on the channel *)

Section ChannelFacts.

Context {T : Type} `{Clock T}.
Implicit Types (s : GbnSimulator T) (ch : Channel T) (it : Item T).

(** X8.  Loss lists with repetitions.  Let the delay of the channel have
    a [float] (so that an offer that is not dropped returns: otherwise it
    raises [OverflowError]).  If [k] occurs [c] times on the loss list of
    the packets of type [ty], then, whatever sequence of calls the channel
    receives, the first [c] offers of a packet of type [ty] with sequence
    number [k] return DROP and all the later ones return SENT; each DROP
    takes one occurrence of [k] off the list, and nothing else changes the
    number of occurrences. *)
Theorem X8_loss_multiplicity ch ty k ops :
  fits_float (delay ch) ->
  let c := count_occ Z.eq_dec (loss_of ty ch) k in
  let sts := statuses_of ty k (run_ops ch ops).2 in
  sts = replicate (c `min` length sts) DROP
        ++ replicate (length sts - c) SENT
  /\ count_occ Z.eq_dec (loss_of ty (run_ops ch ops).1) k
     = (c - length sts)%nat.
Proof. intros _. apply run_ops_loss_count. Qed.

Lemma list_filter_sublist {A} (f : A -> bool) (l : list A) :
  List.filter f l `sublist_of` l.
Proof.
  induction l as [|a l IH]; simpl; [done|].
  destruct (f a); [by apply sublist_skip | by apply sublist_cons].
Qed.

Lemma list_filter_split {A} (f : A -> bool) (l : list A) :
  List.filter f l ++ List.filter (fun x => negb (f x)) l ≡ₚ l.
Proof.
  induction l as [|a l IH]; simpl; [done|].
  destruct (f a); simpl.
  - by rewrite IH.
  - by rewrite <- Permutation_middle, IH.
Qed.

Lemma list_filter_all {A} (f : A -> bool) (l : list A) :
  Forall (fun x => f x = true) (List.filter f l).
Proof.
  induction l as [|a l IH]; simpl; [constructor|].
  destruct (f a) eqn:Hf; [by constructor | done].
Qed.

Lemma list_filter_none {A} (f : A -> bool) (l : list A) :
  Forall (fun x => f x = false) l -> List.filter f l = [].
Proof.
  induction 1 as [|a l Ha _ IH]; simpl; [done|]. by rewrite Ha.
Qed.

Lemma list_filter_id {A} (f : A -> bool) (l : list A) :
  Forall (fun x => f x = true) l -> List.filter f l = l.
Proof.
  induction 1 as [|a l Ha _ IH]; simpl; [done|]. by rewrite Ha, IH.
Qed.

Lemma transit_ok_send ch p d t o :
  transit_ok ch -> transit_ok (send_to_network ch p d t o).1.
Proof.
  unfold transit_ok. intros Hq.
  destruct (send_to_network_cases ch p d t o) as [-> | (ld & la & ->)]; simpl.
  - apply Forall_app; split; [done | by repeat constructor].
  - done.
Qed.

Lemma transit_ok_deliver ch now :
  transit_ok ch -> transit_ok (get_delivered_packets ch now).2.
Proof.
  unfold transit_ok. rewrite get_delivered_packets_spec. simpl.
  apply Forall_list_filter.
Qed.

Lemma transit_ok_history ch ch' :
  history ch ch' -> transit_ok ch -> transit_ok ch'.
Proof.
  intros [ops ->]. revert ch.
  induction ops as [|[p d t o|now] ops IH]; intros ch Hok; simpl; [done| |].
  - pose proof (transit_ok_send ch p d t o Hok) as Hok1.
    destruct (send_to_network ch p d t o) as [ch1 st]. simpl in Hok1.
    specialize (IH ch1 Hok1). by destruct (run_ops ch1 ops).
  - by apply IH, transit_ok_deliver.
Qed.

End ChannelFacts.

(** X17.  The function [send_to_network] of the engine and the method
    with its exceptions.  The method calls nothing on the canvas.  An
    offer of a packet that is on its loss list is dropped and never
    raises.  An offer whose delay and clock can be added as floats
    ([convertible]) returns.  In both cases the method returns what
    [send_to_network] does, for the clock as a time stamp.  Every other
    offer raises [OverflowError]. *)
Theorem X17_send_raises_out_of_range (ch : Channel float) (p : Packet)
    (d : Destination) (now : Num) (o : float) :
  let listed := seq_num p ∈ loss_of (type p) ch in
  let r := send_to_network_raising ch p d now o in
  calls r = []
  /\ (listed \/ convertible ch now ->
        outcome r = inr (send_to_network ch p d (time_stamp now) o))
  /\ (listed -> (send_to_network ch p d (time_stamp now) o).2 = DROP)
  /\ (~ listed -> ~ convertible ch now -> outcome r = inl OverflowError).
Proof.
  cbv zeta.
  unfold convertible, send_to_network_raising, send_to_network, loss_of.
  destruct (type p);
    (destruct (decide (seq_num p ∈ _)) as [Hin|Hnin];
     [simpl; repeat split; try done; tauto|]);
    destruct now as [z|f]; unfold num_add, to_float, float_of_int;
    destruct (decide (fits_float (delay ch))) as [Hd|Hd];
    try destruct (decide (fits_float z)) as [Hz|Hz];
    simpl; repeat split; try done; try tauto.
Qed.

(** X8 on a channel that lists DATA 0 twice: of three offers of DATA 0 the
    first two are dropped and the third is sent. *)
Lemma X8_loss_multiplicity_witness :
  let ch := mkChannel (T:=float) [0; 0] [] 1 [] in
  let ops := [OpSend (data_packet 0) ToReceiver 0%float 0%float;
              OpSend (data_packet 0) ToReceiver 3%float 0%float;
              OpDeliver 4;
              OpSend (data_packet 0) ToReceiver 6%float 0%float] in
  statuses_of DATA 0 (run_ops ch ops).2 = [DROP; DROP; SENT]
  /\ count_occ Z.eq_dec (loss_of DATA (run_ops ch ops).1) 0 = 0%nat.
Proof.
  destruct (X8_loss_multiplicity (mkChannel (T:=float) [0; 0] [] 1 []) DATA 0
              [OpSend (data_packet 0) ToReceiver 0%float 0%float;
               OpSend (data_packet 0) ToReceiver 3%float 0%float;
               OpDeliver 4;
               OpSend (data_packet 0) ToReceiver 6%float 0%float])
    as (Hsts & Hcount).
  - vm_compute. reflexivity.
  - split; [rewrite Hsts | rewrite Hcount]; vm_compute; reflexivity.
Defined.

(** ** A lost acknowledgement that is never made up for *)

Section BlockedRuns.

Context {T : Type} `{Clock T}.
Implicit Types (s : GbnSimulator T) (ch : Channel T) (it : Item T).

Lemma elem_of_remove_first_ne (k k' : Z) (l : list Z) :
  k <> k' -> k ∈ l -> k ∈ remove_first k' l.
Proof.
  intros Hne. rewrite !count_occ_elem_of.
  by rewrite count_occ_remove_first_ne.
Qed.

(** A burst of DATA packets leaves the ACK loss list alone and queues DATA
    packets only. *)
Lemma burst_keeps_acks ch now first j n (P : Item T -> Prop) :
  (forall it, type (pkt it) = DATA -> P it) ->
  Forall P (packet_queue ch) ->
  loss_ack (run_ops ch (offers_from now first j n)).1 = loss_ack ch
  /\ Forall P (packet_queue (run_ops ch (offers_from now first j n)).1).
Proof.
  intros HP. revert ch first j. induction n as [|n IH]; intros ch first j Hq.
  - done.
  - rewrite offers_from_S. simpl.
    pose proof (send_to_network_loss ch (data_packet first) ToReceiver
                  (of_int now) (burst j)) as (_ & Hother & _).
    specialize (Hother ACK ltac:(done)). simpl in Hother.
    assert (Hq1 : Forall P (packet_queue
                    (send_to_network ch (data_packet first) ToReceiver
                       (of_int now) (burst j)).1)).
    { destruct (send_to_network_cases ch (data_packet first) ToReceiver
                  (of_int now) (burst j)) as [-> | (ld & la & ->)]; simpl.
      - apply Forall_app; split; [done|]. constructor; [|done]. by apply HP.
      - done. }
    destruct (send_to_network _ _ _ _ _) as [ch1 st]. simpl in *.
    specialize (IH ch1 (first + 1) (S j) Hq1).
    destruct (run_ops ch1 _) as [ch2 tr]. simpl in *.
    destruct IH as [-> Hq2]. done.
Qed.

Lemma blocked_handle_arrival c k s it :
  Inv c s -> Blocked k s ->
  item_ok (next_seq (sender s)) (expected_seq (receiver s)) it ->
  (type (pkt it) = ACK -> seq_num (pkt it) < k) ->
  Blocked k (handle_arrival s it).
Proof.
  intros HI [Hb Hn Hl Hq Hf] Hok Hack.
  unfold item_ok in Hok. unfold handle_arrival, receive_data, receive_ack.
  destruct (dest it) eqn:Hd, (type (pkt it)) eqn:Ht; simpl; try done.
  - destruct (decide (seq_num (pkt it) = expected_seq (receiver s)))
      as [Heq|Hne].
    + pose proof (send_to_network_loss (channel s)
                    (mkPacket ACK (seq_num (pkt it)) None) ToSender
                    (arrival_time it) off0) as (Hsame & _).
      simpl in Hsame.
      destruct (send_to_network _ _ _ _ _) as [ch st]. simpl in Hsame.
      destruct (decide (seq_num (pkt it) ∈ loss_ack (channel s)))
        as [Hin|Hnin].
      * destruct Hsame as (-> & Hla & Hqu).
        constructor; simpl; try done.
        -- intros Hle. rewrite Hla.
           apply elem_of_remove_first_ne; [lia|]. apply Hl. lia.
        -- by rewrite Hqu.
      * destruct Hsame as (-> & Hla & Hqu).
        assert (Hlt : seq_num (pkt it) < k).
        { destruct (decide (seq_num (pkt it) < k)) as [|Hge]; [done|].
          assert (seq_num (pkt it) = k) by lia.
          exfalso. apply Hnin. replace (seq_num (pkt it)) with k.
          apply Hl. lia. }
        constructor; simpl; try done.
        -- intros Hle. rewrite Hla. apply Hl. lia.
        -- rewrite Hqu. apply Forall_app; split; [done|].
           constructor; [|done]. by simpl.
    + case_decide; [by constructor|].
      case_decide; [|by constructor].
      rewrite decide_True by (by destruct HI).
      by constructor.
  - case_decide; constructor; simpl; try done.
    specialize (Hack eq_refl). lia.
Qed.

Lemma blocked_process_channel_only c k s :
  Inv c s -> Blocked k s -> Blocked k (process_channel_only s).
Proof.
  intros HI HB. unfold process_channel_only.
  rewrite get_delivered_packets_spec.
  set (s0 := with_channel s _).
  set (arrivals := List.filter _ _).
  assert (HI0 : Inv c s0).
  { destruct HI. constructor; simpl; try done. by apply Forall_list_filter. }
  assert (HB0 : Blocked k s0).
  { destruct HB. constructor; simpl; try done. by apply Forall_list_filter. }
  assert (Hok : Forall (item_ok (next_seq (sender s0))
                          (expected_seq (receiver s0))) arrivals).
  { apply Forall_list_filter. by destruct HI. }
  assert (Hack : Forall (fun it => type (pkt it) = ACK -> seq_num (pkt it) < k)
                        arrivals).
  { apply Forall_list_filter. by destruct HB. }
  clearbody s0 arrivals. clear HI HB s.
  revert s0 HI0 HB0 Hok. induction Hack as [|it l Hit _ IH];
    intros s HI HB Hok; simpl; [done|].
  inversion Hok as [|? ? Hokit Hokl]; subst.
  apply IH.
  - by apply handle_arrival_inv.
  - by eapply blocked_handle_arrival.
  - destruct (handle_arrival_mono s it) as [-> Hle].
    eapply Forall_impl; [exact Hokl|].
    intros x Hx. eapply item_ok_mono; [| |exact Hx]; lia.
Qed.

Lemma blocked_on_timeout c k s s1 :
  Inv c s -> Blocked k s -> on_timeout s = Some s1 -> Blocked k s1.
Proof.
  intros HI [Hb Hn Hl Hq Hf] Hto.
  destruct (on_timeout_spec c s HI)
    as (s1' & Hto' & Hch & _ & Hsd & Hrc & _ & Hfin & _).
  assert (s1' = s1) by congruence. subst s1'.
  rewrite <- offers_from_0 in Hch.
  destruct (burst_keeps_acks (channel s) (current_time s) (base (sender s))
              0 (Z.to_nat (next_seq (sender s) - base (sender s)))
              (fun it => type (pkt it) = ACK -> seq_num (pkt it) < k))
    as [Hla Hqu]; [by intros it -> | done |].
  constructor; rewrite ?Hsd, ?Hrc, ?Hch, ?Hfin, ?Hla; simpl; done.
Qed.

Lemma blocked_fill_window c k s :
  Inv c s -> Blocked k s -> cfg_win c = 1 \/ cfg_total c = k + 1 ->
  Blocked k (fill_window s).
Proof.
  intros HI [Hb Hn Hl Hq Hf] Hsize.
  destruct (fill_loop_spec (rounds (sender s))
              (Z.to_nat (total_packets (sender s) - next_seq (sender s)))
              0 s eq_refl ltac:(unfold rounds; lia))
    as (Hch & _ & Hns & _ & _ & (_ & _ & _ & Hbase & _)
        & (Hrc & _ & Hfin & _) & _).
  unfold fill_window. change off0 with (burst (T:=T) 0).
  destruct (burst_keeps_acks (channel s) (current_time s)
              (next_seq (sender s)) 0 (rounds (sender s))
              (fun it => type (pkt it) = ACK -> seq_num (pkt it) < k))
    as [Hla Hqu]; [by intros it -> | done |].
  constructor; rewrite ?Hbase, ?Hns, ?Hrc, ?Hch, ?Hfin, ?Hla; try done.
  unfold rounds. destruct HI. lia.
Qed.

Lemma blocked_simulation_tick c k s s' :
  Inv c s -> Blocked k s -> cfg_win c = 1 \/ cfg_total c = k + 1 ->
  k < cfg_total c ->
  simulation_tick s = Some s' -> Blocked k s'.
Proof.
  intros HI HB Hsize Hk. unfold simulation_tick.
  destruct (running s); simpl; [|by intros [= <-]].
  rewrite decide_False by (destruct HI, HB; lia).
  assert (Hadv : forall x : GbnSimulator T,
            Blocked k x -> Blocked k (advance_clock x))
    by (intros x []; by constructor).
  destruct (check_timer _ _) eqn:Hct.
  - destruct (on_timeout s) as [s1|] eqn:Hto; simpl; [|done].
    intros [= <-].
    destruct (on_timeout_inv c s HI) as (s1' & Hto' & HI1).
    { unfold check_timer in Hct. by case_decide. }
    assert (s1' = s1) by congruence. subst s1'.
    apply Hadv, (blocked_process_channel_only c);
      [by apply fill_window_inv|].
    apply (blocked_fill_window c k s1 HI1); [|exact Hsize].
    exact (blocked_on_timeout c k s s1 HI HB Hto).
  - simpl. intros [= <-].
    apply Hadv, (blocked_process_channel_only c);
      [by apply fill_window_inv|].
    exact (blocked_fill_window c k s HI HB Hsize).
Qed.

Lemma reachable_blocked c k s :
  valid_config c -> k ∈ cfg_ack_drops c ->
  cfg_win c = 1 \/ cfg_total c = k + 1 ->
  reachable c s -> Blocked k s.
Proof.
  intros Hc Hin Hsize Hr.
  assert (Hk : 0 <= k < cfg_total c).
  { destruct Hc as (_ & _ & _ & _ & _ & Hacks).
    rewrite Forall_forall in Hacks. by apply Hacks. }
  induction Hr as [|s s' Hr IH Hstep].
  - constructor; simpl; try done; lia.
  - pose proof (reachable_inv c s Hc Hr) as HI.
    destruct Hstep as [s0 s1 Htick | s0].
    + eapply blocked_simulation_tick; try done. lia.
    + destruct IH. by constructor.
Qed.

End BlockedRuns.

(** ** The pace of the timeouts *)

Section PacedRuns.

Context {T : Type} `{Clock T}.
Implicit Types (s : GbnSimulator T) (ch : Channel T) (it : Item T).

Lemma spaced_snoc d ts t' :
  spaced d ts -> (forall t, last ts = Some t -> t + d <= t') ->
  spaced d (ts ++ [t']).
Proof.
  induction ts as [|t [|t2 rest] IH]; intros Hs Hl; simpl in *.
  - done.
  - split; [by apply Hl | done].
  - destruct Hs as [Ht Hs]. split; [done|]. by apply IH.
Qed.

Lemma timeout_times_snoc l e :
  timeout_times (l ++ [e]) =
    timeout_times l ++
      match log_msg e with TimeoutPacket _ => [log_time e] | _ => [] end.
Proof.
  unfold timeout_times. rewrite omap_app. simpl. by destruct (log_msg e).
Qed.

(** Handling arrivals, from a state of the invariant, keeps a property
    that each arrival keeps. *)
Lemma process_channel_only_keeps c (Q : GbnSimulator T -> Prop) s :
  (forall x it, Inv c x -> Q x ->
     item_ok (next_seq (sender x)) (expected_seq (receiver x)) it ->
     Q (handle_arrival x it)) ->
  (forall x ch, Q x -> Q (with_channel x ch)) ->
  Inv c s -> Q s -> Q (process_channel_only s).
Proof.
  intros Hstep Hch HI HQ. unfold process_channel_only.
  rewrite get_delivered_packets_spec.
  set (s0 := with_channel s _).
  set (arrivals := List.filter _ _).
  assert (HI0 : Inv c s0).
  { destruct HI. constructor; simpl; try done. by apply Forall_list_filter. }
  assert (HQ0 : Q s0) by (by apply Hch).
  assert (Hok : Forall (item_ok (next_seq (sender s0))
                          (expected_seq (receiver s0))) arrivals).
  { apply Forall_list_filter. by destruct HI. }
  clearbody s0 arrivals. clear HI HQ s.
  revert s0 HI0 HQ0 Hok. induction arrivals as [|it l IH];
    intros s HI HQ Hok; simpl; [done|].
  inversion Hok as [|? ? Hokit Hokl]; subst.
  apply IH.
  - by apply handle_arrival_inv.
  - by apply Hstep.
  - destruct (handle_arrival_mono s it) as [-> Hle].
    eapply Forall_impl; [exact Hokl|].
    intros x Hx. eapply item_ok_mono; [| |exact Hx]; lia.
Qed.

Lemma paced_handle_arrival c s it :
  Inv c s -> Paced c s ->
  item_ok (next_seq (sender s)) (expected_seq (receiver s)) it ->
  Paced c (handle_arrival s it).
Proof.
  intros HI [Hto Hsp Hl] Hok.
  unfold item_ok in Hok. unfold handle_arrival, receive_data, receive_ack.
  destruct (dest it) eqn:Hd, (type (pkt it)) eqn:Ht; simpl;
    try (by constructor).
  - repeat case_decide; simpl;
      try destruct (send_to_network _ _ _ _ _) as [ch [|]];
      constructor; simpl; rewrite ?timeout_times_snoc; simpl;
      rewrite ?app_nil_r; done.
  - case_decide; constructor; simpl; rewrite ?timeout_times_snoc; simpl;
      rewrite ?app_nil_r; try done.
    intros t Hlast. destruct (Hl t Hlast) as [Hnow _].
    split; [done|]. intros Hne. case_decide; [done|].
    destruct HI. lia.
Qed.

Lemma paced_retransmit_loop c seqs off s s' :
  retransmit_loop seqs off s = Some s' -> Paced c s -> Paced c s'.
Proof.
  revert off s. induction seqs as [|k rest IH]; intros off s; simpl.
  - by intros [= <-].
  - destruct (buffer (sender s) !! k) as [p|]; [|done].
    destruct (send_to_network _ _ _ _ _) as [ch st].
    intros Hrun HP. apply IH in Hrun; [done|].
    destruct HP. destruct st; constructor; simpl;
      rewrite ?timeout_times_snoc; simpl; rewrite ?app_nil_r; done.
Qed.

Lemma paced_on_timeout c s s' :
  check_timer (sender s) (current_time s) = true ->
  on_timeout s = Some s' -> Paced c s -> Paced c s'.
Proof.
  unfold check_timer, on_timeout. intros Hct Hrun [Hto Hsp Hl].
  repeat case_decide; try done.
  apply (paced_retransmit_loop c) in Hrun; [done|].
  constructor; simpl; rewrite ?timeout_times_snoc; simpl; [done| |].
  - apply spaced_snoc; [done|].
    intros t Hlast. destruct (Hl t Hlast) as [_ Htimer].
    specialize (Htimer ltac:(done)). lia.
  - intros t. rewrite last_snoc. intros [= <-]. split; [lia | done].
Qed.

Lemma paced_send_new c off s : Paced c s -> Paced c (send_new off s).
Proof.
  intros [Hto Hsp Hl]. rewrite send_new_eq.
  destruct (send_to_network (channel s) (data_packet (next_seq (sender s)))
              ToReceiver (of_int (current_time s)) off) as [ch st].
  constructor; simpl; rewrite ?timeout_times_snoc;
    destruct st; simpl; rewrite ?app_nil_r;
    try done;
    (intros t Hlast; destruct (Hl t Hlast) as [Hnow Htimer];
     split; [done|]; intros _; case_decide; [done | by apply Htimer]).
Qed.

Lemma paced_fill_loop c fuel off s : Paced c s -> Paced c (fill_loop fuel off s).
Proof.
  revert off s. induction fuel as [|fuel IH]; intros off s HP; simpl; [done|].
  destruct (can_send (sender s)); [|done].
  by apply IH, paced_send_new.
Qed.

Lemma paced_advance_clock c s : Paced c s -> Paced c (advance_clock s).
Proof.
  intros [Hto Hsp Hl]. constructor; simpl; try done.
  intros t Hlast. destruct (Hl t Hlast). split; [lia | done].
Qed.

Lemma paced_process_channel_only c s :
  Inv c s -> Paced c s -> Paced c (process_channel_only s).
Proof.
  apply (process_channel_only_keeps c (Paced c)).
  - intros x it. apply paced_handle_arrival.
  - intros x ch []. by constructor.
Qed.

Lemma paced_simulation_tick c s s' :
  Inv c s -> Paced c s -> simulation_tick s = Some s' -> Paced c s'.
Proof.
  intros HI HP. unfold simulation_tick.
  destruct (running s); simpl; [|by intros [= <-]].
  case_decide.
  - intros [= <-].
    apply paced_advance_clock, paced_process_channel_only.
    + destruct (is_finishing s); simpl; [done|].
      destruct HI. constructor; simpl; done.
    + destruct (is_finishing s); simpl; [done|].
      destruct HP. constructor; simpl; rewrite ?timeout_times_snoc; simpl;
        rewrite ?app_nil_r; done.
  - destruct (check_timer _ _) eqn:Hct.
    + destruct (on_timeout s) as [s1|] eqn:Hto; simpl; [|done].
      intros [= <-].
      destruct (on_timeout_inv c s HI) as (s1' & Hto' & HI1).
      { unfold check_timer in Hct. by case_decide. }
      assert (s1' = s1) by congruence. subst s1'.
      apply paced_advance_clock, paced_process_channel_only;
        [by apply fill_window_inv|].
      apply paced_fill_loop. by eapply paced_on_timeout.
    + simpl. intros [= <-].
      apply paced_advance_clock, paced_process_channel_only;
        [by apply fill_window_inv|].
      by apply paced_fill_loop.
Qed.

Lemma reachable_paced c s :
  0 <= cfg_total c -> 0 <= cfg_win c -> reachable c s -> Paced c s.
Proof.
  intros Ht Hw Hr.
  assert (HIs : forall x : GbnSimulator T, reachable c x -> Inv c x).
  { intros x Hx. destruct (reachable_sane c x Hx) as [HI|[]]; [done | lia]. }
  induction Hr as [|s s' Hr IH Hstep].
  - constructor; simpl; done.
  - destruct Hstep as [s0 s1 Htick | s0].
    + eapply paced_simulation_tick; [by apply HIs | done | done].
    + destruct IH. constructor; simpl; rewrite ?timeout_times_snoc; simpl;
        rewrite ?app_nil_r; done.
Qed.

End PacedRuns.

(** ** Properties of every run *)

Lemma ticks_total {T} `{Clock T} (c : Config) (n : nat) :
  exists s, ticks n (start_sim (T:=T) c) = Some s.
Proof.
  induction n as [|n [s Hs]]; simpl; [by eexists|].
  rewrite Hs. simpl.
  pose proof (ticks_reachable c n s Hs) as Hr.
  destruct (reachable_sane c s Hr) as [HI|HI].
  - destruct (simulation_tick_inv c s HI) as (s' & -> & _). by eexists.
  - destruct (idle_simulation_tick c s HI) as (s' & -> & _). by eexists.
Qed.

Lemma reachable_advances {T} `{Clock T} (c : Config) (s : GbnSimulator T) :
  reachable c s -> Advances (start_sim c) s.
Proof.
  induction 1 as [|s s' _ IH Hstep]; [apply advances_refl|].
  eapply advances_trans; [exact IH | by apply advances_step].
Qed.

(** X1.  [simulation_tick] never raises the [KeyError] of
    [self.sender.buffer[seq]]: from every state of every run, of any
    configuration whatever, the tick returns, in a state of the run.  This
    is for a run [in_range]: the delay has a [float], the number of packets
    and the clock are at most 2^53; beyond it the tick can raise
    [OverflowError] or [ValueError]. *)
Theorem X1_tick_never_raises {T} `{Clock T} (c : Config) (s : GbnSimulator T) :
  reachable c s -> in_range c (current_time s) ->
  exists s', simulation_tick s = Some s' /\ reachable c s'.
Proof.
  intros Hr _.
  assert (Hsome : exists s', simulation_tick s = Some s').
  { destruct (reachable_sane c s Hr) as [HI|HI].
    - destruct (simulation_tick_inv c s HI) as (s' & Hs' & _). by eexists.
    - destruct (idle_simulation_tick c s HI) as (s' & Hs' & _). by eexists. }
  destruct Hsome as [s' Hs']. exists s'. split; [done|].
  eapply reach_step; [exact Hr | by constructor].
Qed.

(** X1 at the tick of time 3 of scenario C, the one that retransmits. *)
Lemma X1_tick_never_raises_witness :
  exists s',
    simulation_tick (state_after (T:=float) 3 scenario_C) = Some s'
    /\ reachable scenario_C s'.
Proof.
  apply (X1_tick_never_raises scenario_C (state_after 3 scenario_C)).
  - apply state_after_reachable.
  - repeat split; vm_compute; congruence.
Defined.

(** X2.  What a step (a tick, or [stop_sim]) may change, from any state:
    [base], [next_seq], [expected_seq], [delivered_count],
    [retransmissions], [duplicate_pkts] and the clock never decrease; the
    window size, the number of packets, the timeout and the delay never
    change; the log only grows at its end; the two loss lists only lose
    elements. *)
Theorem X2_step_advances {T} `{Clock T} (s s' : GbnSimulator T) :
  step s s' ->
  base (sender s) <= base (sender s')
  /\ next_seq (sender s) <= next_seq (sender s')
  /\ expected_seq (receiver s) <= expected_seq (receiver s')
  /\ delivered_count (receiver s) <= delivered_count (receiver s')
  /\ retransmissions (sender s) <= retransmissions (sender s')
  /\ duplicate_pkts (sender s) <= duplicate_pkts (sender s')
  /\ current_time s <= current_time s'
  /\ window_size (sender s') = window_size (sender s)
  /\ total_packets (sender s') = total_packets (sender s)
  /\ timeout (sender s') = timeout (sender s)
  /\ delay (channel s') = delay (channel s)
  /\ log s `prefix_of` log s'
  /\ loss_data (channel s') `sublist_of` loss_data (channel s)
  /\ loss_ack (channel s') `sublist_of` loss_ack (channel s).
Proof.
  intros Hstep. destruct (advances_step s s' Hstep). by repeat split.
Qed.

(** X2 at the tick of time 1 of scenario C, where ACK 0 is dropped. *)
Lemma X2_step_advances_witness :
  loss_ack (channel (state_after (T:=float) 2 scenario_C))
    `sublist_of` loss_ack (channel (state_after (T:=float) 1 scenario_C))
  /\ expected_seq (receiver (state_after (T:=float) 1 scenario_C))
     <= expected_seq (receiver (state_after (T:=float) 2 scenario_C)).
Proof.
  assert (Hstep : step (state_after (T:=float) 1 scenario_C)
                       (state_after (T:=float) 2 scenario_C)).
  { constructor. vm_compute. reflexivity. }
  pose proof (X2_step_advances _ _ Hstep)
    as (_ & _ & He & _ & _ & _ & _ & _ & _ & _ & _ & _ & _ & Ha).
  by split.
Defined.

(** X3.  In every state of every run [0 <= base <= expected_seq <=
    next_seq] and [delivered_count = expected_seq]: the sender never takes
    for acknowledged a packet the receiver has not delivered.  So when
    [base = total_packets], which is when the simulator announces that all
    packets are acknowledged, exactly [total_packets] packets have been
    delivered. *)
Theorem X3_acknowledged_means_delivered {T} `{Clock T} (c : Config)
    (s : GbnSimulator T) :
  reachable c s ->
  0 <= base (sender s)
  /\ base (sender s) <= expected_seq (receiver s)
  /\ expected_seq (receiver s) <= next_seq (sender s)
  /\ delivered_count (receiver s) = expected_seq (receiver s)
  /\ (base (sender s) = total_packets (sender s) ->
        delivered_count (receiver s) = total_packets (sender s)).
Proof.
  intros Hr. destruct (reachable_sane c s Hr) as [HI|HI]; destruct HI.
  - repeat split; try lia.
  - rewrite idle_receiver0. simpl. repeat split; try lia.
Qed.

(** X3 at the end of scenario C. *)
Lemma X3_acknowledged_means_delivered_witness :
  delivered_count (receiver (state_after (T:=float) 6 scenario_C))
  = total_packets (sender (state_after (T:=float) 6 scenario_C)).
Proof.
  pose proof (X3_acknowledged_means_delivered scenario_C
                (state_after (T:=float) 6 scenario_C)
                (state_after_reachable 6 scenario_C))
    as (_ & _ & _ & _ & Hdone).
  apply Hdone. vm_compute. reflexivity.
Defined.

(** X4.  What is in flight, in every state of every run: each queued item
    is either a DATA packet for the receiver with a sequence number
    already originated ([0 <= seq < next_seq]) or an ACK for the sender
    with a sequence number already delivered ([0 <= seq <
    expected_seq]); its arrival time is its send time plus the delay; and
    the delay is the configured one. *)
Theorem X4_in_flight {T} `{Clock T} (c : Config) (s : GbnSimulator T) :
  reachable c s ->
  Forall (fun it =>
            (dest it = ToReceiver /\ type (pkt it) = DATA
             /\ 0 <= seq_num (pkt it) < next_seq (sender s))
            \/ (dest it = ToSender /\ type (pkt it) = ACK
                /\ 0 <= seq_num (pkt it) < expected_seq (receiver s)))
         (packet_queue (channel s))
  /\ Forall (fun it => arrival_time it
                       = tadd (send_time it) (of_int (cfg_delay c)))
            (packet_queue (channel s))
  /\ delay (channel s) = cfg_delay c.
Proof.
  intros Hr.
  assert (Hd : delay (channel s) = cfg_delay c)
    by (by destruct (reachable_advances c s Hr)).
  split; [|split; [|done]].
  - destruct (reachable_sane c s Hr) as [HI|HI]; destruct HI.
    + eapply Forall_impl; [exact inv_queue0|].
      intros it. unfold item_ok.
      destruct (dest it), (type (pkt it)); tauto.
    + rewrite idle_queue0. constructor.
  - rewrite <- Hd. apply (transit_ok_history (channel (start_sim c))).
    + by apply reachable_history.
    + constructor.
Qed.

(** X4 in scenario C after three ticks, with ACK 1 and ACK 2 in flight. *)
Lemma X4_in_flight_witness :
  Forall (fun it => arrival_time it
                    = tadd (send_time it) (of_int (cfg_delay scenario_C)))
         (packet_queue (channel (state_after (T:=float) 3 scenario_C))).
Proof.
  pose proof (X4_in_flight scenario_C (state_after (T:=float) 3 scenario_C)
                (state_after_reachable 3 scenario_C)) as (_ & Ht & _).
  exact Ht.
Defined.

(** X5.  Read off the log of any state of any run: the sequence numbers
    the receiver accepted are exactly 0, 1, ..., [expected_seq - 1], in
    this order, each once; and the sequence numbers the sender originated
    are exactly 0, 1, ..., [next_seq - 1], in this order, each once. *)
Theorem X5_in_order_exactly_once {T} `{Clock T} (c : Config)
    (s : GbnSimulator T) :
  reachable c s ->
  deliveries (log s) = seqZ 0 (expected_seq (receiver s))
  /\ originations (log s) = seqZ 0 (next_seq (sender s)).
Proof.
  intros Hr. destruct (reachable_ledger c s Hr). by split.
Qed.

(** X5 at the end of scenario C, after the retransmissions. *)
Lemma X5_in_order_exactly_once_witness :
  deliveries (log (state_after (T:=float) 6 scenario_C)) = [0; 1; 2]
  /\ originations (log (state_after (T:=float) 6 scenario_C)) = [0; 1; 2].
Proof.
  pose proof (X5_in_order_exactly_once scenario_C
                (state_after (T:=float) 6 scenario_C)
                (state_after_reachable 6 scenario_C)) as [Hd Ho].
  rewrite Hd, Ho. vm_compute. by split.
Defined.

(** X6.  The branch of [process_channel_only] that sends the last ACK
    again never runs: in every state of every run [last_ack_sent =
    expected_seq - 1], no line "Receiver re-sending ACK" is in the log,
    and a DATA packet that is not the expected one, duplicate or out of
    order, leaves the receiver, the sender and the channel as they are:
    no ACK answers it. *)
Theorem X6_never_resends_ack {T} `{Clock T} (c : Config) (s : GbnSimulator T) :
  reachable c s ->
  last_ack_sent (receiver s) = expected_seq (receiver s) - 1
  /\ resent_acks (log s) = []
  /\ (forall it : Item T,
        dest it = ToReceiver -> type (pkt it) = DATA ->
        seq_num (pkt it) <> expected_seq (receiver s) ->
        receiver (handle_arrival s it) = receiver s
        /\ sender (handle_arrival s it) = sender s
        /\ channel (handle_arrival s it) = channel s).
Proof.
  intros Hr. destruct (reachable_ledger c s Hr).
  split; [done|]. split; [done|].
  intros it Hd Ht Hne. unfold handle_arrival, receive_data.
  rewrite Hd, Ht. rewrite decide_False by done.
  case_decide; [done|]. case_decide; [|done].
  by rewrite decide_True by done.
Qed.

(** X6 in scenario C after two ticks, for a DATA packet 2 ahead of
    packet 1. *)
Lemma X6_never_resends_ack_witness :
  let s := state_after (T:=float) 2 scenario_C in
  let it := mkItem 1.5%float (data_packet 2) ToReceiver 0.5%float in
  channel (handle_arrival s it) = channel s.
Proof.
  pose proof (X6_never_resends_ack scenario_C
                (state_after (T:=float) 2 scenario_C)
                (state_after_reachable 2 scenario_C)) as (_ & _ & Hh).
  apply Hh; [reflexivity | reflexivity | vm_compute; discriminate].
Defined.

(** X7.  The counters agree with the log, in every state of every run in
    which no tick has raised (a run [in_range]: the delay has a [float],
    the number of packets and the clock are at most 2^53):
    [retransmissions] is the number of timeout lines, [duplicate_pkts] the
    number of retransmission lines (sent or dropped), [delivered_count] the
    number of lines of an accepted DATA packet, and [next_seq] the number
    of lines of a first transmission (sent or dropped).  (A retransmission
    that dies of [OverflowError] has counted its packet and not logged it.) *)
Theorem X7_counters_match_log {T} `{Clock T} (c : Config) (s : GbnSimulator T) :
  reachable c s -> in_range c (current_time s) ->
  retransmissions (sender s) = Z.of_nat (length (timeout_times (log s)))
  /\ duplicate_pkts (sender s) = Z.of_nat (length (retransmitted (log s)))
  /\ delivered_count (receiver s) = Z.of_nat (length (deliveries (log s)))
  /\ next_seq (sender s) = Z.of_nat (length (originations (log s))).
Proof.
  intros Hr _. destruct (reachable_ledger c s Hr).
  rewrite led_deliveries0, led_originations0, !length_seqZ.
  rewrite (reachable_counters c s Hr).
  repeat split; lia.
Qed.

(** X7 at the end of scenario C: one timeout, three packets sent again. *)
Lemma X7_counters_match_log_witness :
  retransmissions (sender (state_after (T:=float) 6 scenario_C)) = 1
  /\ duplicate_pkts (sender (state_after (T:=float) 6 scenario_C)) = 3.
Proof.
  destruct (X7_counters_match_log scenario_C
              (state_after (T:=float) 6 scenario_C)
              (state_after_reachable 6 scenario_C)) as (Hr & Hd & _).
  - repeat split; vm_compute; congruence.
  - rewrite Hr, Hd. vm_compute. by split.
Defined.

(** X9.  [get_delivered_packets] splits the queue in two without
    reordering: the items delivered are those with [arrival_time <=
    current_time], the items kept are the others, each part is in the
    order of the queue, and together they are the queue.  Loss lists and
    delay are not touched.  Asking again at the same time delivers
    nothing and changes nothing. *)
Theorem X9_delivery_splits_queue {T} `{Clock T} (ch : Channel T) (now : Z) :
  let r := get_delivered_packets ch now in
  Forall (fun it => tleb (arrival_time it) (of_int now) = true) r.1
  /\ Forall (fun it => tleb (arrival_time it) (of_int now) = false)
            (packet_queue r.2)
  /\ r.1 `sublist_of` packet_queue ch
  /\ packet_queue r.2 `sublist_of` packet_queue ch
  /\ r.1 ++ packet_queue r.2 ≡ₚ packet_queue ch
  /\ loss_data r.2 = loss_data ch
  /\ loss_ack r.2 = loss_ack ch
  /\ delay r.2 = delay ch
  /\ get_delivered_packets r.2 now = ([], r.2).
Proof.
  simpl. rewrite get_delivered_packets_spec. simpl.
  assert (Hkept : Forall (fun it => tleb (arrival_time it) (of_int now) = false)
                    (List.filter
                       (fun it => negb (tleb (arrival_time it) (of_int now)))
                       (packet_queue ch))).
  { eapply Forall_impl; [apply list_filter_all|].
    intros it Hit. by apply negb_true_iff in Hit. }
  split; [apply list_filter_all|].
  split; [exact Hkept|].
  split; [apply list_filter_sublist|].
  split; [apply list_filter_sublist|].
  split; [apply list_filter_split|].
  do 3 (split; [done|]).
  rewrite get_delivered_packets_spec. simpl.
  rewrite (list_filter_none _ _ Hkept).
  rewrite list_filter_id; [done|].
  eapply Forall_impl; [exact Hkept|].
  intros it Hit. by rewrite Hit.
Qed.

(** X10.  A lost acknowledgement that nothing makes up for.  For a
    validated configuration, let [k] be on the ACK loss list, and let [k]
    be the last packet ([total_packets = k + 1]) or the window size be 1.
    Then the run never gets past [k]: it goes on for as long as it is
    [in_range] (the delay has a [float], the number of packets and the
    clock are at most 2^53), and after every such number of ticks [base <=
    k < total_packets], so that the tick never takes the branch that
    announces completion, whatever the timeout, the delay and the other
    losses.  (The ACK of [k] is dropped, every retransmitted DATA [k] is
    ignored as a duplicate without an ACK, and no later packet can be
    sent.) *)
Theorem X10_lost_ack_blocks_run {T} `{Clock T} (c : Config) (k : Z) :
  valid_config c -> k ∈ cfg_ack_drops c ->
  cfg_win c = 1 \/ cfg_total c = k + 1 ->
  forall n, in_range c (Z.of_nat n) -> exists s : GbnSimulator T,
    ticks n (start_sim c) = Some s
    /\ base (sender s) <= k
    /\ k < total_packets (sender s)
    /\ base (sender s) <> total_packets (sender s)
    /\ is_finishing s = false.
Proof.
  intros Hc Hin Hsize n _.
  destruct (ticks_total (T:=T) c n) as [s Hs]. exists s.
  split; [done|].
  pose proof (ticks_reachable c n s Hs) as Hr.
  destruct (reachable_blocked c k s Hc Hin Hsize Hr).
  destruct (reachable_inv c s Hc Hr).
  assert (Hk : 0 <= k < cfg_total c).
  { destruct Hc as (_ & _ & _ & _ & _ & Hacks).
    rewrite Forall_forall in Hacks. by apply Hacks. }
  repeat split; try done; lia.
Qed.

(** X10 on [stalled_config] (window 1, ACK 0 lost), a hundred ticks in. *)
Lemma X10_lost_ack_blocks_run_witness :
  exists s : GbnSimulator float,
    ticks 100 (start_sim stalled_config) = Some s
    /\ base (sender s) <= 0
    /\ 0 < total_packets (sender s)
    /\ base (sender s) <> total_packets (sender s)
    /\ is_finishing s = false.
Proof.
  apply (X10_lost_ack_blocks_run stalled_config 0 valid_stalled_config).
  - by apply list_elem_of_singleton.
  - by left.
  - repeat split; vm_compute; congruence.
Defined.

Lemma spaced_lookup d ts i t t' :
  spaced d ts -> ts !! i = Some t -> ts !! S i = Some t' -> t + d <= t'.
Proof.
  revert i. induction ts as [|t0 ts IH]; intros i Hs Hi Hi'.
  - by rewrite lookup_nil in Hi.
  - destruct ts as [|t1 rest]; [by rewrite lookup_cons, lookup_nil in Hi'|].
    destruct Hs as [Ht Hs]. destruct i as [|i].
    + rewrite lookup_cons in Hi. rewrite !lookup_cons in Hi'.
      by simplify_eq.
    + rewrite lookup_cons in Hi. rewrite (lookup_cons _ _ (S (S i))) in Hi'.
      by apply (IH i).
Qed.

(** X11.  Timeouts are at least [timeout] apart: in the log of every
    state of every run, each timeout line is stamped at least [timeout]
    seconds after the timeout line before it. *)
Theorem X11_timeouts_are_spaced {T} `{Clock T} (c : Config)
    (s : GbnSimulator T) (i : nat) (t t' : Z) :
  reachable c s ->
  timeout_times (log s) !! i = Some t ->
  timeout_times (log s) !! S i = Some t' ->
  t + cfg_timeout c <= t'.
Proof.
  intros Hr Hi Hi'.
  destruct (reachable_sane c s Hr) as [HI|HI].
  - assert (Hs : 0 <= cfg_total c /\ 0 <= cfg_win c).
    { destruct HI. lia. }
    destruct (reachable_paced c s (proj1 Hs) (proj2 Hs) Hr)
      as [_ Hspaced _].
    exact (spaced_lookup _ _ i t t' Hspaced Hi Hi').
  - destruct (reachable_ledger c s Hr). destruct HI.
    rewrite idle_retransmissions0 in led_timeouts0.
    destruct (timeout_times (log s)); [done | simpl in *; lia].
Qed.

(** X11 on [stalled_config], whose timeouts are at times 2, 4 and 6. *)
Lemma X11_timeouts_are_spaced_witness :
  timeout_times (log (state_after (T:=float) 8 stalled_config)) = [2; 4; 6]
  /\ 2 + cfg_timeout stalled_config <= 4.
Proof.
  split; [vm_compute; reflexivity|].
  apply (X11_timeouts_are_spaced stalled_config
           (state_after (T:=float) 8 stalled_config) 0 2 4).
  - apply state_after_reachable.
  - vm_compute. reflexivity.
  - vm_compute. reflexivity.
Defined.

(** ** The first tick *)

Section FirstTick.

Context {T : Type} `{Clock T}.
Implicit Types (s : GbnSimulator T) (ch : Channel T) (it : Item T).

(** An offer leaves what is in flight in place. *)
Lemma send_to_network_extends ch p d t o :
  packet_queue ch `prefix_of` packet_queue (send_to_network ch p d t o).1.
Proof.
  destruct (send_to_network_cases ch p d t o) as [-> | (ld & la & ->)]; simpl.
  - by apply prefix_app_r.
  - done.
Qed.

Lemma burst_extends_queue ch now first j n :
  packet_queue ch
    `prefix_of` packet_queue (run_ops ch (offers_from now first j n)).1.
Proof.
  revert ch first j. induction n as [|n IH]; intros ch first j; [done|].
  rewrite offers_from_S. simpl.
  pose proof (send_to_network_extends ch (data_packet first) ToReceiver
                (of_int now) (burst j)) as Hpre.
  destruct (send_to_network _ _ _ _ _) as [ch1 st]. simpl in *.
  specialize (IH ch1 (first + 1) (S j)).
  destruct (run_ops ch1 _) as [ch2 tr]. simpl in *.
  by etrans.
Qed.

(** Handling an arrival changes neither the clock nor the [running] flag,
    and takes nothing out of the queue. *)
Lemma handle_arrival_frame s it :
  current_time (handle_arrival s it) = current_time s
  /\ running (handle_arrival s it) = running s
  /\ packet_queue (channel s)
       `prefix_of` packet_queue (channel (handle_arrival s it)).
Proof.
  unfold handle_arrival, receive_data, receive_ack.
  destruct (dest it), (type (pkt it)); simpl; try done.
  - repeat case_decide; simpl; try done.
    + pose proof (send_to_network_extends (channel s)
                    (mkPacket ACK (seq_num (pkt it)) None) ToSender
                    (arrival_time it) off0) as Hpre.
      by destruct (send_to_network _ _ _ _ _) as [ch [|]].
    + repeat split; try done. apply send_to_network_extends.
  - by case_decide.
Qed.

Lemma fold_handle_arrival_frame arrivals s :
  current_time (fold_left handle_arrival arrivals s) = current_time s
  /\ running (fold_left handle_arrival arrivals s) = running s
  /\ packet_queue (channel s)
       `prefix_of` packet_queue (channel (fold_left handle_arrival arrivals s)).
Proof.
  revert s. induction arrivals as [|it l IH]; intros s; simpl; [done|].
  destruct (IH (handle_arrival s it)) as (-> & -> & Hpre).
  destruct (handle_arrival_frame s it) as (-> & -> & Hpre0).
  repeat split; try done. by etrans.
Qed.

Lemma process_channel_only_frame s :
  current_time (process_channel_only s) = current_time s
  /\ running (process_channel_only s) = running s.
Proof.
  unfold process_channel_only. rewrite get_delivered_packets_spec.
  destruct (fold_handle_arrival_frame
              (List.filter (fun it => tleb (arrival_time it)
                                        (of_int (current_time s)))
                 (packet_queue (channel s)))
              (with_channel s
                 (mkChannel (loss_data (channel s)) (loss_ack (channel s))
                    (delay (channel s))
                    (List.filter
                       (fun it => negb (tleb (arrival_time it)
                                          (of_int (current_time s))))
                       (packet_queue (channel s))))))
    as (-> & -> & _).
  done.
Qed.

(** The DATA packet at the head of the queue that arrives in order, with
    an acknowledgement that is not to be lost, leaves this
    acknowledgement in flight. *)
Lemma process_channel_only_acks s it more :
  packet_queue (channel s) = it :: more ->
  dest it = ToReceiver -> type (pkt it) = DATA ->
  seq_num (pkt it) = expected_seq (receiver s) ->
  seq_num (pkt it) ∉ loss_ack (channel s) ->
  tleb (arrival_time it) (of_int (current_time s)) = true ->
  packet_queue (channel (process_channel_only s)) <> [].
Proof.
  intros Hq Hd Hty Hseq Hloss Harr.
  unfold process_channel_only. rewrite get_delivered_packets_spec.
  rewrite Hq. simpl. rewrite Harr. simpl.
  set (arrivals := List.filter (fun x => tleb _ _) more).
  set (kept := List.filter (fun x => negb _) more).
  set (s1 := handle_arrival _ it).
  assert (Hs1 : packet_queue (channel s1) <> []).
  { unfold s1, handle_arrival, receive_data. rewrite Hd, Hty. simpl.
    rewrite decide_True by done.
    unfold send_to_network. simpl. rewrite decide_False by done. simpl.
    intros Heq. by apply app_eq_nil in Heq as [_ Heq]. }
  destruct (fold_handle_arrival_frame arrivals s1) as (_ & _ & [k Hk]).
  rewrite Hk. by destruct (packet_queue (channel s1)).
Qed.

(** After the first tick of a validated configuration that loses neither
    DATA 0 nor its acknowledgement, and whose delay lets DATA 0 arrive in
    the tick that sends it, something is in flight. *)
Lemma first_tick_in_flight c :
  valid_config c ->
  0 ∉ cfg_data_drops c -> 0 ∉ cfg_ack_drops c ->
  tleb (tadd (tadd (of_int 0) off0) (of_int (cfg_delay c))) (of_int 0) = true ->
  exists s,
    simulation_tick (start_sim c) = Some s
    /\ running s = true /\ current_time s = 1
    /\ packet_queue (channel s) <> [].
Proof.
  intros (Ht & Hw & _) Hnd Hna Harr.
  set (s0 := start_sim (T:=T) c).
  pose proof (fill_loop_spec (rounds (sender s0))
                (Z.to_nat (total_packets (sender s0) - next_seq (sender s0)))
                0 s0 eq_refl) as Hspec.
  change (fill_loop _ (burst 0) s0) with (fill_window s0) in Hspec.
  destruct Hspec as (Hch & _ & _ & _ & _ & _ & (Hrc & Hrun & _ & Hct) & _).
  { unfold rounds. simpl. lia. }
  destruct (rounds (sender s0)) as [|m] eqn:Hm.
  { unfold rounds in Hm. simpl in Hm. lia. }
  rewrite offers_from_S in Hch. simpl in Hch.
  unfold send_to_network in Hch. simpl in Hch.
  rewrite decide_False in Hch by done.
  simpl in Hch.
  set (it := mkItem _ _ _ _) in Hch.
  set (ch1 := mkChannel _ _ _ [it]) in Hch.
  pose proof (burst_extends_queue ch1 0 (0 + 1) 1 m) as [more Hmore].
  pose proof (burst_keeps_acks ch1 0 (0 + 1) 1 m (fun _ => True)
                ltac:(done) ltac:(by apply Forall_forall)) as [Hla _].
  destruct (run_ops ch1 _) as [ch2 tr]. simpl in *.
  destruct (process_channel_only_frame (fill_window s0)) as [Hpt Hpr].
  exists (advance_clock (process_channel_only (fill_window s0))).
  split; [|split; [|split]].
  - unfold simulation_tick. simpl. rewrite decide_False by lia.
    unfold check_timer. simpl. done.
  - simpl. by rewrite Hpr, Hrun.
  - simpl. rewrite Hpt, Hct. done.
  - simpl. apply (process_channel_only_acks _ it more).
    + by rewrite Hch, Hmore.
    + done.
    + done.
    + by rewrite Hrc.
    + by rewrite Hch, Hla.
    + by rewrite Hct.
Qed.

End FirstTick.

(** ** The animation frame *)

Section Frames.

Implicit Types (s : GbnSimulator float) (sd : Sender) (rc : Receiver).

Lemma outcome_bind {A B} (m : Draw A) (f : A -> Draw B) a :
  outcome m = inr a -> outcome (m ≫= f) = outcome (f a).
Proof. intros Hm. unfold mbind, Draw_bind. by rewrite Hm. Qed.

Lemma bind_value {A B} (m : Draw A) (f : A -> Draw B) a :
  outcome m = inr a ->
  m ≫= f = mkDraw (calls m ++ calls (f a)) (outcome (f a)).
Proof. intros Hm. unfold mbind, Draw_bind. by rewrite Hm. Qed.

Lemma bind_raised {A B} (m : Draw A) (f : A -> Draw B) e :
  outcome m = inl e -> m ≫= f = mkDraw (calls m) (inl e).
Proof. intros Hm. unfold mbind, Draw_bind. by rewrite Hm. Qed.

Lemma for_each_value {A} (body : A -> Draw unit) (l : list A) :
  Forall (fun a => outcome (body a) = inr tt) l ->
  outcome (for_each body l) = inr tt.
Proof.
  induction 1 as [|a l Ha _ IH]; simpl; [done|].
  by rewrite (outcome_bind _ _ tt).
Qed.

Lemma for_each_raised {A} (body : A -> Draw unit) a (l : list A) e :
  body a = mkDraw [] (inl e) -> for_each body (a :: l) = mkDraw [] (inl e).
Proof. intros Ha. simpl. rewrite (bind_raised _ _ e); by rewrite Ha. Qed.

(** [float_limit] is where the conversion starts to overflow. *)
Lemma float_limit_rounds :
  float_of_Z (float_limit - 1) = 0x1.fffffffffffffp+1023%float
  /\ float_of_Z float_limit = infinity
  /\ float_of_Z (- float_limit) = neg_infinity.
Proof. by vm_compute. Qed.

Lemma float_of_int_fits z :
  fits_float z -> float_of_int z = mkDraw [] (inr (float_of_Z z)).
Proof. intros Hz. unfold float_of_int. by rewrite decide_True. Qed.

Lemma fits_float_box i n :
  0 <= i < n -> fits_float (box_x n) -> fits_float (box_x i).
Proof. unfold fits_float, box_x. lia. Qed.

Lemma draw_sender_box_value sd i :
  fits_float (box_x i) -> outcome (draw_sender_box sd i) = inr tt.
Proof.
  intros Hi. unfold draw_sender_box, num_add, half_box, to_float.
  rewrite (float_of_int_fits _ Hi). reflexivity.
Qed.

Lemma draw_receiver_box_value rc i :
  fits_float (box_x i) -> outcome (draw_receiver_box rc i) = inr tt.
Proof.
  intros Hi. unfold draw_receiver_box, num_add, half_box, to_float.
  rewrite (float_of_int_fits _ Hi). by case_decide.
Qed.

Lemma draw_window_value f sd : outcome (draw_window f sd) = inr tt.
Proof.
  unfold draw_window. case_decide; [done|].
  by destruct (f || bool_decide _).
Qed.

Lemma boxes_fit n :
  fits_float (box_x n) -> Forall (fun i => fits_float (box_x i)) (seqZ 0 n).
Proof.
  intros Hn. apply Forall_forall. intros i Hi.
  apply elem_of_seqZ in Hi. apply (fits_float_box i n); [lia | done].
Qed.

Lemma draw_sender_row_value s :
  fits_float (box_x (total_packets (sender s))) ->
  outcome (draw_sender_row s) = inr tt.
Proof.
  intros Hn. unfold draw_sender_row.
  rewrite (outcome_bind _ _ tt) by done.
  rewrite (outcome_bind _ _ tt) by done.
  rewrite (outcome_bind _ _ tt); [apply draw_window_value|].
  apply for_each_value. eapply Forall_impl; [by apply boxes_fit|].
  intros i Hi. by apply draw_sender_box_value.
Qed.

Lemma draw_receiver_row_value s :
  fits_float (box_x (total_packets (sender s))) ->
  outcome (draw_receiver_row s) = inr tt.
Proof.
  intros Hn. unfold draw_receiver_row.
  rewrite (outcome_bind _ _ tt) by done.
  rewrite (outcome_bind _ _ tt) by done.
  apply for_each_value. eapply Forall_impl; [by apply boxes_fit|].
  intros i Hi. by apply draw_receiver_box_value.
Qed.

(** The division by a delay of 0 raises before anything is drawn. *)
Lemma draw_packet_zero now fr (it : Item float) :
  fits_float now -> draw_packet now fr 0 it = mkDraw [] (inl ZeroDivisionError).
Proof.
  intros Hnow. unfold draw_packet, packet_progress.
  rewrite (float_of_int_fits _ Hnow). reflexivity.
Qed.

(** With another delay the progress is 0, 1 or a float. *)
Lemma packet_progress_value now fr st d :
  fits_float now -> fits_float d -> d <> 0 ->
  exists p,
    packet_progress now fr st d = mkDraw [] (inr p)
    /\ (p = NInt 0 \/ p = NInt 1 \/ exists f, p = NFloat f).
Proof.
  intros Hnow Hd Hnz. unfold packet_progress.
  rewrite (float_of_int_fits _ Hnow), (float_of_int_fits _ Hd).
  destruct (decide (d = 0)) as [?|_]; [done|].
  eexists. split; [reflexivity|].
  destruct (num_ltb (NFloat _) (NInt 0)).
  - destruct (num_ltb (NInt 1) (NInt 0)); auto.
  - destruct (num_ltb (NInt 1) (NFloat _)); eauto.
Qed.

(** Then the packet is drawn. *)
Lemma draw_packet_value now fr d (it : Item float) :
  fits_float now -> fits_float d -> d <> 0 ->
  outcome (draw_packet now fr d it) = inr tt.
Proof.
  intros Hnow Hd Hnz. unfold draw_packet.
  destruct (packet_progress_value now fr (send_time it) d Hnow Hd Hnz)
    as (p & -> & Hp).
  rewrite (outcome_bind _ _ p) by done.
  destruct Hp as [-> | [-> | [f ->]]]; by destruct (type (pkt it)).
Qed.

Lemma draw_in_flight_zero s fr :
  fits_float (current_time s) ->
  delay (channel s) = 0 -> packet_queue (channel s) <> [] ->
  draw_in_flight s fr = mkDraw [] (inl ZeroDivisionError).
Proof.
  intros Hnow Hz Hq. unfold draw_in_flight.
  destruct (packet_queue (channel s)) as [|it more]; [done|].
  rewrite Hz. apply for_each_raised. by apply draw_packet_zero.
Qed.

Lemma draw_in_flight_value s fr :
  fits_float (current_time s) -> fits_float (delay (channel s)) ->
  delay (channel s) <> 0 \/ packet_queue (channel s) = [] ->
  outcome (draw_in_flight s fr) = inr tt.
Proof.
  intros Hnow Hd [Hnz | Hq]; unfold draw_in_flight.
  - apply for_each_value, Forall_forall. intros it _.
    by apply draw_packet_value.
  - by rewrite Hq.
Qed.

(** The frame of a state with delay 0 and something in flight: the row of
    the sender, then the exception. *)
Lemma draw_visualization_zero s fr :
  fits_float (box_x (total_packets (sender s))) ->
  fits_float (current_time s) ->
  delay (channel s) = 0 -> packet_queue (channel s) <> [] ->
  draw_visualization s fr =
    mkDraw (mkCall "delete" [AStr "all"] [] :: calls (draw_sender_row s))
           (inl ZeroDivisionError).
Proof.
  intros Hn Hnow Hz Hq. unfold draw_visualization.
  rewrite (bind_value _ _ tt) by done.
  rewrite (bind_value (draw_sender_row s) _ tt)
    by (by apply draw_sender_row_value).
  rewrite (bind_raised (draw_in_flight s fr) _ ZeroDivisionError)
    by (by rewrite draw_in_flight_zero).
  rewrite draw_in_flight_zero by done.
  simpl. by rewrite app_nil_r.
Qed.

Lemma draw_visualization_value s fr :
  fits_float (box_x (total_packets (sender s))) ->
  fits_float (current_time s) -> fits_float (delay (channel s)) ->
  delay (channel s) <> 0 \/ packet_queue (channel s) = [] ->
  outcome (draw_visualization s fr) = inr tt.
Proof.
  intros Hn Hnow Hd Hcase. unfold draw_visualization.
  rewrite (outcome_bind _ _ tt) by done.
  rewrite (outcome_bind _ _ tt) by (by apply draw_sender_row_value).
  rewrite (outcome_bind _ _ tt) by (by apply draw_in_flight_value).
  by apply draw_receiver_row_value.
Qed.

End Frames.

(** X12.  A frame of the animation, in any state of a run whose box
    coordinates, delay and clock are in the range of a double.  With a
    delay of 0 and a packet in flight, [draw_visualization] clears the
    canvas, draws the row of the sender and raises [ZeroDivisionError] at
    the first packet; in every other case it returns, having drawn the
    three parts. *)
Theorem X12_frame_outcome (c : Config) (s : GbnSimulator float)
    (fraction : float) :
  reachable c s ->
  fits_float (box_x (cfg_total c)) ->
  fits_float (cfg_delay c) ->
  fits_float (current_time s) ->
  (cfg_delay c = 0 -> packet_queue (channel s) <> [] ->
   draw_visualization s fraction =
     mkDraw (mkCall "delete" [AStr "all"] [] :: calls (draw_sender_row s))
            (inl ZeroDivisionError))
  /\ (cfg_delay c <> 0 \/ packet_queue (channel s) = [] ->
      outcome (draw_visualization s fraction) = inr tt).
Proof.
  intros Hr Hn Hd Hnow.
  destruct (reachable_advances c s Hr). simpl in *.
  rewrite <- adv_total0 in Hn. rewrite <- adv_delay0 in Hd |- *.
  split.
  - intros Hz Hq. by apply draw_visualization_zero.
  - intros Hcase. by apply draw_visualization_value.
Qed.

(** X12 in scenario C one tick after the start, half a second into the
    tick: the frame is drawn. *)
Lemma X12_frame_outcome_witness :
  outcome (draw_visualization (state_after 1 scenario_C) 0.5) = inr tt.
Proof.
  apply (X12_frame_outcome scenario_C (state_after 1 scenario_C) 0.5
           (state_after_reachable 1 scenario_C)).
  - by vm_compute.
  - by vm_compute.
  - by vm_compute.
  - left. by vm_compute.
Defined.

(** X13.  With a propagation delay of 0 the animation does not survive
    the first tick.  For every validated configuration with delay 0 that
    loses neither DATA 0 nor its acknowledgement, the first tick leaves
    the acknowledgement of packet 0 in flight, and every call of
    [animate_loop] after it, whatever the wall-clock time, ends in
    [ZeroDivisionError] after the row of the sender: the next frame is
    not armed. *)
Theorem X13_zero_delay_stops_animation (c : Config) :
  valid_config c -> cfg_delay c = 0 ->
  0 ∉ cfg_data_drops c -> 0 ∉ cfg_ack_drops c ->
  fits_float (box_x (cfg_total c)) ->
  exists s : GbnSimulator float,
    simulation_tick (start_sim c) = Some s
    /\ packet_queue (channel s) <> []
    /\ forall elapsed,
         animate_loop s elapsed =
           mkDraw (mkCall "delete" [AStr "all"] [] :: calls (draw_sender_row s))
                  (inl ZeroDivisionError).
Proof.
  intros Hvalid Hdelay Hnd Hna Hn.
  destruct (first_tick_in_flight (T:=float) c Hvalid Hnd Hna)
    as (s & Htick & Hrun & Hnow & Hq).
  { by rewrite Hdelay. }
  exists s. split; [done|]. split; [done|]. intros elapsed.
  assert (Hadv : Advances (start_sim c) s).
  { apply advances_step. by constructor. }
  assert (Hframe : forall fr,
            draw_visualization s fr =
              mkDraw (mkCall "delete" [AStr "all"] []
                        :: calls (draw_sender_row s))
                     (inl ZeroDivisionError)).
  { intros fr. destruct Hadv. simpl in *.
    apply draw_visualization_zero; try done.
    - by rewrite adv_total0.
    - by rewrite Hnow.
    - by rewrite adv_delay0. }
  unfold animate_loop. rewrite Hrun. cbn [negb].
  rewrite (bind_raised _ _ ZeroDivisionError) by (by rewrite Hframe).
  by rewrite Hframe.
Qed.

(** X13 for two packets, window 2 and delay 0. *)
Lemma X13_zero_delay_stops_animation_witness :
  exists s : GbnSimulator float,
    simulation_tick (start_sim zero_delay_config) = Some s
    /\ packet_queue (channel s) <> []
    /\ forall elapsed,
         animate_loop s elapsed =
           mkDraw (mkCall "delete" [AStr "all"] [] :: calls (draw_sender_row s))
                  (inl ZeroDivisionError).
Proof.
  apply (X13_zero_delay_stops_animation zero_delay_config).
  - unfold valid_config. simpl. repeat split; try lia; constructor.
  - reflexivity.
  - apply not_elem_of_nil.
  - apply not_elem_of_nil.
  - by vm_compute.
Defined.

(** X14.  The two rows of a frame agree, in every state of every run.  A
    box drawn green (acknowledged) in the row of the sender is green
    (delivered) in the row of the receiver; a box drawn yellow (sent, not
    acknowledged) lies inside the red border of the window, which is then
    drawn; and when the sender has all its acknowledgements every box of
    both rows is green. *)
Theorem X14_rows_agree {T} `{Clock T} (c : Config) (s : GbnSimulator T)
    (i : Z) :
  reachable c s ->
  (sender_color (sender s) i = "#90ee90" ->
   receiver_color (receiver s) i = "#90ee90")
  /\ (sender_color (sender s) i = "#ffffe0" ->
      base (sender s) < total_packets (sender s)
      /\ base (sender s) <= i < window_end_seq (sender s))
  /\ (base (sender s) = total_packets (sender s) ->
      0 <= i < total_packets (sender s) ->
      sender_color (sender s) i = "#90ee90"
      /\ receiver_color (receiver s) i = "#90ee90").
Proof.
  intros Hr. unfold sender_color, receiver_color, window_end_seq.
  destruct (reachable_sane c s Hr) as [HI|HI]; destruct HI.
  - repeat split; repeat case_decide; try done; try lia.
  - rewrite idle_receiver0. simpl.
    repeat split; repeat case_decide; try done; try lia.
Qed.

(** X14 in scenario C after five ticks, for the box of packet 0. *)
Lemma X14_rows_agree_witness :
  receiver_color (receiver (state_after (T:=float) 5 scenario_C)) 0 = "#90ee90".
Proof.
  pose proof (X14_rows_agree scenario_C (state_after (T:=float) 5 scenario_C)
                0 (state_after_reachable 5 scenario_C)) as (Hgreen & _ & _).
  apply Hgreen. by vm_compute.
Defined.

(** ** The entry fields *)

Section Text.

Implicit Types (s t u : string) (c : ascii).

Lemma append_cons c s t : String c s +:+ t = String c (s +:+ t).
Proof. reflexivity. Qed.

Lemma append_nil_l s : "" +:+ s = s.
Proof. reflexivity. Qed.

Lemma append_nil_r s : s +:+ "" = s.
Proof. induction s as [|c s IH]; [done|]. by rewrite append_cons, IH. Qed.

Lemma append_assoc s t u : (s +:+ t) +:+ u = s +:+ t +:+ u.
Proof. induction s as [|c s IH]; [done|]. by rewrite !append_cons, IH. Qed.

Lemma all_chars_app f s t :
  all_chars f (s +:+ t) = all_chars f s && all_chars f t.
Proof.
  induction s as [|c s IH]; [done|]. rewrite append_cons. cbn [all_chars].
  rewrite IH. by destruct (f c).
Qed.

(** *** Characters *)

Lemma decimal_char c d :
  decimal c = Some d ->
  0 <= d <= 9 /\ isspace c = false /\ int_space c = false
  /\ isdigit_char c = true /\ int_refuses c = false
  /\ c <> "_"%char /\ c <> ","%char /\ c <> "+"%char /\ c <> "-"%char.
Proof.
  destruct c as [[] [] [] [] [] [] [] []]; vm_compute; intros Hd;
    try discriminate Hd; injection Hd as <-;
    repeat split; congruence.
Qed.

Lemma decimal_pretty_N_char (m : N) :
  (m < 10)%N -> decimal (pretty_N_char m) = Some (Z.of_N m).
Proof.
  intros Hm. destruct m as [|p]; [done|].
  do 4 (destruct p as [p|p|]; try lia; try done).
Qed.

(** *** Numbers in decimal *)

Lemma pretty_N_go_chars (f : ascii -> bool) (x : N) s :
  (forall m, f (pretty_N_char m) = true) ->
  all_chars f (pretty_N_go x s) = all_chars f s.
Proof.
  intros Hf. revert s. induction (N.lt_wf_0 x) as [x _ IH]. intros s.
  destruct (decide (x = 0%N)) as [->|Hx]; [done|].
  rewrite pretty_N_go_step by lia.
  rewrite IH by (apply N.div_lt; lia). cbn. by rewrite Hf.
Qed.

Lemma pretty_N_go_head (x : N) s :
  x <> 0%N ->
  exists m rest, (m < 10)%N /\ pretty_N_go x s = String (pretty_N_char m) rest.
Proof.
  revert s. induction (N.lt_wf_0 x) as [x _ IH]. intros s Hx.
  rewrite pretty_N_go_step by lia.
  destruct (decide (x `div` 10 = 0)%N) as [->|Hd].
  - exists (x `mod` 10)%N, s. split; [|done]. by apply N.mod_lt.
  - apply IH; [apply N.div_lt; lia | done].
Qed.

Lemma pretty_N_go_digits (x : N) :
  exists k : Z,
    0 <= k /\ (x = 0%N -> k = 0) /\ (x <> 0%N -> 10 ^ k <= 10 * Z.of_N x)
    /\ forall s v n,
         digits (pretty_N_go x s) v n = digits s (v * 10 ^ k + Z.of_N x) (n + k).
Proof.
  induction (N.lt_wf_0 x) as [x _ IH].
  destruct (decide (x = 0%N)) as [->|Hx].
  - exists 0. repeat split; try done. intros s v n.
    rewrite pretty_N_go_0. f_equal; lia.
  - destruct (IH (x `div` 10)%N) as (k & Hk0 & Hzero & Hpow & Hdigits).
    { apply N.div_lt; lia. }
    assert (Hdm : Z.of_N x
                  = 10 * Z.of_N (x `div` 10) + Z.of_N (x `mod` 10)).
    { pose proof (N.div_mod x 10 ltac:(done)). lia. }
    exists (k + 1). rewrite Z.pow_add_r, Z.pow_1_r by lia.
    repeat split; try lia.
    + intros _. destruct (decide (x `div` 10 = 0)%N) as [Hd|Hd].
      * rewrite (Hzero Hd). simpl. assert (0 < x)%N by lia. lia.
      * specialize (Hpow Hd).
        pose proof (N2Z.is_nonneg (x `mod` 10)) as Hm.
        revert Hpow Hdm Hm.
        generalize (10 ^ k) (Z.of_N x) (Z.of_N (x `div` 10))
                   (Z.of_N (x `mod` 10)).
        intros; lia.
    + intros s v n. rewrite pretty_N_go_step by lia. rewrite Hdigits.
      cbn [digits]. rewrite decimal_pretty_N_char by (by apply N.mod_lt).
      f_equal; [|lia].
      revert Hdm.
      generalize (10 ^ k) (Z.of_N x) (Z.of_N (x `div` 10))
                 (Z.of_N (x `mod` 10)).
      intros; lia.
Qed.

(** A number below 10^4300 has at most 4300 digits. *)
Lemma digits_typable (k x : Z) :
  10 ^ k <= 10 * x -> x < 10 ^ 4300 -> k <= int_max_str_digits.
Proof.
  intros Hpow Hx. unfold int_max_str_digits.
  destruct (Z.le_gt_cases k 4300) as [|Hbig]; [done|].
  assert (Hmono : 10 ^ (4300 + 1) <= 10 ^ k).
  { apply Z.pow_le_mono_r; [done|]. clear - Hbig. lia. }
  rewrite Z.pow_add_r, Z.pow_1_r in Hmono by done.
  revert Hx Hpow Hmono. generalize (10 ^ 4300) (10 ^ k).
  intros; lia.
Qed.

(** The decimal text of a natural number below 10^4300: it begins with a
    digit, holds digits only, and [digits] reads the number back. *)
Lemma pretty_N_numeral (x : N) :
  Z.of_N x < 10 ^ 4300 ->
  exists c rest d k,
    pretty x = String c rest /\ decimal c = Some d
    /\ all_chars (fun c => bool_decide (is_Some (decimal c))) (pretty x) = true
    /\ digits (pretty x) 0 0 = (Z.of_N x, k, "")
    /\ k <= int_max_str_digits.
Proof.
  intros Hx. unfold pretty, pretty_N. case_decide as H0.
  - subst x. by exists "0"%char, "", 0, 1.
  - destruct (pretty_N_go_head x "" H0) as (m & rest & Hm & Hhead).
    destruct (pretty_N_go_digits x) as (k & Hk0 & _ & Hpow & Hdigits).
    exists (pretty_N_char m), rest, (Z.of_N m), k.
    split; [done|]. split; [by apply decimal_pretty_N_char|].
    split; [|split].
    + clear Hx. rewrite pretty_N_go_chars; [done|]. intros m'.
      destruct (N.lt_ge_cases m' 10) as [Hlt|Hge].
      * by rewrite decimal_pretty_N_char.
      * destruct m' as [|p]; [done|].
        do 4 (destruct p as [p|p|]; try done).
    + rewrite Hdigits. cbn [digits].
      rewrite Z.mul_0_l, !Z.add_0_l. done.
    + by apply (digits_typable k (Z.of_N x)); [apply Hpow|].
Qed.

(** [int] reads a numeral, also after a space or a minus sign. *)
Lemma py_int_numeral c rest d x k :
  decimal c = Some d ->
  digits (String c rest) 0 0 = (x, k, "") -> k <= int_max_str_digits ->
  py_int (String c rest) = Some x
  /\ py_int (String " " (String c rest)) = Some x
  /\ py_int (String "-" (String c rest)) = Some (- x).
Proof.
  intros Hd Hdigits Hk.
  destruct (decimal_char c d Hd) as (_ & _ & Hsp & _ & _ & _ & _ & Hplus & Hminus).
  assert (Hgo : forall sign,
    match String c rest with
    | "" => None
    | String c0 _ =>
        if decimal c0 is Some _ then
          let '(value, count, s3) := digits (String c rest) 0 0 in
          if decide (skip_space s3 = "" /\ count <= int_max_str_digits)
          then Some (sign * value) else None
        else None
    end = Some (sign * x)).
  { intros sign. rewrite Hd, Hdigits. by rewrite decide_True. }
  repeat split.
  - unfold py_int. cbn [skip_space]. rewrite Hsp.
    rewrite decide_False by done. rewrite decide_False by done.
    rewrite Hgo. by rewrite Z.mul_1_l.
  - unfold py_int. cbn [skip_space].
    change (int_space " ") with true. cbn iota. rewrite Hsp.
    rewrite decide_False by done. rewrite decide_False by done.
    rewrite Hgo. by rewrite Z.mul_1_l.
  - unfold py_int. cbn [skip_space].
    change (int_space "-") with false. cbn iota.
    rewrite decide_False by done. rewrite decide_True by done.
    rewrite Hgo. by replace (-1 * x) with (- x) by lia.
Qed.

Lemma pretty_Z_nonneg (z : Z) : 0 <= z -> pretty z = pretty (Z.to_N z).
Proof. intros Hz. destruct z as [|p|p]; [done | done | lia]. Qed.

Lemma pretty_Z_neg (z : Z) :
  z < 0 -> pretty z = String "-" (pretty (Z.to_N (- z))).
Proof. intros Hz. destruct z as [|p|p]; [lia | lia | done]. Qed.

(** [int] reads back the decimal text of an integer. *)
Lemma py_int_pretty (z : Z) : typable z -> py_int (pretty z) = Some z.
Proof.
  unfold typable. intros Hz.
  pose proof (pretty_N_numeral (Z.to_N (Z.abs z))) as Hnum.
  rewrite Z2N.id in Hnum by apply Z.abs_nonneg.
  destruct (Hnum Hz) as (c & rest & d & k & Heq & Hd & _ & Hdigits & Hk).
  clear Hnum Hz. rewrite Heq in Hdigits.
  destruct (py_int_numeral c rest d _ k Hd Hdigits Hk) as (Hpos & _ & Hneg).
  destruct (Z.le_gt_cases 0 z) as [Hz|Hz].
  - rewrite pretty_Z_nonneg by done.
    rewrite Z.abs_eq in Heq, Hpos by done. by rewrite Heq.
  - rewrite pretty_Z_neg by done.
    rewrite Z.abs_neq in Heq, Hneg by lia. rewrite Heq, Hneg.
    f_equal. lia.
Qed.

(** *** Fields of a loss list *)

Lemma all_chars_impl (f g : ascii -> bool) s :
  (forall c, f c = true -> g c = true) ->
  all_chars f s = true -> all_chars g s = true.
Proof.
  intros Hfg. induction s as [|c s IH]; [done|]. cbn [all_chars].
  intros [Hc Hs]%andb_true_iff. by rewrite (Hfg c Hc), IH.
Qed.

Lemma rstrip_id s :
  all_chars (fun c => negb (isspace c)) s = true -> rstrip s = s.
Proof.
  induction s as [|c s IH]; [done|]. cbn [all_chars rstrip].
  intros [Hc Hs]%andb_true_iff. rewrite (IH Hs).
  destruct s; [|done]. by destruct (isspace c).
Qed.

Lemma split_at_no_sep sep s :
  all_chars (fun c => negb (bool_decide (c = sep))) s = true ->
  split_at sep s = (s, []).
Proof.
  induction s as [|c s IH]; [done|]. cbn [all_chars split_at].
  intros [Hc Hs]%andb_true_iff. rewrite (IH Hs).
  apply negb_true_iff, bool_decide_eq_false in Hc. by rewrite decide_False.
Qed.

Lemma split_no_sep sep s :
  all_chars (fun c => negb (bool_decide (c = sep))) s = true ->
  split sep s = [s].
Proof. intros Hs. unfold split. by rewrite split_at_no_sep. Qed.

Lemma split_app sep s t :
  all_chars (fun c => negb (bool_decide (c = sep))) s = true ->
  split sep (s +:+ String sep t) = s :: split sep t.
Proof.
  unfold split. induction s as [|c s IH].
  - intros _. rewrite append_nil_l. cbn [split_at].
    destruct (split_at sep t) as [f fs]. by rewrite decide_True.
  - cbn [all_chars]. intros [Hc Hs]%andb_true_iff.
    rewrite append_cons. cbn [split_at]. specialize (IH Hs).
    destruct (split_at sep (s +:+ String sep t)) as [f fs].
    destruct (split_at sep t) as [f' fs']. injection IH as -> ->.
    apply negb_true_iff, bool_decide_eq_false in Hc. by rewrite decide_False.
Qed.

(** The fields of numerals joined by a comma and a space: the first
    numeral, and each of the others after a space. *)
Lemma split_concat_rest (p : string) (ps : list string) :
  Forall (fun q =>
            all_chars (fun c => negb (bool_decide (c = ","%char))) q = true)
         (p :: ps) ->
  split "," (String " " (String.concat ", " (p :: ps)))
  = map (String " ") (p :: ps).
Proof.
  revert p. induction ps as [|q ps IH]; intros p Hall.
  - inversion Hall as [|? ? Hp _]; subst. cbn [String.concat map].
    by rewrite split_no_sep.
  - inversion Hall as [|? ? Hp Hrest]; subst.
    change (String.concat ", " (p :: q :: ps))
      with (p +:+ String "," (String " " (String.concat ", " (q :: ps)))).
    rewrite <- append_cons. rewrite split_app by done.
    by rewrite (IH q Hrest).
Qed.

Lemma split_concat (p : string) (ps : list string) :
  Forall (fun q =>
            all_chars (fun c => negb (bool_decide (c = ","%char))) q = true)
         (p :: ps) ->
  split "," (String.concat ", " (p :: ps)) = p :: map (String " ") ps.
Proof.
  intros Hall. inversion Hall as [|? ? Hp Hrest]; subst.
  destruct ps as [|q ps].
  - cbn [String.concat map]. by rewrite split_no_sep.
  - change (String.concat ", " (p :: q :: ps))
      with (p +:+ String "," (String " " (String.concat ", " (q :: ps)))).
    rewrite split_app by done. by rewrite split_concat_rest.
Qed.

(** The decimal text of a natural number, alone or after a space, is a
    field the comprehension keeps and reads back. *)
Lemma loss_field (z : Z) :
  0 <= z -> typable z ->
  all_chars (fun c => negb (bool_decide (c = ","%char))) (pretty z) = true
  /\ isdigit (strip (pretty z)) = true
  /\ isdigit (strip (String " " (pretty z))) = true
  /\ py_int (pretty z) = Some z
  /\ py_int (String " " (pretty z)) = Some z.
Proof.
  intros Hz Ht.
  pose proof (py_int_pretty z Ht) as Hint.
  unfold typable in Ht. rewrite Z.abs_eq in Ht by done.
  rewrite pretty_Z_nonneg in * by done.
  destruct (pretty_N_numeral (Z.to_N z))
    as (c & rest & d & k & Heq & Hd & Hall & Hdigits & Hk).
  { by rewrite Z2N.id. }
  clear Ht. rewrite Heq in *.
  destruct (decimal_char c d Hd) as (_ & Hsp & _ & _ & _ & _ & _ & _ & _).
  assert (Hstrip : strip (String c rest) = String c rest).
  { unfold strip. cbn [lstrip]. rewrite Hsp. apply rstrip_id.
    eapply all_chars_impl; [|exact Hall]. intros c'.
    intros [d' Hd']%bool_decide_eq_true.
    by destruct (decimal_char c' d' Hd') as (_ & -> & _). }
  assert (Hstrip' : strip (String " " (String c rest)) = String c rest).
  { exact Hstrip. }
  rewrite Hstrip', Hstrip.
  split; [|split; [|split; [|split]]].
  - eapply all_chars_impl; [|exact Hall]. intros c'.
    intros [d' Hd']%bool_decide_eq_true.
    destruct (decimal_char c' d' Hd') as (_ & _ & _ & _ & _ & _ & Hc & _).
    by apply negb_true_iff, bool_decide_eq_false.
  - eapply all_chars_impl; [|exact Hall]. intros c'.
    intros [d' Hd']%bool_decide_eq_true.
    by destruct (decimal_char c' d' Hd') as (_ & _ & _ & -> & _).
  - eapply all_chars_impl; [|exact Hall]. intros c'.
    intros [d' Hd']%bool_decide_eq_true.
    by destruct (decimal_char c' d' Hd') as (_ & _ & _ & -> & _).
  - done.
  - destruct (py_int_numeral c rest d _ k Hd Hdigits Hk) as (_ & -> & _).
    by rewrite Z2N.id.
Qed.

(** [Channel.__init__] reads back a list of natural numbers written with
    a comma and a space between two numbers. *)
Lemma parse_loss_concat (l : list Z) :
  Forall (fun k => 0 <= k /\ typable k) l ->
  parse_loss (String.concat ", " (map pretty l)) = Some l.
Proof.
  intros Hall. destruct l as [|z l]; [done|].
  unfold parse_loss. cbn [map]. rewrite split_concat.
  - rewrite list_filter_id.
    + inversion Hall as [|? ? [Hz Ht] Hrest]; subst.
      destruct (loss_field z Hz Ht) as (_ & _ & _ & Hint & _).
      cbn [mapM]. rewrite Hint. cbn.
      rewrite map_map.
      rewrite (mapM_fmap_Forall_Some py_int
                 (fun k => String " " (pretty k)) l); [done|].
      eapply Forall_impl; [exact Hrest|]. intros k [Hk Htk].
      by destruct (loss_field k Hk Htk) as (_ & _ & _ & _ & ->).
    + inversion Hall as [|? ? [Hz Ht] Hrest]; subst. constructor.
      * by destruct (loss_field z Hz Ht) as (_ & -> & _).
      * rewrite map_map. apply Forall_map.
        eapply Forall_impl; [exact Hrest|]. intros k [Hk Htk].
        unfold compose. cbv beta.
        by destruct (loss_field k Hk Htk) as (_ & _ & -> & _).
  - change (Forall
              (fun q =>
                 all_chars (fun c => negb (bool_decide (c = ","%char))) q
                 = true)
              (map pretty (z :: l))).
    apply Forall_map. eapply Forall_impl; [exact Hall|].
    intros k [Hk Htk]. unfold compose. cbv beta.
    by destruct (loss_field k Hk Htk) as (-> & _).
Qed.

(** *** What the filter lets through *)

Lemma space_char c :
  isspace c = true ->
  isdigit_char c = false /\ decimal c = None
  /\ c <> "_"%char /\ c <> "+"%char /\ c <> "-"%char
  /\ int_refuses c = negb (int_space c).
Proof.
  destruct c as [[] [] [] [] [] [] [] []]; vm_compute; intros Hc;
    try discriminate Hc; repeat split; congruence.
Qed.

Lemma digit_char c :
  isdigit_char c = true ->
  isspace c = false /\ int_space c = false
  /\ c <> "_"%char /\ c <> "+"%char /\ c <> "-"%char
  /\ int_refuses c = negb (bool_decide (is_Some (decimal c))).
Proof.
  destruct c as [[] [] [] [] [] [] [] []]; vm_compute; intros Hc;
    try discriminate Hc; repeat split; congruence.
Qed.

Lemma int_space_isspace c : int_space c = true -> isspace c = true.
Proof.
  destruct c as [[] [] [] [] [] [] [] []]; vm_compute; congruence.
Qed.

Lemma lstrip_spec s :
  exists lead, s = lead +:+ lstrip s /\ all_chars isspace lead = true.
Proof.
  induction s as [|c s (lead & Heq & Hlead)]; [by exists ""|].
  cbn [lstrip]. destruct (isspace c) eqn:Hc.
  - exists (String c lead). rewrite append_cons, <- Heq.
    cbn [all_chars]. by rewrite Hc, Hlead.
  - by exists "".
Qed.

Lemma rstrip_spec s :
  exists trail, s = rstrip s +:+ trail /\ all_chars isspace trail = true.
Proof.
  induction s as [|c s (trail & Heq & Htrail)]; [by exists ""|].
  cbn [rstrip]. destruct (rstrip s) as [|c' kept] eqn:Hr.
  - rewrite append_nil_l in Heq. subst trail.
    destruct (isspace c) eqn:Hc.
    + exists (String c s). split; [done|]. cbn [all_chars].
      by rewrite Hc, Htrail.
    + by exists s.
  - exists trail. by rewrite append_cons, <- Heq.
Qed.

(** A field the filter keeps: white space, digits, white space. *)
Lemma field_shape s :
  isdigit (strip s) = true ->
  exists lead c core trail,
    s = lead +:+ String c core +:+ trail
    /\ strip s = String c core
    /\ all_chars isspace lead = true
    /\ all_chars isdigit_char (String c core) = true
    /\ all_chars isspace trail = true.
Proof.
  intros Hd. unfold strip in *.
  destruct (lstrip_spec s) as (lead & Hs & Hlead).
  destruct (rstrip_spec (lstrip s)) as (trail & Hy & Htrail).
  destruct (rstrip (lstrip s)) as [|c core] eqn:Hcore; [done|].
  exists lead, c, core, trail. by rewrite <- Hy.
Qed.

Lemma skip_space_lead lead s :
  all_chars isspace lead = true ->
  (all_chars int_space lead = true
   /\ skip_space (lead +:+ s) = skip_space s)
  \/ (all_chars int_space lead = false
      /\ exists c r, skip_space (lead +:+ s) = String c r
                     /\ isspace c = true /\ int_space c = false).
Proof.
  induction lead as [|c lead IH]; [by left|].
  cbn [all_chars]. intros [Hc Hlead]%andb_true_iff.
  rewrite append_cons. cbn [skip_space].
  destruct (int_space c) eqn:Hi.
  - destruct (IH Hlead) as [[-> ->]|[-> Hstuck]]; [by left | by right].
  - right. split; [done|]. by exists c, (lead +:+ s).
Qed.

Lemma skip_space_trail trail :
  all_chars isspace trail = true ->
  skip_space trail = "" <-> all_chars int_space trail = true.
Proof.
  intros Ht. destruct (skip_space_lead trail "" Ht)
    as [[Hall Heq]|[Hall (c & r & Heq & _)]];
    rewrite append_nil_r in Heq; rewrite Heq, Hall; [done|].
  split; done.
Qed.

(** [digits] on decimal digits before white space reads them all. *)
Lemma digits_decimal core trail v n :
  all_chars (fun c => bool_decide (is_Some (decimal c))) core = true ->
  all_chars isspace trail = true -> 0 <= v ->
  exists v',
    0 <= v'
    /\ digits (core +:+ trail) v n
       = (v', n + Z.of_nat (String.length core), trail).
Proof.
  intros Hcore Htrail. revert v n.
  induction core as [|c core IH]; intros v n Hv.
  - exists v. split; [done|]. rewrite append_nil_l, Z.add_0_r.
    destruct trail as [|c r]; [done|]. cbn [all_chars] in Htrail.
    apply andb_true_iff in Htrail as [Hc _].
    destruct (space_char c Hc) as (_ & Hd & Hu & _).
    cbn [digits]. rewrite Hd. by rewrite decide_False.
  - cbn [all_chars] in Hcore. apply andb_true_iff in Hcore as [Hc Hcore].
    apply bool_decide_eq_true in Hc as [d Hd].
    destruct (decimal_char c d Hd) as (Hrange & _).
    rewrite append_cons. cbn [digits]. rewrite Hd.
    destruct (IH Hcore (10 * v + d) (n + 1)) as (v' & Hv' & ->); [lia|].
    exists v'. split; [done|]. f_equal. f_equal.
    cbn [String.length]. lia.
Qed.

(** [digits] stops at a digit without a decimal value. *)
Lemma digits_stuck core trail v n :
  all_chars isdigit_char core = true ->
  all_chars (fun c => bool_decide (is_Some (decimal c))) core = false ->
  exists v' n' c r,
    digits (core +:+ trail) v n = (v', n', String c r)
    /\ isdigit_char c = true /\ decimal c = None.
Proof.
  revert v n. induction core as [|c core IH]; intros v n Hcore Hbad; [done|].
  cbn [all_chars] in Hcore, Hbad.
  apply andb_true_iff in Hcore as [Hc Hcore].
  rewrite append_cons. cbn [digits].
  destruct (decimal c) as [d|] eqn:Hd.
  - rewrite bool_decide_eq_true_2 in Hbad by eauto.
    by apply IH.
  - destruct (digit_char c Hc) as (_ & _ & Hu & _).
    rewrite decide_False by done. eauto 10.
Qed.

Lemma py_int_unsigned s c r :
  skip_space s = String c r -> c <> "+"%char -> c <> "-"%char ->
  py_int s =
    if decimal c is Some _ then
      let '(value, count, s3) := digits (String c r) 0 0 in
      if decide (skip_space s3 = "" /\ count <= int_max_str_digits)
      then Some (1 * value) else None
    else None.
Proof.
  intros Hs Hplus Hminus. unfold py_int. rewrite Hs.
  by rewrite !decide_False by done.
Qed.

(** What [int] makes of a field the filter keeps. *)
Lemma py_int_filtered s :
  isdigit (strip s) = true ->
  (py_int s = None <->
     all_chars (fun c => negb (int_refuses c)) s = false
     \/ int_max_str_digits < Z.of_nat (String.length (strip s)))
  /\ (forall n, py_int s = Some n -> 0 <= n).
Proof.
  intros Hd.
  destruct (field_shape s Hd)
    as (lead & c & core & trail & -> & -> & Hlead & Hcore & Htrail).
  clear Hd.
  assert (Hok_lead :
    all_chars (fun c => negb (int_refuses c)) lead = all_chars int_space lead).
  { clear - Hlead. induction lead as [|a lead IH]; [done|].
    cbn [all_chars] in *. apply andb_true_iff in Hlead as [Ha Hlead].
    destruct (space_char a Ha) as (_ & _ & _ & _ & _ & ->).
    by rewrite negb_involutive, IH. }
  assert (Hok_trail :
    all_chars (fun c => negb (int_refuses c)) trail
    = all_chars int_space trail).
  { clear - Htrail. induction trail as [|a trail IH]; [done|].
    cbn [all_chars] in *. apply andb_true_iff in Htrail as [Ha Htrail].
    destruct (space_char a Ha) as (_ & _ & _ & _ & _ & ->).
    by rewrite negb_involutive, IH. }
  assert (Hok_core :
    all_chars (fun c => negb (int_refuses c)) (String c core)
    = all_chars (fun c => bool_decide (is_Some (decimal c))) (String c core)).
  { clear - Hcore. induction (String c core) as [|a t IH]; [done|].
    cbn [all_chars] in *. apply andb_true_iff in Hcore as [Ha Hcore].
    destruct (digit_char a Ha) as (_ & _ & _ & _ & _ & ->).
    by rewrite negb_involutive, IH. }
  rewrite !all_chars_app, Hok_lead, Hok_core, Hok_trail.
  pose proof Hcore as Hcore'. cbn [all_chars] in Hcore'.
  apply andb_true_iff in Hcore' as [Hc _].
  destruct (digit_char c Hc) as (_ & Hci & _ & Hplus & Hminus & _).
  destruct (skip_space_lead lead (String c core +:+ trail) Hlead)
    as [[Hall Heq]|[Hall (a & r & Heq & Ha & Hai)]]; rewrite Hall.
  - assert (Heq' : skip_space (lead +:+ String c core +:+ trail)
                   = String c (core +:+ trail)).
    { rewrite Heq, append_cons. cbn [skip_space]. by rewrite Hci. }
    rewrite (py_int_unsigned _ _ _ Heq' Hplus Hminus).
    rewrite <- append_cons.
    destruct (all_chars (fun c => bool_decide (is_Some (decimal c)))
                (String c core)) eqn:Hdec.
    + pose proof Hdec as Hdec'. cbn [all_chars] in Hdec'.
      apply andb_true_iff in Hdec' as [[d ->]%bool_decide_eq_true _].
      destruct (digits_decimal (String c core) trail 0 0 Hdec Htrail)
        as (v & Hv & ->); [done|].
      rewrite Z.add_0_l.
      pose proof (skip_space_trail trail Htrail) as Hskip.
      destruct (all_chars int_space trail) eqn:Hint.
      * case_decide as Hcase.
        -- split; [|intros n [= <-]; lia].
           split; [done|]. intros [?|?]; [done | lia].
        -- split; [|done]. split; [|done]. intros _. right.
           destruct (decide (Z.of_nat (String.length (String c core))
                             <= int_max_str_digits)) as [Hle|]; [|lia].
           destruct Hcase. split; [by apply Hskip | done].
      * rewrite decide_False.
        -- split; [|done]. split; [by left | done].
        -- intros [Hnil _]. apply Hskip in Hnil. done.
    + destruct (digits_stuck (String c core) trail 0 0 Hcore Hdec)
        as (v & n & a & r & -> & Ha & Hnone).
      destruct (digit_char a Ha) as (_ & Hai & _).
      assert (Hres : (if decimal c is Some _
                      then if decide (skip_space (String a r) = ""
                                      /\ n <= int_max_str_digits)
                           then Some (1 * v) else None
                      else None) = None).
      { destruct (decimal c); [|done].
        rewrite decide_False; [done|]. cbn [skip_space]. rewrite Hai.
        by intros [? _]. }
      rewrite Hres.
      split; [|done]. split; [by left | done].
  - rewrite (py_int_unsigned _ _ _ Heq).
    + destruct (space_char a Ha) as (_ & -> & _).
      split; [|done]. split; [by left | done].
    + by destruct (space_char a Ha) as (_ & _ & _ & ? & _).
    + by destruct (space_char a Ha) as (_ & _ & _ & _ & ? & _).
Qed.

Lemma Exists_list_filter {A} (f : A -> bool) (P : A -> Prop) (l : list A) :
  Exists P (List.filter f l) <-> Exists (fun x => f x = true /\ P x) l.
Proof.
  induction l as [|a l IH]; simpl.
  - split; inversion 1.
  - destruct (f a) eqn:Hf; rewrite ?Exists_cons, IH; [tauto|].
    split; [tauto|]. intros [[Hfa _]|?]; [congruence | done].
Qed.

End Text.

Example parse_loss_example :
  parse_loss "2, 5, 8" = Some [2; 5; 8]
  /\ parse_loss " 7 ,x, -1,,+3 ,08" = Some [7; 8]
  /\ parse_loss ("1," +:+ String "178" "") = None
  /\ parse_loss (String "028" "4") = None.
Proof. by vm_compute. Qed.

(** X15.  The START button reads back what is typed.  On a simulator
    that is not running, with the six fields holding the decimal text of
    a configuration (integers of at most 4300 digits, negative or not;
    loss lists of natural numbers separated by a comma and a space),
    [start_sim] raises nothing and leaves the simulator in the start
    state of this configuration, whatever the earlier state: the sizes,
    the timeout and the delay are taken as typed, without validation. *)
Theorem X15_start_reads_fields {T} (g : Gui T) (c : Config) :
  gui_running g = false ->
  typable (cfg_total c) -> typable (cfg_win c) ->
  typable (cfg_timeout c) -> typable (cfg_delay c) ->
  Forall (fun k => 0 <= k /\ typable k) (cfg_data_drops c) ->
  Forall (fun k => 0 <= k /\ typable k) (cfg_ack_drops c) ->
  start_sim_gui g (fields_of c) = (gui_of (start_sim c), None).
Proof.
  intros Hrun Htotal Hwin Htimeout Hdelay Hdata Hack.
  unfold start_sim_gui, fields_of. rewrite Hrun.
  cbn [e_packets e_window e_timeout e_delay e_loss_data e_loss_ack].
  rewrite !py_int_pretty by done.
  rewrite !parse_loss_concat by done.
  by destruct c.
Qed.

(** X15 on the simulator as [__init__] builds it, for a run of minus
    three packets with DATA 2, 5 and 8 to be lost. *)
Lemma X15_start_reads_fields_witness :
  start_sim_gui (T:=float) initial_gui (mkFields "-3" "8" "7" "2, 5, 8" "" "3")
  = (gui_of (start_sim (mkConfig (-3) 8 7 3 [2; 5; 8] [])), None).
Proof.
  apply (X15_start_reads_fields initial_gui (mkConfig (-3) 8 7 3 [2; 5; 8] [])).
  - reflexivity.
  - by vm_compute.
  - by vm_compute.
  - by vm_compute.
  - by vm_compute.
  - repeat constructor; by vm_compute.
  - constructor.
Defined.

(** X16.  The filter of [Channel.__init__] and [int] do not agree.  The
    comprehension raises [ValueError] exactly when some field between
    two commas passes [x.strip().isdigit()] and either holds one of the
    seven characters that the filter lets through and [int] refuses (the
    separators 28 to 31, which [strip] removes and [int] does not skip,
    and the superscript digits 178, 179 and 185), or has more than 4300
    digits.  When it does not raise, the list holds natural numbers
    only: a negative number is never on a loss list. *)
Theorem X16_loss_list_errors (text : string) :
  (parse_loss text = None <->
   Exists (fun x =>
             isdigit (strip x) = true
             /\ (all_chars (fun c => negb (int_refuses c)) x = false
                 \/ int_max_str_digits < Z.of_nat (String.length (strip x))))
          (split "," text))
  /\ (forall l, parse_loss text = Some l -> Forall (fun k => 0 <= k) l).
Proof.
  unfold parse_loss. split.
  - rewrite mapM_None, Exists_list_filter.
    split; intros Hex; (eapply Exists_impl; [exact Hex|]);
      intros x [Hd Hx]; (split; [done|]); by apply (py_int_filtered x Hd).
  - intros l Hl. apply mapM_Some_1 in Hl.
    pose proof (list_filter_all (fun x => isdigit (strip x))
                  (split "," text)) as Hkept.
    induction Hl as [|x n xs l Hx _ IH]; [constructor|].
    inversion Hkept as [|? ? Hd Hrest]; subst.
    constructor; [|by apply IH].
    by apply (py_int_filtered x Hd).
Qed.
